(** * RAID-4 storage simulator: controller and disk workers

    A shallow embedding of [A3/controller.c] and [A3/disk_sim.c].

    The controller and every disk worker are separate processes that talk
    over pipes.  The embedding keeps that structure: a [world] holds the
    pipes, the descriptor table of every process, the controller's slot
    table and the memory of every worker; system calls are functions on
    the world; the controller's functions are written in a small monad
    whose outcomes are "returned", "blocked for ever", "exit()" and
    "undefined behaviour". *)

From Stdlib Require Import ZArith Lia.
From Stdlib Require Import Strings.Byte DecimalString.
From Stdlib Require DecimalPos DecimalZ.
From stdpp Require Import base gmap list strings.

Open Scope Z_scope.

(** ** Declarations of [raid.h]

    The header is not part of the sources at hand; what follows is
    what the two C files use of it. *)

(** The globals [num_disks], [block_size], [disk_size] and the macro
    [MAX_NAME].  They are fixed for a run, so they are a class whose
    fields read like the C globals. *)
Class raid_config := {
  num_disks : Z;
  block_size : Z;
  disk_size : Z;
  MAX_NAME : Z
}.

(** [disk_command_t].  The three enumerators are the case labels of the
    worker's [switch]; C requires them to be distinct.  Any other value
    of the underlying integer is [CMD_OTHER]. *)
Inductive disk_command_t :=
| CMD_READ
| CMD_WRITE
| CMD_EXIT
| CMD_OTHER (tag : Z).

(** [disk_controller_t]: the pid of the worker and the two [int[2]]
    descriptor pairs filled in by [pipe()]; index 0 is the read end and
    index 1 the write end. *)
Record disk_controller_t := {
  pid : Z;
  to_disk : Z * Z;
  from_disk : Z * Z
}.

(** A freshly [malloc]ed record.  Its content is indeterminate in C; the
    model gives every field the value [-1], which is no descriptor. *)
Definition uninitialized : disk_controller_t :=
  {| pid := -1; to_disk := (-1, -1); from_disk := (-1, -1) |}.

(** ** Bytes and blocks *)

Definition byte_xor (a b : byte) : byte :=
  match Byte.of_N (N.lxor (Byte.to_N a) (Byte.to_N b)) with
  | Some c => c
  | None => x00
  end.

(** [for (j = 0; j < block_size; j++) parity_data[j] ^= temp_data[j];]
    Both buffers hold [block_size] bytes. *)
Definition xor_block (parity_data temp_data : list byte) : list byte :=
  zip_with byte_xor parity_data temp_data.

(** ** The wire

    Every [write()] of the protocol transfers one fixed-size field and the
    peer reads it back with a [read()] of the same size, so a pipe is a
    queue of fields: a command tag ([sizeof(cmd)] bytes), a block number
    ([sizeof(int)] bytes) or a block ([block_size] bytes). *)
Inductive field :=
| FCmd (cmd : disk_command_t)
| FInt (n : Z)
| FBlock (data : list byte).

(** ** Checkpoint files *)

(** The directory the workers run in.  [fs_readonly] makes [fopen] fail,
    [fs_free] is the number of bytes [fwrite] can still store. *)
Record filesystem := {
  fs_files : gmap string (list byte);
  fs_readonly : bool;
  fs_free : Z
}.

(** [snprintf(disk_name, sizeof(disk_name), "disk_%d.dat", id)] *)
Definition disk_name (id : Z) : string :=
  ("disk_" +:+ NilZero.string_of_int (Z.to_int id) +:+ ".dat")%string.

Section DiskSim.
Context {cfg : raid_config}.

(** disk_sim.c, [checkpoint_disk].  [disk_data] is [None] for a null
    pointer.  The result is the return value and the directory;
    [fclose] is taken to succeed. *)
Definition checkpoint_disk (disk_data : option (list byte)) (id : Z)
    (fs : filesystem) : Z * filesystem :=
  match disk_data with
  | None => (-1, fs)
  | Some disk_data =>
    if Z.of_nat (String.length (disk_name id)) >=? MAX_NAME then (1, fs)
    else if fs_readonly fs then (-1, fs)           (* fopen failed *)
    else
      let bytes_written := Z.max 0 (Z.min disk_size (fs_free fs)) in
      let fs' := {| fs_files := <[disk_name id :=
                                   take (Z.to_nat bytes_written) disk_data]>
                                 (fs_files fs);
                    fs_readonly := fs_readonly fs;
                    fs_free := fs_free fs - bytes_written |} in
      if bytes_written =? disk_size then (0, fs') else (-1, fs')
  end.

(** *** Worker memory *)

(** [disk_data + block_num * block_size] has [block_size] bytes inside
    the array. *)
Definition in_disk (disk_data : list byte) (block_num : Z) : bool :=
  (0 <=? block_num * block_size)
  && (block_num * block_size + block_size <=? Z.of_nat (length disk_data)).

Definition load_block (disk_data : list byte) (block_num : Z) : list byte :=
  take (Z.to_nat block_size)
       (drop (Z.to_nat (block_num * block_size)) disk_data).

(** [memcpy(disk_data + block_num * block_size, block_data, block_size)] *)
Definition store_block (disk_data : list byte) (block_num : Z)
    (block_data : list byte) : list byte :=
  take (Z.to_nat (block_num * block_size)) disk_data
  ++ take (Z.to_nat block_size) block_data
  ++ drop (Z.to_nat (block_num * block_size + block_size)) disk_data.

(** *** The command loop *)

(** How a run of the loop on the input at hand ends. *)
Inductive disk_end :=
| Waiting (disk_data : list byte) (status : Z)
    (** blocked in [read()]: the next field has not arrived *)
| CmdExit
    (** [CMD_EXIT]: [checkpoint_disk], [free], [exit(0)] *)
| LoopLeft (status : Z)
    (** the [while] was left by [break]: [checkpoint_and_wait()], [free],
        [exit(status)] *)
| Undefined.
    (** an access outside [disk_data], or a field of a kind or size the
        reader does not expect *)

Record disk_run := DiskRun {
  dr_end : disk_end;
  dr_rest : list field;      (** fields still unread in the inbound pipe *)
  dr_replies : list field;   (** fields written to [to_parent], in order *)
  dr_fs : filesystem
}.

Definition push_reply (f : field) (r : disk_run) : disk_run :=
  {| dr_end := dr_end r; dr_rest := dr_rest r;
     dr_replies := f :: dr_replies r; dr_fs := dr_fs r |}.

(** A [read()] that finds the pipe empty blocks while a writer exists and
    returns 0 once none is left ([eof]); the latter is a failed read, and
    a failed read inside the [switch] sets [status] and leaves the
    [switch] only, so the next thing tried is the read of a command. *)
Definition starved (eof : bool) (inq : list field) (disk_data : list byte)
    (status : Z) (fs : filesystem) : disk_run :=
  if eof then DiskRun (LoopLeft 1) [] [] fs
  else DiskRun (Waiting disk_data status) inq [] fs.

(** disk_sim.c, [start_disk], the [while (1)] loop, run on the fields
    [inq] of the inbound pipe until the worker blocks or terminates.
    [can_reply] tells whether a [write()] to [to_parent] succeeds.  A
    command whose fields have not all arrived is left in the pipe. *)
Fixpoint command_loop (id : Z) (eof can_reply : bool) (inq : list field)
    (disk_data : list byte) (status : Z) (fs : filesystem) : disk_run :=
  match inq with
  | [] => starved eof inq disk_data status fs
  | FCmd cmd :: rest =>
    match cmd with
    | CMD_READ =>
      match rest with
      | [] => starved eof inq disk_data status fs
      | FInt block_num :: rest' =>
        if in_disk disk_data block_num then
          if can_reply then
            push_reply (FBlock (load_block disk_data block_num))
              (command_loop id eof can_reply rest' disk_data status fs)
          else command_loop id eof can_reply rest' disk_data 1 fs
        else DiskRun Undefined rest' [] fs
      | _ :: _ => DiskRun Undefined rest [] fs
      end
    | CMD_WRITE =>
      match rest with
      | [] => starved eof inq disk_data status fs
      | FInt block_num :: rest' =>
        match rest' with
        | [] => starved eof inq disk_data status fs
        | FBlock block_data :: rest'' =>
          if (Z.of_nat (length block_data) =? block_size)
             && in_disk disk_data block_num then
            command_loop id eof can_reply rest''
              (store_block disk_data block_num block_data) status fs
          else DiskRun Undefined rest'' [] fs
        | _ :: _ => DiskRun Undefined rest' [] fs
        end
      | _ :: _ => DiskRun Undefined rest [] fs
      end
    | CMD_EXIT =>
      DiskRun CmdExit rest [] (snd (checkpoint_disk (Some disk_data) id fs))
    | CMD_OTHER _ =>
      command_loop id eof can_reply rest disk_data 1 fs
    end
  | _ :: _ => DiskRun Undefined inq [] fs
  end.

(** disk_sim.c, [start_disk], from the top of its loop, with the memory
    [disk_data] and the [status] the worker has reached; a worker starts
    with [fresh_disk] and status 0.  With a descriptor that cannot be
    read ([fd_ok = false]) the first [read()] fails.  What follows the
    loop, [checkpoint_and_wait()] and [exit(status)], needs the worker's
    descriptors and is in [conclude] below. *)
Definition start_disk (id : Z) (fd_ok eof can_reply : bool) (inq : list field)
    (disk_data : list byte) (status : Z) (fs : filesystem) : disk_run :=
  if fd_ok then command_loop id eof can_reply inq disk_data status fs
  else DiskRun (LoopLeft 1) inq [] fs.

(** [calloc(disk_size, sizeof(char))] *)
Definition fresh_disk : list byte := replicate (Z.to_nat disk_size) x00.

End DiskSim.

(** ** Processes, descriptors and pipes *)

Inductive pipe_end := RdEnd | WrEnd.

(** What an open descriptor refers to: the terminal (descriptors 0 to 2
    of the controller) or one end of the pipe numbered [p]. *)
Inductive file_obj :=
| Tty
| Pipe (p : nat) (e : pipe_end).

#[global] Instance pipe_end_eq_dec : EqDecision pipe_end.
Proof. solve_decision. Defined.
#[global] Instance file_obj_eq_dec : EqDecision file_obj.
Proof. solve_decision. Defined.

Inductive proc_state :=
| Running (disk_data : list byte) (status : Z)
    (** inside the command loop, blocked in [read()] *)
| Exited (status : Z)
| Killed                       (** terminated by [SIGINT] *)
| Crashed.                     (** reached undefined behaviour *)

(** A child of the controller running [start_disk (id, to_parent,
    from_parent)].  [fork()] gave it a copy of the controller's
    descriptor table and of the [controllers] array. *)
Record process := {
  p_id : Z;
  p_to_parent : Z;
  p_from_parent : Z;
  p_fds : gmap Z file_obj;
  p_controllers : list disk_controller_t;
  p_state : proc_state;
  p_reaped : bool
}.

(** The static pointer [controllers]. *)
Inductive table :=
| TNull
| TLive (cs : list disk_controller_t)
| TFreed.

(** A transfer the controller completed on one of its descriptors. *)
Inductive event :=
| EvSend (fd : Z) (f : field)
| EvRecv (fd : Z) (f : field).

(** The controller, its children and the kernel objects they share.
    The child with pid [k + 1] is [procs !! k].  [fd_limit] is the number
    of descriptors a process may have open and [forks_left] the number of
    processes that can still be created. *)
Record world := {
  pipes : list (list field);
  ctl_fds : gmap Z file_obj;
  controllers : table;
  procs : list process;
  fs : filesystem;
  trace : list event;
  fd_limit : Z;
  forks_left : nat
}.

Definition set_pipes (f : list (list field) → list (list field)) (w : world) :=
  {| pipes := f (pipes w); ctl_fds := ctl_fds w; controllers := controllers w;
     procs := procs w; fs := fs w; trace := trace w;
     fd_limit := fd_limit w; forks_left := forks_left w |}.
Definition set_ctl_fds (f : gmap Z file_obj → gmap Z file_obj) (w : world) :=
  {| pipes := pipes w; ctl_fds := f (ctl_fds w); controllers := controllers w;
     procs := procs w; fs := fs w; trace := trace w;
     fd_limit := fd_limit w; forks_left := forks_left w |}.
Definition set_controllers (t : table) (w : world) :=
  {| pipes := pipes w; ctl_fds := ctl_fds w; controllers := t;
     procs := procs w; fs := fs w; trace := trace w;
     fd_limit := fd_limit w; forks_left := forks_left w |}.
Definition set_procs (f : list process → list process) (w : world) :=
  {| pipes := pipes w; ctl_fds := ctl_fds w; controllers := controllers w;
     procs := f (procs w); fs := fs w; trace := trace w;
     fd_limit := fd_limit w; forks_left := forks_left w |}.
Definition set_fs (x : filesystem) (w : world) :=
  {| pipes := pipes w; ctl_fds := ctl_fds w; controllers := controllers w;
     procs := procs w; fs := x; trace := trace w;
     fd_limit := fd_limit w; forks_left := forks_left w |}.
Definition log (e : event) (w : world) :=
  {| pipes := pipes w; ctl_fds := ctl_fds w; controllers := controllers w;
     procs := procs w; fs := fs w; trace := trace w ++ [e];
     fd_limit := fd_limit w; forks_left := forks_left w |}.
Definition set_forks_left (n : nat) (w : world) :=
  {| pipes := pipes w; ctl_fds := ctl_fds w; controllers := controllers w;
     procs := procs w; fs := fs w; trace := trace w;
     fd_limit := fd_limit w; forks_left := n |}.

Definition set_state (st : proc_state) (pr : process) : process :=
  {| p_id := p_id pr; p_to_parent := p_to_parent pr;
     p_from_parent := p_from_parent pr; p_fds := p_fds pr;
     p_controllers := p_controllers pr; p_state := st;
     p_reaped := p_reaped pr |}.
Definition set_reaped (pr : process) : process :=
  {| p_id := p_id pr; p_to_parent := p_to_parent pr;
     p_from_parent := p_from_parent pr; p_fds := p_fds pr;
     p_controllers := p_controllers pr; p_state := p_state pr;
     p_reaped := true |}.

Definition alive (pr : process) : bool :=
  match p_state pr with Running _ _ => true | _ => false end.

(** Some descriptor of the table refers to [o]. *)
Definition holds (fds : gmap Z file_obj) (o : file_obj) : bool :=
  bool_decide (map_Exists (λ _ x, x = o) fds).

(** End [e] of pipe [p] is open in the controller or in a live child. *)
Definition pipe_open (w : world) (p : nat) (e : pipe_end) : bool :=
  holds (ctl_fds w) (Pipe p e)
  || existsb (λ pr, alive pr && holds (p_fds pr) (Pipe p e)) (procs w).

(** [write()] appends to the pipe; pipes are taken to be large enough
    for a write never to block. *)
Definition push (p : nat) (fl : list field) (w : world) : world :=
  set_pipes (alter (λ q, q ++ fl) p) w.

(** The lowest descriptor number not in use, below the limit. *)
Fixpoint lowest_free (fds : gmap Z file_obj) (n : nat) (fd : Z) : option Z :=
  match n with
  | O => None
  | S n' =>
    match fds !! fd with
    | None => Some fd
    | Some _ => lowest_free fds n' (fd + 1)
    end
  end.

Definition alloc_fd (fds : gmap Z file_obj) (limit : Z) : option Z :=
  lowest_free fds (Z.to_nat limit) 0.

Definition close_all (fds : gmap Z file_obj) (l : list Z) : gmap Z file_obj :=
  foldl (λ t fd, delete fd t) fds l.

(** ** The monad of the controller *)

Inductive outcome (A : Type) :=
| Ret (a : A) (w : world)       (** the call returned [a] *)
| Hang (w : world)              (** blocked in a system call for ever *)
| Exit (code : Z) (w : world)   (** the controller called [exit] *)
| Fault (w : world).            (** undefined behaviour *)
Arguments Ret {A} a w.
Arguments Hang {A} w.
Arguments Exit {A} code w.
Arguments Fault {A} w.

Definition M (A : Type) : Type := world → outcome A.

#[global] Instance M_ret : MRet M := λ A a w, Ret a w.
#[global] Instance M_bind : MBind M := λ A B f m w,
  match m w with
  | Ret a w' => f a w'
  | Hang w' => Hang w'
  | Exit c w' => Exit c w'
  | Fault w' => Fault w'
  end.

Definition modify (f : world → world) : M unit := λ w, Ret () (f w).

Section Controller.
Context {cfg : raid_config}.

(** ** Running a worker *)

(** [checkpoint_and_wait()] as a worker executes it after leaving its
    loop: the [CMD_EXIT] writes go through the worker's own descriptor
    table and its own copy of [controllers]; every [wait(NULL)] fails at
    once, a worker has no children.  A worker that is sent [CMD_EXIT]
    this way reads it when it next runs. *)
Definition child_send_exit (pr : process) (w : world) (c : disk_controller_t)
    : world :=
  match p_fds pr !! (to_disk c).2 with
  | Some (Pipe p WrEnd) =>
    if pipe_open w p RdEnd then push p [FCmd CMD_EXIT] w else w
  | _ => w
  end.

Definition child_checkpoint_and_wait (pr : process) (w : world) : world :=
  foldl (child_send_exit pr) w
        (take (Z.to_nat (num_disks + 1)) (p_controllers pr)).

(** The pipe a worker reads its commands from and the pipe it writes its
    replies to, when its two descriptors are open ends of the right
    direction. *)
Definition inbound (pr : process) : option nat :=
  match p_fds pr !! p_from_parent pr with
  | Some (Pipe p RdEnd) => Some p
  | _ => None
  end.

Definition outbound (pr : process) : option nat :=
  match p_fds pr !! p_to_parent pr with
  | Some (Pipe q WrEnd) => Some q
  | _ => None
  end.

(** The command loop of worker [pr], with memory [disk_data], on what
    its inbound pipe holds.  Without a readable descriptor the first
    [read()] fails; the pipe is at end of file when no write end of it
    is open any more; a reply can be written while the pipe behind
    [to_parent] has a reader. *)
Definition disk_turn (pr : process) (disk_data : list byte) (status : Z)
    (w : world) : disk_run :=
  start_disk (p_id pr)
    (bool_decide (is_Some (inbound pr)))
    (match inbound pr with
     | Some p => negb (pipe_open w p WrEnd)
     | None => true
     end)
    (match outbound pr with
     | Some q => pipe_open w q RdEnd
     | None => false
     end)
    (default [] (p ← inbound pr; pipes w !! p))
    disk_data status (fs w).

(** The effects of a turn on the pipes and on the directory. *)
Definition deliver (pr : process) (r : disk_run) (w : world) : world :=
  let w1 :=
    match inbound pr with
    | Some p => set_pipes (alter (λ _, dr_rest r) p) w
    | None => w
    end in
  let w2 :=
    match outbound pr with
    | Some q => push q (dr_replies r) w1
    | None => w1
    end in
  set_fs (dr_fs r) w2.

(** How the turn ends for child [k]. *)
Definition conclude (k : nat) (pr : process) (e : disk_end) (w : world)
    : world :=
  match e with
  | Waiting disk_data status =>
    set_procs (alter (set_state (Running disk_data status)) k) w
  | CmdExit =>
    set_procs (alter (set_state (Exited 0)) k) w
  | LoopLeft status =>
    set_procs (alter (set_state (Exited status)) k)
              (child_checkpoint_and_wait pr w)
  | Undefined =>
    set_procs (alter (set_state Crashed) k) w
  end.

(** Let child [k] run until it blocks or terminates. *)
Definition run_disk (k : nat) (w : world) : world :=
  match procs w !! k with
  | None => w
  | Some pr =>
    match p_state pr with
    | Running disk_data status =>
      let r := disk_turn pr disk_data status w in
      conclude k pr (dr_end r) (deliver pr r w)
    | _ => w
    end
  end.

(** The live child that reads pipe [p] through its [from_parent]. *)
Definition reads_from (p : nat) (pr : process) : bool :=
  alive pr && bool_decide (inbound pr = Some p).

Fixpoint find_reader (p : nat) (l : list process) : option nat :=
  match l with
  | [] => None
  | pr :: l' => if reads_from p pr then Some O else S <$> find_reader p l'
  end.

(** Data arrived in pipe [p]: the worker blocked on it runs. *)
Definition wake (p : nat) (w : world) : world :=
  match find_reader p (procs w) with
  | Some k => run_disk k w
  | None => w
  end.

(** ** System calls of the controller *)

(** [write(fd, &field, size) == size].  [SIGPIPE] is ignored
    ([ignore_sigpipe]), so a write to a pipe nobody reads fails with
    [EPIPE] instead of killing the controller. *)
Definition sys_write (fd : Z) (f : field) : M bool := λ w,
  match ctl_fds w !! fd with
  | Some (Pipe p WrEnd) =>
    if pipe_open w p RdEnd
    then Ret true (wake p (log (EvSend fd f) (push p [f] w)))
    else Ret false w
  | Some Tty => Ret true (log (EvSend fd f) w)
  | _ => Ret false w
  end.

(** [read(fd, data, block_size) == block_size]: [Some] block when the
    transfer was complete.  On an empty pipe the call blocks while a
    writer is left and returns 0 otherwise. *)
Definition sys_read (fd : Z) : M (option (list byte)) := λ w,
  match ctl_fds w !! fd with
  | Some (Pipe p RdEnd) =>
    match pipes w !! p with
    | Some (FBlock data :: rest) =>
      if Z.of_nat (length data) =? block_size
      then Ret (Some data)
               (log (EvRecv fd (FBlock data)) (set_pipes (alter (λ _, rest) p) w))
      else Fault w
    | Some [] => if pipe_open w p WrEnd then Hang w else Ret None w
    | _ => Fault w
    end
  | Some Tty => Hang w
  | _ => Ret None w
  end.

Definition sys_close (fd : Z) : M unit :=
  modify (set_ctl_fds (delete fd)).

(** [pipe(fds)]: two new descriptors, the lowest free ones, for the read
    and the write end of a new pipe; [None] when the call fails. *)
Definition sys_pipe : M (option (Z * Z)) := λ w,
  match alloc_fd (ctl_fds w) (fd_limit w) with
  | None => Ret None w
  | Some r =>
    let p := length (pipes w) in
    let fds1 := <[r := Pipe p RdEnd]> (ctl_fds w) in
    match alloc_fd fds1 (fd_limit w) with
    | None => Ret None w
    | Some wr =>
      Ret (Some (r, wr))
          (set_pipes (λ ps, ps ++ [[]])
             (set_ctl_fds (λ _, <[wr := Pipe p WrEnd]> fds1) w))
    end
  end.

(** [controllers[num]], read and written. *)
Definition get_controller (num : Z) : M disk_controller_t := λ w,
  match controllers w with
  | TLive cs =>
    match (if 0 <=? num then cs !! Z.to_nat num else None) with
    | Some c => Ret c w
    | None => Fault w
    end
  | _ => Fault w
  end.

Definition put_controller (num : Z) (c : disk_controller_t) : M unit := λ w,
  match controllers w with
  | TLive cs =>
    if (0 <=? num) && (Z.to_nat num <? length cs)%nat
    then Ret () (set_controllers (TLive (<[Z.to_nat num := c]> cs)) w)
    else Fault w
  | _ => Fault w
  end.

Definition with_pid (x : Z) (c : disk_controller_t) : disk_controller_t :=
  {| pid := x; to_disk := to_disk c; from_disk := from_disk c |}.

(** What the child does after [fork()]: close the descriptors [cp_close]
    in that order, then call [start_disk (cp_id, cp_to_parent,
    cp_from_parent)], which does not return ([calloc] is taken to
    succeed). *)
Record child_program := {
  cp_close : list Z;
  cp_id : Z;
  cp_to_parent : Z;
  cp_from_parent : Z
}.

(** The child as [fork()] creates it and as it enters [start_disk]: a
    copy of the parent's descriptors, less the ones it closed, a copy of
    the parent's memory with 0 in [controllers[num].pid], and a zeroed
    disk. *)
Definition forked (num : Z) (cp : child_program) (fds : gmap Z file_obj)
    (cs : list disk_controller_t) : process :=
  {| p_id := cp_id cp;
     p_to_parent := cp_to_parent cp;
     p_from_parent := cp_from_parent cp;
     p_fds := close_all fds (cp_close cp);
     p_controllers := alter (with_pid 0) (Z.to_nat num) cs;
     p_state := Running fresh_disk 0;
     p_reaped := false |}.

(** [controllers[num].pid = fork()]: the result is the pid stored in the
    parent, negative when no process could be created.  The child runs
    its program up to the first [read()] that blocks, or to its exit,
    before the parent goes on: the state after [fork()] is the one in
    which the child has got that far.  A parent that runs ahead of the
    child is not modelled. *)
Definition sys_fork (num : Z) (cp : child_program) : M Z := λ w,
  match forks_left w, controllers w with
  | O, _ => Ret (-1) w
  | S n, TLive cs =>
    let k := length (procs w) in
    Ret (Z.of_nat k + 1)
        (run_disk k (set_procs (λ ps, ps ++ [forked num cp (ctl_fds w) cs])
                               (set_forks_left n w)))
  | S _, _ => Fault w
  end.

Definition proc_of_pid (x : Z) : option nat :=
  if 0 <? x then Some (Z.to_nat (x - 1)) else None.

(** [kill(pid, SIGINT)] on a child; the workers leave the default action
    of [SIGINT] in place.  Other targets of [kill] are not modelled. *)
Definition sys_kill (x : Z) : M unit := λ w,
  match proc_of_pid x with
  | Some k =>
    match procs w !! k with
    | Some pr =>
      if alive pr
      then Ret () (set_procs (alter (set_state Killed) k) w)
      else Ret () w
    | None => Ret () w
    end
  | None => Fault w
  end.

Definition waitable (pr : process) : bool :=
  negb (alive pr) && negb (p_reaped pr).

(** [waitpid(pid, NULL, 0)] *)
Definition sys_waitpid (x : Z) : M Z := λ w,
  match k ← proc_of_pid x; pr ← procs w !! k; Some (k, pr) with
  | Some (k, pr) =>
    if alive pr then Hang w
    else if p_reaped pr then Ret (-1) w
    else Ret x (set_procs (alter set_reaped k) w)
  | None => Ret (-1) w
  end.

Fixpoint find_waitable (l : list process) : option nat :=
  match l with
  | [] => None
  | pr :: l' => if waitable pr then Some O else S <$> find_waitable l'
  end.

(** [wait(NULL)]: reap a terminated child; block while only live
    children are left; fail when there is no child to wait for. *)
Definition sys_wait : M Z := λ w,
  match find_waitable (procs w) with
  | Some k => Ret (Z.of_nat k + 1) (set_procs (alter set_reaped k) w)
  | None => if existsb alive (procs w) then Hang w else Ret (-1) w
  end.

(** [controllers = malloc(total_disks * sizeof(disk_controller_t))] for
    a count [total_disks >= 0], where the call is taken to succeed.  With
    a negative count the C call fails and [init_all_controllers] returns
    -1 with nothing allocated; that path is not modelled, and the
    properties of [init_all_controllers] assume a count that is not
    negative. *)
Definition sys_malloc_table (total_disks : Z) : M unit :=
  modify (set_controllers (TLive (replicate (Z.to_nat total_disks) uninitialized))).

(** [free(controllers)] *)
Definition sys_free_table : M unit := modify (set_controllers TFreed).

(** [exit(code)] *)
Definition sys_exit {A} (code : Z) : M A := λ w, Exit code w.

(** ** controller.c *)

Definition with_to_disk (x : Z * Z) (c : disk_controller_t) :=
  {| pid := pid c; to_disk := x; from_disk := from_disk c |}.
Definition with_from_disk (x : Z * Z) (c : disk_controller_t) :=
  {| pid := pid c; to_disk := to_disk c; from_disk := x |}.

(** [pipe(controllers[num].to_disk)], 0 or -1 *)
Definition pipe_to_disk (num : Z) : M Z :=
  c ← get_controller num;
  r ← sys_pipe;
  match r with
  | None => mret (-1)
  | Some x => put_controller num (with_to_disk x c);; mret 0
  end.

(** [pipe(controllers[num].from_disk)], 0 or -1 *)
Definition pipe_from_disk (num : Z) : M Z :=
  c ← get_controller num;
  r ← sys_pipe;
  match r with
  | None => mret (-1)
  | Some x => put_controller num (with_from_disk x c);; mret 0
  end.

(** controller.c, [init_disk].  [ignore_sigpipe()] is accounted for in
    [sys_write]. *)
Definition init_disk (num : Z) : M Z :=
  rc ← pipe_to_disk num;
  if rc =? -1 then mret (-1) else
  rc ← pipe_from_disk num;
  if rc =? -1 then mret (-1) else
  c ← get_controller num;
  x ← sys_fork num
        {| cp_close := [(to_disk c).2; (from_disk c).1];
           cp_id := num;
           cp_to_parent := (from_disk c).2;
           cp_from_parent := (to_disk c).1 |};
  put_controller num (with_pid x c);;
  if x <? 0 then mret (-1) else
  sys_close (to_disk c).1;;
  sys_close (from_disk c).2;;
  mret 0.

(** The descriptors the child of [restart_disk] closes, in the order of
    its [for (i = 0; i < num_disks + 1; i++)] loop; [n] iterations are
    left.  An index past the end of the array reads as [uninitialized]. *)
Fixpoint restart_closes (cs : list disk_controller_t) (num : Z) (n : nat)
    (i : Z) : list Z :=
  match n with
  | O => []
  | S n' =>
    let c := default uninitialized (cs !! Z.to_nat i) in
    (if negb (i =? num)
     then [(to_disk c).2; (from_disk c).1]
     else [(to_disk c).1; (from_disk c).2; (from_disk c).1; (to_disk c).2])
    ++ restart_closes cs num n' (i + 1)
  end.

Definition get_table : M (list disk_controller_t) := λ w,
  match controllers w with
  | TLive cs => Ret cs w
  | _ => Fault w
  end.

(** controller.c, [restart_disk] *)
Definition restart_disk (num : Z) : M Z :=
  rc ← pipe_to_disk num;
  if rc =? -1 then mret (-1) else
  rc ← pipe_from_disk num;
  if rc =? -1 then mret (-1) else
  c ← get_controller num;
  cs ← get_table;
  x ← sys_fork num
        {| cp_close := restart_closes cs num (Z.to_nat (num_disks + 1)) 0;
           cp_id := num;
           cp_to_parent := (from_disk c).2;
           cp_from_parent := (to_disk c).1 |};
  put_controller num (with_pid x c);;
  if x <? 0 then mret (-1) else
  sys_close (to_disk c).1;;
  sys_close (from_disk c).2;;
  mret 0.

(** The [for] loop of [init_all_controllers], [n] slots from [i] on. *)
Fixpoint init_disks (n : nat) (i : Z) : M Z :=
  match n with
  | O => mret 0
  | S n' =>
    rc ← init_disk i;
    if rc =? -1 then sys_free_table;; mret (-1)
    else init_disks n' (i + 1)
  end.

(** controller.c, [init_all_controllers] *)
Definition init_all_controllers (total_disks : Z) : M Z :=
  sys_malloc_table total_disks;;
  init_disks (Z.to_nat total_disks) 0.

(** controller.c, [read_block_from_disk].  The result is the return
    value and the buffer; a null [data] is [None]. *)
Definition read_block_from_disk (block_num : Z) (data : option (list byte))
    (parity_flag : Z) : M (Z * option (list byte)) :=
  match data with
  | None => mret (-1, None)
  | Some buf =>
    let disk_num :=
      if parity_flag =? 1 then num_disks else Z.rem block_num num_disks in
    let cmd := CMD_READ in
    let block_num := Z.quot block_num num_disks in
    c ← get_controller disk_num;
    ok ← sys_write (to_disk c).2 (FCmd cmd);
    if negb ok then mret (-1, data) else
    ok ← sys_write (to_disk c).2 (FInt block_num);
    if negb ok then mret (-1, data) else
    r ← sys_read (from_disk c).1;
    match r with
    | None => mret (-1, data)
    | Some bytes => mret (0, Some (bytes ++ drop (Z.to_nat block_size) buf))
    end
  end.

(** controller.c, [write_block_to_disk] *)
Definition write_block_to_disk (block_num : Z) (data : option (list byte))
    (parity_flag : Z) : M Z :=
  match data with
  | None => mret (-1)
  | Some buf =>
    let disk_num :=
      if parity_flag =? 1 then num_disks else Z.rem block_num num_disks in
    let cmd := CMD_WRITE in
    let block_num := Z.quot block_num num_disks in
    c ← get_controller disk_num;
    ok ← sys_write (to_disk c).2 (FCmd cmd);
    if negb ok then mret (-1) else
    ok ← sys_write (to_disk c).2 (FInt block_num);
    if negb ok then mret (-1) else
    ok ← sys_write (to_disk c).2 (FBlock (take (Z.to_nat block_size) buf));
    if negb ok then mret (-1) else
    mret 0
  end.

(** The first [for] loop of the parity update in [write_block]: [n]
    iterations from [i] on; [None] when a read failed.  [temp_data] is
    fresh memory whose content does not matter. *)
Fixpoint xor_other_disks (n : nat) (i : Z) (disk_num : Z)
    (parity_data : list byte) : M (option (list byte)) :=
  match n with
  | O => mret (Some parity_data)
  | S n' =>
    if negb (i =? disk_num) then
      let temp_data := replicate (Z.to_nat block_size) x00 in
      r ← read_block_from_disk i (Some temp_data) 0;
      match r with
      | (0, Some temp_data) =>
        xor_other_disks n' (i + 1) disk_num (xor_block parity_data temp_data)
      | _ => mret None
      end
    else xor_other_disks n' (i + 1) disk_num parity_data
  end.

(** The body of [if (parity_flag == 0)] in [write_block]; [calloc] is
    taken to succeed. *)
Definition update_parity (disk_num stripe : Z) (data : list byte) : M Z :=
  let parity_data := replicate (Z.to_nat block_size) x00 in
  r ← xor_other_disks (Z.to_nat num_disks) 0 disk_num parity_data;
  match r with
  | None => mret (-1)
  | Some parity_data =>
    let parity_data := xor_block parity_data data in
    rc ← write_block_to_disk stripe (Some parity_data) 1;
    if negb (rc =? 0) then mret (-1) else mret 0
  end.

(** [block_num < 0 || block_num >= disk_size / block_size], for a
    [block_size] other than 0.  The C expression divides by
    [block_size]: at 0 the process is killed by [SIGFPE], which the
    total [Z.quot] does not show. *)
Definition invalid_block (block_num : Z) : bool :=
  (block_num <? 0) || (block_num >=? Z.quot disk_size block_size).

(** The value of [parity_flag] in [write_block]. *)
Definition write_block_parity_flag (block_num : Z) : Z :=
  let disk_num := Z.rem block_num num_disks in
  if disk_num =? num_disks then 1 else 0.

(** controller.c, [write_block] *)
Definition write_block (block_num : Z) (data : option (list byte)) : M Z :=
  match data with
  | None => mret (-1)
  | Some buf =>
    if invalid_block block_num then mret (-1) else
    let disk_num := Z.rem block_num num_disks in
    let stripe := Z.quot block_num num_disks in
    let parity_flag := write_block_parity_flag block_num in
    rc ← write_block_to_disk block_num data parity_flag;
    if negb (rc =? 0) then mret (-1) else
    if parity_flag =? 0 then update_parity disk_num stripe buf
    else mret 0
  end.

(** controller.c, [read_block]: the buffer on success, [None] for the
    null pointer. *)
Definition read_block (block_num : Z) (data : option (list byte))
    : M (option (list byte)) :=
  match data with
  | None => mret None
  | Some _ =>
    if invalid_block block_num then mret None else
    r ← read_block_from_disk block_num data 0;
    if negb (r.1 =? 0) then mret None else mret r.2
  end.

(** The two loops of [checkpoint_and_wait]. *)
Fixpoint send_exit (n : nat) (i : Z) : M unit :=
  match n with
  | O => mret ()
  | S n' =>
    c ← get_controller i;
    sys_write (to_disk c).2 (FCmd CMD_EXIT);;
    send_exit n' (i + 1)
  end.

Fixpoint wait_children (n : nat) : M unit :=
  match n with
  | O => mret ()
  | S n' => sys_wait;; wait_children n'
  end.

(** controller.c, [checkpoint_and_wait] *)
Definition checkpoint_and_wait : M unit :=
  send_exit (Z.to_nat (num_disks + 1)) 0;;
  wait_children (Z.to_nat (num_disks + 1)).

(** controller.c, [simulate_disk_failure] *)
Definition simulate_disk_failure (disk_num : Z) : M unit :=
  c ← get_controller disk_num;
  sys_kill (pid c);;
  sys_waitpid (pid c);;
  mret ().

(** controller.c, [restore_disk_process] *)
Definition restore_disk_process (disk_num : Z) : M unit :=
  rc ← restart_disk disk_num;
  if rc =? -1 then sys_exit 1 else mret ().

End Controller.

(** ** A freshly started controller *)

Definition empty_dir : filesystem :=
  {| fs_files := ∅; fs_readonly := false; fs_free := 1000000 |}.

(** The controller before [init_all_controllers]: the terminal on
    descriptors 0, 1 and 2, no child, no pipe. *)
Definition boot (limit : Z) (forks : nat) : world :=
  {| pipes := [];
     ctl_fds := <[0 := Tty]> (<[1 := Tty]> (<[2 := Tty]> ∅));
     controllers := TNull;
     procs := [];
     fs := empty_dir;
     trace := [];
     fd_limit := limit;
     forks_left := forks |}.

(** The configuration of the scenario: 3 data disks, blocks of 4 bytes,
    16 bytes per disk. *)
Definition cfg344 : raid_config :=
  {| num_disks := 3; block_size := 4; disk_size := 16; MAX_NAME := 128 |}.

(** Run [m] and go on from the world it leaves, whatever it returned. *)
Definition after {A} (m : M A) (w : world) : world :=
  match m w with
  | Ret _ w' => w'
  | Hang w' => w'
  | Exit _ w' => w'
  | Fault w' => w'
  end.

Definition returned {A} (m : M A) (w : world) : option A :=
  match m w with
  | Ret a _ => Some a
  | _ => None
  end.

(** ** What the properties talk about *)

Section Observations.
Context {cfg : raid_config}.

(** The memory of the worker recorded in [controllers[slot]]. *)
Definition disk_of (w : world) (slot : Z) : option (list byte) :=
  match controllers w with
  | TLive cs =>
    c ← (if 0 <=? slot then cs !! Z.to_nat slot else None);
    k ← proc_of_pid (pid c);
    pr ← procs w !! k;
    match p_state pr with
    | Running disk_data _ => Some disk_data
    | _ => None
    end
  | _ => None
  end.

(** Block [k] of the disk in [slot]. *)
Definition block_of (w : world) (slot k : Z) : option (list byte) :=
  d ← disk_of w slot; Some (load_block d k).

(** The XOR of block [k] of the data disks [0 .. num_disks - 1]. *)
Definition stripe_xor (w : world) (k : Z) : option (list byte) :=
  foldl (λ acc slot, a ← acc; b ← block_of w slot k; Some (xor_block a b))
        (Some (replicate (Z.to_nat block_size) x00))
        (seqZ 0 num_disks).

(** Parity block [k] is the XOR of the data blocks of stripe [k]. *)
Definition parity_holds (w : world) (k : Z) : Prop :=
  is_Some (stripe_xor w k) ∧ block_of w num_disks k = stripe_xor w k.

(** Slot [s] is in service: its record names a live worker with a disk of
    [disk_size] bytes, the controller's two descriptors of the slot and
    the worker's two descriptors are the four ends of two distinct, empty
    pipes, and that worker is the one that runs when data arrives. *)
Definition slot_ready (w : world) (s : Z) : bool :=
  match controllers w with
  | TLive cs =>
    match (if 0 <=? s then cs !! Z.to_nat s else None) with
    | Some c =>
      match ctl_fds w !! (to_disk c).2, ctl_fds w !! (from_disk c).1,
            proc_of_pid (pid c) with
      | Some (Pipe pin WrEnd), Some (Pipe pout RdEnd), Some k =>
        match procs w !! k with
        | Some pr =>
          match p_state pr, pipes w !! pin, pipes w !! pout with
          | Running d _, Some [], Some [] =>
            (Z.of_nat (length d) =? disk_size)
            && bool_decide (inbound pr = Some pin)
            && bool_decide (outbound pr = Some pout)
            && bool_decide (find_reader pin (procs w) = Some k)
            && bool_decide (pin ≠ pout)
          | _, _, _ => false
          end
        | None => false
        end
      | _, _, _ => false
      end
    | None => false
    end
  | _ => false
  end.

Definition pid_of (w : world) (s : Z) : option Z :=
  match controllers w with
  | TLive cs => pid <$> (if 0 <=? s then cs !! Z.to_nat s else None)
  | _ => None
  end.

(** The whole array is in service: every slot is, and the worker of the
    parity slot is not the worker of a data slot. *)
Definition array_ready (w : world) : Prop :=
  (∀ s, 0 <= s <= num_disks → slot_ready w s = true)
  ∧ (∀ s, 0 <= s < num_disks → pid_of w s ≠ pid_of w num_disks).

(** The controller's descriptors [fdw] and [fdr] and child [k], whose
    record is [pr], are joined by the pipes [pin] and [pout], and [k] is
    the child that runs when data arrives in [pin]. *)
Definition serving (w : world) (fdw fdr : Z) (pin pout k : nat)
    (pr : process) : Prop :=
  ctl_fds w !! fdw = Some (Pipe pin WrEnd)
  ∧ ctl_fds w !! fdr = Some (Pipe pout RdEnd)
  ∧ find_reader pin (procs w) = Some k
  ∧ procs w !! k = Some pr
  ∧ inbound pr = Some pin
  ∧ outbound pr = Some pout
  ∧ pin ≠ pout.

(** Slot [s] is served by child [k], whose disk holds [d]: the record of
    the slot names [k], its descriptors are joined to [k] by two empty
    pipes, and [k] is blocked in its command loop. *)
Definition slot_serving (w : world) (s : Z) (k : nat) (d : list byte)
    : Prop :=
  ∃ cs c pin pout pr st,
    controllers w = TLive cs ∧ 0 <= s ∧ cs !! Z.to_nat s = Some c
    ∧ proc_of_pid (pid c) = Some k
    ∧ serving w (to_disk c).2 (from_disk c).1 pin pout k pr
    ∧ p_state pr = Running d st
    ∧ pipes w !! pin = Some [] ∧ pipes w !! pout = Some []
    ∧ Z.of_nat (length d) = disk_size.

(** A child that is running and whose two descriptors lead to pipes the
    controller holds the other end of. *)
Definition attached (w : world) (pr : process) : bool :=
  alive pr
  && match inbound pr, outbound pr with
     | Some p, Some q =>
       holds (ctl_fds w) (Pipe p WrEnd) && holds (ctl_fds w) (Pipe q RdEnd)
     | _, _ => false
     end.

(** Nothing of an array is left: no child runs and the controller has no
    pipe end open. *)
Definition nothing_live (w : world) : Prop :=
  (∀ pr, pr ∈ procs w → alive pr = false)
  ∧ (∀ fd p e, ctl_fds w !! fd ≠ Some (Pipe p e)).

(** [init_all_controllers], when it fails, leaves nothing live. *)
Definition fails_atomically (total_disks : Z) (w : world) : Prop :=
  ∀ w', init_all_controllers total_disks w = Ret (-1) w' → nothing_live w'.

End Observations.

(** *** The protocol seen from the controller *)

(** Strict request/response: a command is sent only when the previous
    one has been answered.  [pending] tells whether a command is waiting
    for its answer. *)
Fixpoint answered_before_next (pending : bool) (tr : list event) : bool :=
  match tr with
  | [] => true
  | EvSend _ (FCmd _) :: tr' => negb pending && answered_before_next true tr'
  | EvSend _ _ :: tr' => answered_before_next pending tr'
  | EvRecv _ _ :: tr' => answered_before_next false tr'
  end.

(** One exchange with the worker of record [c]: a read request and its
    reply, or a write request, which has no reply. *)
Inductive exchange (c : disk_controller_t) : list event → Prop :=
| exchange_read n data :
    exchange c [EvSend (to_disk c).2 (FCmd CMD_READ);
                EvSend (to_disk c).2 (FInt n);
                EvRecv (from_disk c).1 (FBlock data)]
| exchange_write n data :
    exchange c [EvSend (to_disk c).2 (FCmd CMD_WRITE);
                EvSend (to_disk c).2 (FInt n);
                EvSend (to_disk c).2 (FBlock data)].

(** A sequence of exchanges with workers of the table [cs]. *)
Inductive exchanges (cs : list disk_controller_t) : list event → Prop :=
| exchanges_nil : exchanges cs []
| exchanges_app c ev evs :
    c ∈ cs → exchange c ev → exchanges cs evs → exchanges cs (ev ++ evs).

(** ** The scenario of three data disks *)

Definition AAAA : list byte := String.list_byte_of_string "AAAA".
Definition BBBB : list byte := String.list_byte_of_string "BBBB".
Definition CCCC : list byte := String.list_byte_of_string "CCCC".
Definition zeros4 : list byte := [x00; x00; x00; x00].
Definition ones4 : list byte := [xff; xff; xff; xff].

(** The array after [init_all_controllers(4)] in a fresh controller. *)
Definition fresh_array : world :=
  after (init_all_controllers (cfg := cfg344) 4) (boot 64 16).

(** ** Further observations *)

Section MoreObservations.
Context {cfg : raid_config}.

(** No two slots name the same worker. *)
Definition workers_distinct (w : world) : Prop :=
  ∀ s s', 0 <= s <= num_disks → 0 <= s' <= num_disks → s ≠ s' →
          pid_of w s ≠ pid_of w s'.

(** Every slot is in service, each with a worker of its own. *)
Definition array_in_service (w : world) : Prop :=
  array_ready w ∧ workers_distinct w.

(** [acc] XORed with block 0 of the disks of [slots], [disk_num] left
    out: what the first loop of the parity update in [write_block]
    computes when every read succeeds. *)
Definition xor_blocks_from (w : world) (disk_num : Z) (acc : list byte)
    (slots : list Z) : option (list byte) :=
  foldl (λ acc s, if s =? disk_num then acc
                  else a ← acc; b ← block_of w s 0; Some (xor_block a b))
        (Some acc) slots.

(** The XOR of block 0 of the data disks other than [disk_num]. *)
Definition parity_of_others (w : world) (disk_num : Z)
    : option (list byte) :=
  xor_blocks_from w disk_num (replicate (Z.to_nat block_size) x00)
                  (seqZ 0 num_disks).

(** The read end of pipe [p] is open in child [k] at most: not in the
    controller and in no other live child. *)
Definition only_reader (w : world) (p k : nat) : Prop :=
  holds (ctl_fds w) (Pipe p RdEnd) = false
  ∧ ∀ j pr, procs w !! j = Some pr → j ≠ k → alive pr = true →
            holds (p_fds pr) (Pipe p RdEnd) = false.

(** The pipe to the worker of slot [s] is read by that worker only. *)
Definition slot_private (w : world) (s : Z) : Prop :=
  ∃ cs c p k,
    controllers w = TLive cs ∧ 0 <= s ∧ cs !! Z.to_nat s = Some c
    ∧ ctl_fds w !! (to_disk c).2 = Some (Pipe p WrEnd)
    ∧ proc_of_pid (pid c) = Some k
    ∧ only_reader w p k.

(** Slot [s] is out of service: nobody reads the pipe the controller
    writes its commands for the slot to. *)
Definition slot_dead (w : world) (s : Z) : Prop :=
  ∃ cs c p,
    controllers w = TLive cs ∧ 0 <= s ∧ cs !! Z.to_nat s = Some c
    ∧ ctl_fds w !! (to_disk c).2 = Some (Pipe p WrEnd)
    ∧ pipe_open w p RdEnd = false.

(** Child [k] was started as the worker of slot [s] and has not been
    waited for. *)
Definition slot_worker (w : world) (s : Z) (k : nat) : Prop :=
  ∃ pr, procs w !! k = Some pr ∧ p_id pr = s ∧ p_reaped pr = false.

(** The workers of the slots in service are the children that were
    started for them. *)
Definition workers_started (w : world) : Prop :=
  ∀ s k d, 0 <= s <= num_disks → slot_serving w s k d → slot_worker w s k.


(** The child recorded in [controllers[s]] has ended. *)
Definition slot_worker_ended (w : world) (s : Z) : Prop :=
  ∃ cs c k pr,
    controllers w = TLive cs ∧ 0 <= s ∧ cs !! Z.to_nat s = Some c
    ∧ proc_of_pid (pid c) = Some k
    ∧ procs w !! k = Some pr
    ∧ alive pr = false.

(** No descriptor, of the controller or of a child, refers to a pipe
    that has not been created. *)
Definition pipes_exist (w : world) : Prop :=
  (∀ fd p e, ctl_fds w !! fd = Some (Pipe p e) → (p < length (pipes w))%nat)
  ∧ (∀ pr fd p e, pr ∈ procs w → p_fds pr !! fd = Some (Pipe p e) →
                  (p < length (pipes w))%nat).

(** The slots below [i] have been started, one child per slot in the
    order of the slots, and nothing else has: each of them is in service
    with a zeroed disk, its worker is the child started for it, and its
    command pipe is read by that worker only. *)
Definition started (w : world) (i : Z) : Prop :=
  length (procs w) = Z.to_nat i
  ∧ pipes_exist w
  ∧ ∀ s, 0 <= s < i →
         slot_serving w s (Z.to_nat s) fresh_disk
         ∧ slot_worker w s (Z.to_nat s)
         ∧ slot_private w s.


(** *** A client of the array *)






End MoreObservations.

(** The array of the scenario after disk 1 has failed. *)
Definition failed_array : world :=
  after (simulate_disk_failure 1) fresh_array.

(** The fresh array with [CMD_EXIT] in the pipe of disk 0 and room for
    10 bytes in the directory. *)
Definition short_of_space : world :=
  set_fs {| fs_files := ∅; fs_readonly := false; fs_free := 10 |}
         (push 0 [FCmd CMD_EXIT] fresh_array).

(** * Properties *)

#[local] Arguments checkpoint_disk : simpl never.
#[local] Arguments disk_name : simpl never.
#[local] Arguments deliver : simpl never.
#[local] Arguments child_checkpoint_and_wait : simpl never.
#[local] Arguments disk_turn : simpl never.
#[local] Arguments run_disk : simpl never.
#[local] Arguments wake : simpl never.
#[local] Arguments sys_write : simpl never.
#[local] Arguments sys_read : simpl never.
#[local] Arguments sys_pipe : simpl never.
#[local] Arguments sys_fork : simpl never.
#[local] Arguments sys_wait : simpl never.
#[local] Arguments get_controller : simpl never.
#[local] Arguments put_controller : simpl never.
#[local] Arguments read_block_from_disk : simpl never.
#[local] Arguments write_block_to_disk : simpl never.
#[local] Arguments update_parity : simpl never.
#[local] Arguments init_disk : simpl never.

(** Projections of updated worlds. *)
Ltac wsimpl :=
  cbn [fs procs pipes ctl_fds controllers trace fd_limit forks_left
       set_procs set_fs set_pipes set_ctl_fds set_controllers log
       set_forks_left push conclude dr_end dr_fs dr_rest dr_replies] in *.

(** ** The disk worker *)

Section Worker.
Context {cfg : raid_config}.

Lemma command_loop_unknown id eof can_reply tag rest d st fs0 :
  command_loop id eof can_reply (FCmd (CMD_OTHER tag) :: rest) d st fs0
  = command_loop id eof can_reply rest d 1 fs0.
Proof. reflexivity. Qed.

Lemma starved_fs eof inq d st fs0 : dr_fs (starved eof inq d st fs0) = fs0.
Proof. unfold starved. by destruct eof. Qed.

(** Only [CMD_EXIT] touches the directory; by induction on a bound of
    the number of fields, since one command takes up to three. *)
Lemma command_loop_fs_bounded n :
  ∀ id eof can_reply inq d st fs0,
    (length inq < n)%nat →
    dr_end (command_loop id eof can_reply inq d st fs0) ≠ CmdExit →
    dr_fs (command_loop id eof can_reply inq d st fs0) = fs0.
Proof.
  induction n as [|n IH]; intros id eof can_reply inq d st fs0 Hlen; [lia|].
  destruct inq as [|[cmd|?|?] rest]; simpl; try done;
    try (intros; apply starved_fs).
  destruct cmd; simpl in *.
  - destruct rest as [|[?|block_num|?] rest']; simpl in *; try done;
      try (intros; apply starved_fs).
    destruct (in_disk d block_num); [|done].
    destruct can_reply; simpl; intros; apply IH; simpl; try lia; done.
  - destruct rest as [|[?|block_num|?] rest']; simpl in *; try done;
      try (intros; apply starved_fs).
    destruct rest' as [|[?|?|block_data] rest'']; simpl in *; try done;
      try (intros; apply starved_fs).
    destruct (_ && _); [|done].
    intros; apply IH; simpl; try lia; done.
  - done.
  - intros; apply IH; simpl; try lia; done.
Qed.

Lemma command_loop_fs id eof can_reply inq d st fs0 :
  dr_end (command_loop id eof can_reply inq d st fs0) ≠ CmdExit →
  dr_fs (command_loop id eof can_reply inq d st fs0) = fs0.
Proof. apply (command_loop_fs_bounded (S (length inq))). lia. Qed.

Lemma start_disk_fs id fd_ok eof can_reply inq d st fs0 :
  dr_end (start_disk id fd_ok eof can_reply inq d st fs0) ≠ CmdExit →
  dr_fs (start_disk id fd_ok eof can_reply inq d st fs0) = fs0.
Proof. unfold start_disk. destruct fd_ok; [apply command_loop_fs | done]. Qed.

Lemma disk_turn_fs pr d st w :
  dr_end (disk_turn pr d st w) ≠ CmdExit → dr_fs (disk_turn pr d st w) = fs w.
Proof. apply start_disk_fs. Qed.

Lemma checkpoint_disk_full d id fs0 :
  Z.of_nat (length d) = disk_size →
  Z.of_nat (String.length (disk_name id)) < MAX_NAME →
  fs_readonly fs0 = false →
  disk_size <= fs_free fs0 →
  (checkpoint_disk (Some d) id fs0).1 = 0
  ∧ fs_files (checkpoint_disk (Some d) id fs0).2
    = <[disk_name id := d]> (fs_files fs0).
Proof.
  intros Hlen Hname Hro Hfree. unfold checkpoint_disk.
  destruct (Z.geb_spec (Z.of_nat (String.length (disk_name id))) MAX_NAME);
    [lia|].
  rewrite Hro.
  replace (Z.max 0 (Z.min disk_size (fs_free fs0))) with disk_size by lia.
  rewrite Z.eqb_refl. simpl. split; [done|].
  rewrite <- Hlen, Nat2Z.id, firstn_all. done.
Qed.

Lemma fs_child_send_exit pr w c : fs (child_send_exit pr w c) = fs w.
Proof. unfold child_send_exit. repeat case_match; done. Qed.

Lemma procs_child_send_exit pr w c : procs (child_send_exit pr w c) = procs w.
Proof. unfold child_send_exit. repeat case_match; done. Qed.

Lemma fs_child_checkpoint_and_wait pr w :
  fs (child_checkpoint_and_wait pr w) = fs w.
Proof.
  unfold child_checkpoint_and_wait.
  generalize (take (Z.to_nat (num_disks + 1)) (p_controllers pr)).
  intros l. revert w. induction l as [|c l IH]; intros w; simpl; [done|].
  rewrite IH. apply fs_child_send_exit.
Qed.

Lemma procs_child_checkpoint_and_wait pr w :
  procs (child_checkpoint_and_wait pr w) = procs w.
Proof.
  unfold child_checkpoint_and_wait.
  generalize (take (Z.to_nat (num_disks + 1)) (p_controllers pr)).
  intros l. revert w. induction l as [|c l IH]; intros w; simpl; [done|].
  rewrite IH. apply procs_child_send_exit.
Qed.

Lemma fs_deliver pr r w : fs (deliver pr r w) = dr_fs r.
Proof. done. Qed.

Lemma procs_deliver pr r w : procs (deliver pr r w) = procs w.
Proof. unfold deliver. repeat case_match; done. Qed.

Lemma fs_conclude k pr e w : fs (conclude k pr e w) = fs w.
Proof. destruct e; simpl; try done. apply fs_child_checkpoint_and_wait. Qed.

(** C9.  A worker whose next command is [CMD_EXIT] writes its whole
    array, [disk_size] bytes, to the file named after its slot and ends
    with [exit(0)], given that the name fits [MAX_NAME] and the
    directory takes the file.  No other way through the command loop
    writes a file: a run of the loop that does not end in [CMD_EXIT]
    leaves the directory as it was, and a turn of a worker that changes
    the directory ends with [exit(0)]. *)
Theorem exit_writes_checkpoint (k : nat) (w : world) (id : Z) (p : nat)
    (d : list byte) (st : Z) (rest : list field) :
  p_id <$> procs w !! k = Some id →
  p_state <$> procs w !! k = Some (Running d st) →
  procs w !! k ≫= inbound = Some p →
  pipes w !! p = Some (FCmd CMD_EXIT :: rest) →
  Z.of_nat (length d) = disk_size →
  Z.of_nat (String.length (disk_name id)) < MAX_NAME →
  fs_readonly (fs w) = false →
  disk_size <= fs_free (fs w) →
  (fs_files (fs (run_disk k w)) = <[disk_name id := d]> (fs_files (fs w))
   ∧ p_state <$> procs (run_disk k w) !! k = Some (Exited 0))
  ∧ (∀ id' eof can_reply inq d0 st0 fs0,
       dr_end (command_loop id' eof can_reply inq d0 st0 fs0) ≠ CmdExit →
       dr_fs (command_loop id' eof can_reply inq d0 st0 fs0) = fs0)
  ∧ (∀ k' w0, fs (run_disk k' w0) ≠ fs w0 →
       p_state <$> procs (run_disk k' w0) !! k' = Some (Exited 0)).
Proof.
  intros Hid Hst Hin Hq Hlen Hname Hro Hfree. split; [|split].
  - destruct (procs w !! k) as [pr|] eqn:Hk; [|done].
    simpl in Hid, Hst, Hin.
    injection Hid as Hid. injection Hst as Hst.
    unfold run_disk. rewrite Hk, Hst.
    assert (Hturn : disk_turn pr d st w
                    = DiskRun CmdExit rest []
                        (checkpoint_disk (Some d) id (fs w)).2).
    { unfold disk_turn. rewrite Hin, Hid. simpl. rewrite Hq. done. }
    rewrite Hturn. wsimpl.
    rewrite fs_deliver, procs_deliver, list_lookup_alter_eq, Hk. wsimpl.
    split; [|done]. by apply checkpoint_disk_full.
  - intros. by apply command_loop_fs.
  - intros k' w0. unfold run_disk.
    destruct (procs w0 !! k') as [pr0|] eqn:Hk0; [|done].
    destruct (p_state pr0) as [d0 st0| | |] eqn:Hst0; try done.
    rewrite fs_conclude, fs_deliver. intros Hfs.
    destruct (dr_end (disk_turn pr0 d0 st0 w0)) eqn:Hend;
      try (exfalso; apply Hfs, disk_turn_fs; by rewrite Hend).
    wsimpl. by rewrite procs_deliver, list_lookup_alter_eq, Hk0.
Qed.

End Worker.

(** The fresh array with [CMD_EXIT] in the pipe of disk 0. *)
Lemma exit_writes_checkpoint_witness :
  fs_files (fs (run_disk (cfg := cfg344) 0 (push 0 [FCmd CMD_EXIT] fresh_array)))
    = <[disk_name 0 := replicate 16 x00]>
        (fs_files (fs (push 0 [FCmd CMD_EXIT] fresh_array)))
  ∧ p_state <$> procs (run_disk (cfg := cfg344) 0
                         (push 0 [FCmd CMD_EXIT] fresh_array)) !! 0%nat
    = Some (Exited 0).
Proof.
  refine (proj1 (exit_writes_checkpoint (cfg := cfg344) 0
                   (push 0 [FCmd CMD_EXIT] fresh_array) 0 0%nat
                   (replicate 16 x00) 0 [] _ _ _ _ _ _ _ _));
    vm_compute; done.
Defined.

(** ** Addresses *)

Section Address.
Context {cfg : raid_config}.

(** C4.  With a block size other than 0 (the check divides by it), a
    block number below 0 or not below [disk_size / block_size] makes
    [write_block] return -1 and [read_block] return [NULL] at once: the
    world, with every pipe, every worker's memory and the record of
    transfers, is the one before the call. *)
Theorem invalid_block_rejected (block_num : Z) (data buf : option (list byte))
    (w : world) :
  block_size ≠ 0 →
  block_num < 0 ∨ block_num >= Z.quot disk_size block_size →
  write_block block_num data w = Ret (-1) w
  ∧ read_block block_num buf w = Ret None w.
Proof.
  intros _ Hbad.
  assert (Hinv : invalid_block block_num = true).
  { unfold invalid_block. apply orb_true_iff.
    destruct Hbad; [left; lia | right; lia]. }
  unfold write_block, read_block. rewrite Hinv.
  by destruct data, buf.
Qed.

(** C10.  For a valid block number the target [block_num % num_disks]
    is a data disk, [parity_flag] is 0, and [write_block] is the write
    to that disk followed, when it succeeded, by the parity update. *)
Theorem parity_branch_unreachable (block_num : Z) (buf : list byte)
    (w : world) :
  0 < num_disks →
  invalid_block block_num = false →
  0 <= Z.rem block_num num_disks < num_disks
  ∧ write_block_parity_flag block_num = 0
  ∧ write_block block_num (Some buf) w =
      (rc ← write_block_to_disk block_num (Some buf) 0;
       if negb (rc =? 0) then mret (-1)
       else update_parity (Z.rem block_num num_disks)
                          (Z.quot block_num num_disks) buf) w.
Proof.
  intros HD Hval.
  assert (Hnn : 0 <= block_num).
  { unfold invalid_block in Hval. apply orb_false_iff in Hval. lia. }
  assert (Hrem : 0 <= Z.rem block_num num_disks < num_disks).
  { apply Z.rem_bound_pos; lia. }
  assert (Hflag : write_block_parity_flag block_num = 0).
  { unfold write_block_parity_flag.
    destruct (Z.eqb_spec (Z.rem block_num num_disks) num_disks); [lia | done]. }
  repeat split; try lia; try done.
  unfold write_block. rewrite Hval, Hflag. reflexivity.
Qed.

End Address.

Lemma invalid_block_rejected_witness :
  write_block (cfg := cfg344) 4 (Some AAAA) fresh_array
    = Ret (-1) fresh_array
  ∧ read_block (cfg := cfg344) 4 (Some zeros4) fresh_array
    = Ret None fresh_array.
Proof.
  apply (invalid_block_rejected (cfg := cfg344)).
  - discriminate.
  - right. vm_compute. discriminate.
Defined.

Lemma parity_branch_unreachable_witness :
  0 <= Z.rem 3 3 < 3
  ∧ write_block_parity_flag (cfg := cfg344) 3 = 0
  ∧ write_block (cfg := cfg344) 3 (Some AAAA) fresh_array =
      (rc ← write_block_to_disk (cfg := cfg344) 3 (Some AAAA) 0;
       if negb (rc =? 0) then mret (-1)
       else update_parity (cfg := cfg344) (Z.rem 3 3) (Z.quot 3 3) AAAA)
        fresh_array.
Proof.
  apply (parity_branch_unreachable (cfg := cfg344) 3 AAAA fresh_array).
  - reflexivity.
  - reflexivity.
Defined.

(** ** The scenario of three data disks *)

(** The fresh array: four workers with zeroed disks; slot 0 is written
    through descriptor 4 and read through descriptor 5. *)
Lemma fresh_array_ok :
  init_all_controllers (cfg := cfg344) 4 (boot 64 16) = Ret 0 fresh_array
  ∧ disk_of fresh_array <$> [0; 1; 2; 3]
    = [Some (replicate 16 x00); Some (replicate 16 x00);
       Some (replicate 16 x00); Some (replicate 16 x00)]
  ∧ controllers fresh_array
    = TLive [{| pid := 1; to_disk := (3, 4); from_disk := (5, 6) |};
             {| pid := 2; to_disk := (3, 6); from_disk := (7, 8) |};
             {| pid := 3; to_disk := (3, 8); from_disk := (9, 10) |};
             {| pid := 4; to_disk := (3, 10); from_disk := (11, 12) |}].
Proof. vm_compute. done. Qed.

(** C2.  With 3 data disks, blocks of 4 bytes and 16 bytes per disk,
    [init_all_controllers(4)] gives an array of zeroed disks; on it the
    writes of "AAAA", "BBBB", "CCCC" to blocks 0, 1, 2 return 0; then
    block 0 of the parity disk is the XOR of the three payloads, and
    [read_block(1)] returns "BBBB". *)
Theorem scenario_three_writes :
  let w1 := after (write_block (cfg := cfg344) 0 (Some AAAA)) fresh_array in
  let w2 := after (write_block (cfg := cfg344) 1 (Some BBBB)) w1 in
  let w3 := after (write_block (cfg := cfg344) 2 (Some CCCC)) w2 in
  init_all_controllers (cfg := cfg344) 4 (boot 64 16) = Ret 0 fresh_array
  ∧ disk_of fresh_array <$> [0; 1; 2; 3]
    = replicate 4 (Some (replicate 16 x00))
  ∧ returned (write_block (cfg := cfg344) 0 (Some AAAA)) fresh_array = Some 0
  ∧ returned (write_block (cfg := cfg344) 1 (Some BBBB)) w1 = Some 0
  ∧ returned (write_block (cfg := cfg344) 2 (Some CCCC)) w2 = Some 0
  ∧ block_of (cfg := cfg344) w3 3 0
    = Some (xor_block (xor_block AAAA BBBB) CCCC)
  ∧ returned (read_block (cfg := cfg344) 1 (Some zeros4)) w3
    = Some (Some BBBB).
Proof. vm_compute. done. Qed.

(** C1, at block 3 of the same array, the first block of stripe 1.  The
    write returns 0.  The parity update read block 0 of disks 1 and 2,
    not block 1, and stored the parity at block [1 / 3 = 0] of the
    parity disk, not at block 1: parity block 1 is still zero while the
    data blocks of stripe 1 XOR to "AAAA", and parity block 0 is "AAAA"
    while the data blocks of stripe 0 are zero. *)
Theorem parity_lost_beyond_stripe_0 :
  let w1 := after (write_block (cfg := cfg344) 3 (Some AAAA)) fresh_array in
  invalid_block (cfg := cfg344) 3 = false
  ∧ write_block (cfg := cfg344) 3 (Some AAAA) fresh_array = Ret 0 w1
  ∧ block_of (cfg := cfg344) w1 3 1 = Some zeros4
  ∧ stripe_xor (cfg := cfg344) w1 1 = Some AAAA
  ∧ block_of (cfg := cfg344) w1 3 0 = Some AAAA
  ∧ stripe_xor (cfg := cfg344) w1 0 = Some zeros4
  ∧ ¬ parity_holds (cfg := cfg344) w1 1
  ∧ ¬ parity_holds (cfg := cfg344) w1 0.
Proof.
  vm_compute.
  repeat split; try reflexivity; intros [_ H]; discriminate H.
Qed.

(** C5, on the worker of disk 0 in the fresh array.  A tag outside the
    enumeration arrives; the worker sets [status] to 1 and stays in its
    loop: it answers the read that follows, and the [CMD_EXIT] after
    that ends it with [exit(0)] and a checkpoint. *)
Theorem unknown_command_keeps_serving :
  let w1 := after (sys_write (cfg := cfg344) 4 (FCmd (CMD_OTHER 99)))
                  fresh_array in
  let w2 := after (read_block (cfg := cfg344) 0 (Some ones4)) w1 in
  let w3 := after (sys_write (cfg := cfg344) 4 (FCmd CMD_EXIT)) w2 in
  returned (sys_write (cfg := cfg344) 4 (FCmd (CMD_OTHER 99))) fresh_array
    = Some true
  ∧ p_state <$> procs w1 !! 0%nat = Some (Running (replicate 16 x00) 1)
  ∧ returned (read_block (cfg := cfg344) 0 (Some ones4)) w1
    = Some (Some zeros4)
  ∧ returned (sys_write (cfg := cfg344) 4 (FCmd CMD_EXIT)) w2 = Some true
  ∧ p_state <$> procs w3 !! 0%nat = Some (Exited 0)
  ∧ fs_files (fs w3) !! disk_name 0 = Some (replicate 16 x00).
Proof. vm_compute. done. Qed.

(** C6, on the fresh array after disk 1 was killed.  [restart_disk(1)]
    returns 0 and records the new pipes, descriptors (3, 12) and
    (13, 14).  The new worker was started with [from_parent = 3] and
    [to_parent = 14], and it has closed both: its loop closed all four
    descriptors of its own slot.  Its first [read()] failed and it ended
    with [exit(1)]; a write to slot 1 fails. *)
Theorem restarted_worker_closed_its_ends :
  let w1 := after (simulate_disk_failure 1) fresh_array in
  let w2 := after (restart_disk (cfg := cfg344) 1) w1 in
  returned (restart_disk (cfg := cfg344) 1) w1 = Some 0
  ∧ pid_of w2 1 = Some 5
  ∧ (match controllers w2 with
     | TLive cs => cs !! 1%nat
     | _ => None
     end) = Some {| pid := 5; to_disk := (3, 12); from_disk := (13, 14) |}
  ∧ p_from_parent <$> procs w2 !! 4%nat = Some 3
  ∧ p_to_parent <$> procs w2 !! 4%nat = Some 14
  ∧ (pr ← procs w2 !! 4%nat; p_fds pr !! 3) = None
  ∧ (pr ← procs w2 !! 4%nat; p_fds pr !! 14) = None
  ∧ p_state <$> procs w2 !! 4%nat = Some (Exited 1)
  ∧ returned (write_block (cfg := cfg344) 1 (Some AAAA)) w2 = Some (-1).
Proof. vm_compute. done. Qed.

(** ** What a worker's turn leaves alone *)

Section Frame.
Context {cfg : raid_config}.

(** An observation of the world that neither the pipes, nor the
    directory, nor the children enter is the same after a turn. *)
Lemma child_checkpoint_and_wait_keeps {A} (f : world → A) :
  (∀ g w, f (set_pipes g w) = f w) →
  ∀ pr w, f (child_checkpoint_and_wait pr w) = f w.
Proof.
  intros Hp pr. unfold child_checkpoint_and_wait.
  generalize (take (Z.to_nat (num_disks + 1)) (p_controllers pr)).
  intros l. induction l as [|c l IH]; intros w; simpl; [done|].
  rewrite IH. unfold child_send_exit, push.
  repeat case_match; try done; apply Hp.
Qed.

Lemma run_disk_keeps {A} (f : world → A) :
  (∀ g w, f (set_pipes g w) = f w) →
  (∀ x w, f (set_fs x w) = f w) →
  (∀ g w, f (set_procs g w) = f w) →
  ∀ k w, f (run_disk k w) = f w.
Proof.
  intros Hp Hf Hs k w. unfold run_disk.
  destruct (procs w !! k) as [pr|]; [|done].
  destruct (p_state pr); try done.
  assert (Hd : ∀ r, f (deliver pr r w) = f w).
  { intros r. unfold deliver, push. rewrite Hf.
    repeat case_match; rewrite ?Hp; done. }
  destruct (dr_end _); wsimpl; rewrite Hs;
    rewrite ?(child_checkpoint_and_wait_keeps f Hp); apply Hd.
Qed.

Lemma wake_keeps {A} (f : world → A) :
  (∀ g w, f (set_pipes g w) = f w) →
  (∀ x w, f (set_fs x w) = f w) →
  (∀ g w, f (set_procs g w) = f w) →
  ∀ p w, f (wake p w) = f w.
Proof.
  intros Hp Hf Hs p w. unfold wake.
  destruct (find_reader p (procs w)); [by apply run_disk_keeps | done].
Qed.

Lemma trace_wake p w : trace (wake p w) = trace w.
Proof. by apply wake_keeps. Qed.

Lemma controllers_wake p w : controllers (wake p w) = controllers w.
Proof. by apply wake_keeps. Qed.

Lemma ctl_fds_wake p w : ctl_fds (wake p w) = ctl_fds w.
Proof. by apply wake_keeps. Qed.

(** *** The controller's system calls, seen from their result *)

Lemma bind_ret_inv {A B} (m : M A) (f : A → M B) w b w2 :
  (m ≫= f) w = Ret b w2 → ∃ a w1, m w = Ret a w1 ∧ f a w1 = Ret b w2.
Proof.
  unfold mbind, M_bind. destruct (m w) as [a w1| | |]; try done. eauto.
Qed.

Lemma get_controller_inv num w c w' :
  get_controller num w = Ret c w' →
  w' = w ∧ ∃ cs, controllers w = TLive cs ∧ c ∈ cs.
Proof.
  unfold get_controller. destruct (controllers w) as [|cs|]; try done.
  destruct (if 0 <=? num then _ else _) as [c'|] eqn:Hc; [|done].
  intros [= -> ->]. split; [done|]. exists cs. split; [done|].
  destruct (0 <=? num); [|done]. by eapply list_elem_of_lookup_2.
Qed.

Lemma sys_write_inv fd f w ok w' :
  sys_write fd f w = Ret ok w' →
  controllers w' = controllers w
  ∧ ctl_fds w' = ctl_fds w
  ∧ trace w' = trace w ++ (if ok then [EvSend fd f] else []).
Proof.
  unfold sys_write. intros H.
  repeat case_match; simplify_eq;
    rewrite ?controllers_wake, ?ctl_fds_wake, ?trace_wake, ?app_nil_r; done.
Qed.

Lemma sys_read_inv fd w r w' :
  sys_read fd w = Ret r w' →
  controllers w' = controllers w
  ∧ ctl_fds w' = ctl_fds w
  ∧ trace w' = trace w
               ++ match r with
                  | Some data => [EvRecv fd (FBlock data)]
                  | None => []
                  end.
Proof.
  unfold sys_read. intros H.
  repeat case_match; simplify_eq; rewrite ?app_nil_r; done.
Qed.

End Frame.

(** ** The protocol *)

Section Protocol.
Context {cfg : raid_config}.

Lemma exchanges_one cs c ev : c ∈ cs → exchange c ev → exchanges cs ev.
Proof.
  intros Hc Hev. rewrite <- (app_nil_r ev).
  by apply exchanges_app with c; [| |constructor].
Qed.

Lemma exchanges_concat cs evs1 evs2 :
  exchanges cs evs1 → exchanges cs evs2 → exchanges cs (evs1 ++ evs2).
Proof.
  induction 1 as [|c ev evs Hc Hev _ IH]; intros H2; [done|].
  rewrite <- app_assoc. apply exchanges_app with c; auto.
Qed.

(** A successful [write_block_to_disk] is three sends to one worker. *)
Lemma write_block_to_disk_exchange block_num data flag w w' :
  write_block_to_disk block_num data flag w = Ret 0 w' →
  ∃ cs c ev, controllers w = TLive cs ∧ controllers w' = TLive cs
             ∧ c ∈ cs ∧ exchange c ev ∧ trace w' = trace w ++ ev.
Proof.
  unfold write_block_to_disk. destruct data as [buf|]; [|done]. intros H.
  apply bind_ret_inv in H as (c & w0 & Hc & H).
  apply get_controller_inv in Hc as (-> & cs & Hcs & Hin).
  apply bind_ret_inv in H as ([|] & w1 & H1 & H); [|done].
  apply bind_ret_inv in H as ([|] & w2 & H2 & H); [|done].
  apply bind_ret_inv in H as ([|] & w3 & H3 & H); [|done].
  injection H as <-.
  apply sys_write_inv in H1 as (Hc1 & _ & Ht1).
  apply sys_write_inv in H2 as (Hc2 & _ & Ht2).
  apply sys_write_inv in H3 as (Hc3 & _ & Ht3).
  exists cs, c. eexists. split; [done|]. split; [congruence|].
  split; [done|]. split; [apply exchange_write|].
  rewrite Ht3, Ht2, Ht1, <- !app_assoc. reflexivity.
Qed.

(** A successful [read_block_from_disk] is two sends to one worker and
    the receipt of its reply. *)
Lemma read_block_from_disk_exchange block_num data flag w r w' :
  read_block_from_disk block_num data flag w = Ret (0, r) w' →
  ∃ cs c ev, controllers w = TLive cs ∧ controllers w' = TLive cs
             ∧ c ∈ cs ∧ exchange c ev ∧ trace w' = trace w ++ ev.
Proof.
  unfold read_block_from_disk. destruct data as [buf|]; [|done]. intros H.
  apply bind_ret_inv in H as (c & w0 & Hc & H).
  apply get_controller_inv in Hc as (-> & cs & Hcs & Hin).
  apply bind_ret_inv in H as ([|] & w1 & H1 & H); [|done].
  apply bind_ret_inv in H as ([|] & w2 & H2 & H); [|done].
  apply bind_ret_inv in H as ([bytes|] & w3 & H3 & H); [|done].
  injection H as <- <-.
  apply sys_write_inv in H1 as (Hc1 & _ & Ht1).
  apply sys_write_inv in H2 as (Hc2 & _ & Ht2).
  apply sys_read_inv in H3 as (Hc3 & _ & Ht3).
  exists cs, c. eexists. split; [done|]. split; [congruence|].
  split; [done|]. split; [apply exchange_read|].
  rewrite Ht3, Ht2, Ht1, <- !app_assoc. reflexivity.
Qed.

Lemma xor_other_disks_exchanges n :
  ∀ i disk_num parity_data w r w' cs,
    xor_other_disks n i disk_num parity_data w = Ret (Some r) w' →
    controllers w = TLive cs →
    controllers w' = TLive cs
    ∧ ∃ evs, exchanges cs evs ∧ trace w' = trace w ++ evs.
Proof.
  induction n as [|n IH]; intros i disk_num parity_data w r w' cs H Hcs.
  - injection H as <- <-. split; [done|]. exists []. rewrite app_nil_r.
    split; [constructor | done].
  - simpl in H. destruct (negb (i =? disk_num)); [|by eapply IH].
    apply bind_ret_inv in H as ([rc temp] & w1 & Hr & H).
    destruct rc as [| |]; try done. destruct temp as [temp|]; [|done].
    apply read_block_from_disk_exchange in Hr
      as (cs' & c & ev & Hcs' & Hcs1 & Hin & Hev & Ht).
    assert (cs' = cs) as -> by congruence.
    destruct (IH _ _ _ _ _ _ cs H Hcs1) as (Hcs2 & evs & Hevs & Ht2).
    split; [done|]. exists (ev ++ evs). split.
    + by apply exchanges_app with c.
    + by rewrite Ht2, Ht, <- app_assoc.
Qed.

Lemma write_block_exchanges block_num data w w' :
  write_block block_num data w = Ret 0 w' →
  ∃ cs evs, controllers w = TLive cs ∧ exchanges cs evs
            ∧ trace w' = trace w ++ evs.
Proof.
  unfold write_block. destruct data as [buf|]; [|done].
  destruct (invalid_block block_num); [done|]. intros H.
  apply bind_ret_inv in H as (rc & w1 & Hw & H).
  destruct rc as [| |]; try done. simpl in H.
  apply write_block_to_disk_exchange in Hw
    as (cs & c & ev & Hcs & Hcs1 & Hin & Hev & Ht).
  exists cs. destruct (write_block_parity_flag block_num =? 0).
  - unfold update_parity in H.
    apply bind_ret_inv in H as (r & w2 & Hx & H).
    destruct r as [parity_data|]; [|done].
    apply bind_ret_inv in H as (rc & w3 & Hp & H).
    destruct rc as [| |]; try done. injection H as <-.
    destruct (xor_other_disks_exchanges _ _ _ _ _ _ _ cs Hx Hcs1)
      as (Hcs2 & evs & Hevs & Ht2).
    apply write_block_to_disk_exchange in Hp
      as (cs' & c' & ev' & Hcs' & Hcs3 & Hin' & Hev' & Ht3).
    assert (cs' = cs) as -> by congruence.
    exists (ev ++ evs ++ ev'). split; [done|]. split.
    + apply exchanges_app with c; [done..|].
      apply exchanges_concat; [done | by eapply exchanges_one].
    + by rewrite Ht3, Ht2, Ht, <- !app_assoc.
  - injection H as <-. exists ev. split; [done|].
    split; [by eapply exchanges_one | done].
Qed.

Lemma read_block_exchanges block_num data r w w' :
  read_block block_num data w = Ret (Some r) w' →
  ∃ cs evs, controllers w = TLive cs ∧ exchanges cs evs
            ∧ trace w' = trace w ++ evs.
Proof.
  unfold read_block. destruct data as [buf|]; [|done].
  destruct (invalid_block block_num); [done|]. intros H.
  apply bind_ret_inv in H as ([rc r'] & w1 & Hr & H).
  destruct rc as [| |]; try done.
  apply read_block_from_disk_exchange in Hr
    as (cs & c & ev & Hcs & Hcs1 & Hin & Hev & Ht).
  injection H as _ <-. exists cs, ev.
  split; [done|]. split; [by eapply exchanges_one | done].
Qed.

Lemma send_exit_trace n :
  ∀ i w w', send_exit n i w = Ret () w' →
    ∃ evs, trace w' = trace w ++ evs
           ∧ Forall (λ e, ∃ fd, e = EvSend fd (FCmd CMD_EXIT)) evs.
Proof.
  induction n as [|n IH]; intros i w w' H.
  - injection H as <-. exists []. by rewrite app_nil_r.
  - simpl in H.
    apply bind_ret_inv in H as (c & w0 & Hc & H).
    apply get_controller_inv in Hc as (-> & _).
    apply bind_ret_inv in H as (ok & w1 & H1 & H).
    apply sys_write_inv in H1 as (_ & _ & Ht1).
    apply IH in H as (evs & Ht & Hall).
    exists ((if ok then [EvSend (to_disk c).2 (FCmd CMD_EXIT)] else []) ++ evs).
    split; [by rewrite Ht, Ht1, <- app_assoc|].
    apply Forall_app. split; [|done].
    destruct ok; repeat constructor. by eexists.
Qed.

Lemma wait_children_trace n :
  ∀ w w', wait_children n w = Ret () w' → trace w' = trace w.
Proof.
  induction n as [|n IH]; intros w w' H.
  - by injection H as <-.
  - simpl in H. apply bind_ret_inv in H as (x & w1 & Hw & H).
    rewrite (IH _ _ H). unfold sys_wait in Hw.
    repeat case_match; by simplify_eq.
Qed.

(** C8, as the code has it.  Only a read is a request with a response.
    The transfers of a successful [write_block] or [read_block] are a
    sequence of exchanges with workers of the table: a read request (tag
    and block number) followed at once by the receipt of the block, or a
    write request (tag, block number and block), which gets no reply.
    [checkpoint_and_wait] sends nothing but [CMD_EXIT] tags and receives
    nothing. *)
Theorem only_reads_are_answered (w : world) :
  (∀ block_num data w',
     write_block block_num data w = Ret 0 w' →
     ∃ cs evs, controllers w = TLive cs ∧ exchanges cs evs
               ∧ trace w' = trace w ++ evs)
  ∧ (∀ block_num data r w',
       read_block block_num data w = Ret (Some r) w' →
       ∃ cs evs, controllers w = TLive cs ∧ exchanges cs evs
                 ∧ trace w' = trace w ++ evs)
  ∧ (∀ w',
       checkpoint_and_wait w = Ret () w' →
       ∃ evs, trace w' = trace w ++ evs
              ∧ Forall (λ e, ∃ fd, e = EvSend fd (FCmd CMD_EXIT)) evs).
Proof.
  split; [|split].
  - intros. by eapply write_block_exchanges.
  - intros. by eapply read_block_exchanges.
  - intros w' H. unfold checkpoint_and_wait in H.
    apply bind_ret_inv in H as ([] & w1 & Hs & Hw).
    apply send_exit_trace in Hs as (evs & Ht & Hall).
    apply wait_children_trace in Hw. exists evs. by rewrite Hw.
Qed.

End Protocol.

(** C8 as stated fails on the first write to the fresh array: the write
    command to disk 0 is followed by the read command to disk 1 with
    nothing received in between. *)
Lemma write_is_not_answered :
  let w1 := after (write_block (cfg := cfg344) 0 (Some AAAA)) fresh_array in
  returned (write_block (cfg := cfg344) 0 (Some AAAA)) fresh_array = Some 0
  ∧ take 4 (trace w1)
    = [EvSend 4 (FCmd CMD_WRITE); EvSend 4 (FInt 0); EvSend 4 (FBlock AAAA);
       EvSend 6 (FCmd CMD_READ)]
  ∧ answered_before_next false (trace w1) = false.
Proof. vm_compute. done. Qed.

Lemma only_reads_are_answered_witness :
  ∃ cs evs,
    controllers fresh_array = TLive cs ∧ exchanges cs evs
    ∧ trace (after (write_block (cfg := cfg344) 0 (Some AAAA)) fresh_array)
      = trace fresh_array ++ evs.
Proof.
  apply (proj1 (only_reads_are_answered (cfg := cfg344) fresh_array)
           0 (Some AAAA)).
  vm_compute. reflexivity.
Defined.

(** ** Spawning *)

Section Spawn.
Context {cfg : raid_config}.

Lemma holds_lookup (fds : gmap Z file_obj) fd o :
  fds !! fd = Some o → holds fds o = true.
Proof.
  intros H. unfold holds. apply bool_decide_eq_true. by exists fd, o.
Qed.

Lemma holds_mono (fds fds' : gmap Z file_obj) o :
  fds ⊆ fds' → holds fds o = true → holds fds' o = true.
Proof.
  unfold holds. rewrite !bool_decide_eq_true.
  intros Hsub (fd & x & Hfd & ->). exists fd, o. split; [|done].
  by eapply lookup_weaken.
Qed.

Lemma attached_mono w w' pr :
  ctl_fds w ⊆ ctl_fds w' → attached w pr = true → attached w' pr = true.
Proof.
  intros Hsub. unfold attached.
  destruct (alive pr); [|done]. simpl.
  destruct (inbound pr) as [p|]; [|done].
  destruct (outbound pr) as [q|]; [|done].
  rewrite !andb_true_iff. intros [? ?]. split; by eapply holds_mono.
Qed.

Lemma lowest_free_None (fds : gmap Z file_obj) n :
  ∀ fd0 fd, lowest_free fds n fd0 = Some fd → fds !! fd = None.
Proof.
  induction n as [|n IH]; intros fd0 fd; simpl; [done|].
  destruct (fds !! fd0) eqn:H0; [apply IH | by intros [= <-]].
Qed.

Lemma alloc_fd_None (fds : gmap Z file_obj) limit fd :
  alloc_fd fds limit = Some fd → fds !! fd = None.
Proof. apply lowest_free_None. Qed.

Lemma close_all_lookup_ne (l : list Z) :
  ∀ (fds : gmap Z file_obj) fd, fd ∉ l → close_all fds l !! fd = fds !! fd.
Proof.
  induction l as [|a l IH]; intros fds fd Hnot; [done|].
  apply not_elem_of_cons in Hnot as [Hne Hnot].
  unfold close_all in *. simpl. rewrite IH by done.
  by apply lookup_delete_ne.
Qed.

Lemma set_state_id pr st : p_state pr = st → set_state st pr = pr.
Proof. destruct pr. simpl. by intros ->. Qed.

(** [pipe()]: on success two descriptors that were free, for a new,
    empty pipe. *)
Lemma sys_pipe_inv w r w' :
  sys_pipe w = Ret r w' →
  procs w' = procs w ∧ controllers w' = controllers w
  ∧ forks_left w' = forks_left w
  ∧ match r with
    | None => w' = w
    | Some (rd, wr) =>
      ctl_fds w !! rd = None ∧ ctl_fds w !! wr = None ∧ rd ≠ wr
      ∧ ctl_fds w' = <[wr := Pipe (length (pipes w)) WrEnd]>
                       (<[rd := Pipe (length (pipes w)) RdEnd]> (ctl_fds w))
      ∧ pipes w' = pipes w ++ [[]]
    end.
Proof.
  unfold sys_pipe. intros H.
  destruct (alloc_fd (ctl_fds w) (fd_limit w)) as [rd|] eqn:Hrd;
    [|by simplify_eq].
  destruct (alloc_fd (<[rd:=_]> (ctl_fds w)) (fd_limit w)) as [wr|] eqn:Hwr;
    [|by simplify_eq].
  simplify_eq. wsimpl. repeat split; try done.
  - by eapply alloc_fd_None.
  - apply alloc_fd_None in Hwr. by apply lookup_insert_None in Hwr as [? _].
  - apply alloc_fd_None in Hwr. by apply lookup_insert_None in Hwr as [_ ?].
Qed.

Lemma put_controller_inv num c w u w' :
  put_controller num c w = Ret u w' →
  ∃ cs, controllers w = TLive cs
        ∧ w' = set_controllers (TLive (<[Z.to_nat num := c]> cs)) w.
Proof.
  unfold put_controller. destruct (controllers w) as [|cs|]; try done.
  destruct (_ && _); [|done]. intros [= <- <-]. by exists cs.
Qed.

Lemma get_controller_eq num w c w' :
  get_controller num w = Ret c w' →
  w' = w ∧ ∃ cs, controllers w = TLive cs ∧ 0 <= num
                 ∧ cs !! Z.to_nat num = Some c.
Proof.
  unfold get_controller. destruct (controllers w) as [|cs|]; try done.
  destruct (Z.leb_spec 0 num); [|done].
  destruct (cs !! Z.to_nat num) eqn:Hc; [|done].
  intros [= -> ->]. eauto.
Qed.

(** [pipe(controllers[num].to_disk)] *)
Lemma pipe_to_disk_inv num w rc w' :
  pipe_to_disk num w = Ret rc w' →
  (rc = -1 ∧ w' = w)
  ∨ (rc = 0 ∧ ∃ cs c rd wr,
       controllers w = TLive cs ∧ 0 <= num ∧ cs !! Z.to_nat num = Some c
       ∧ controllers w'
         = TLive (<[Z.to_nat num := with_to_disk (rd, wr) c]> cs)
       ∧ procs w' = procs w ∧ forks_left w' = forks_left w
       ∧ ctl_fds w !! rd = None ∧ ctl_fds w !! wr = None ∧ rd ≠ wr
       ∧ ctl_fds w' = <[wr := Pipe (length (pipes w)) WrEnd]>
                        (<[rd := Pipe (length (pipes w)) RdEnd]> (ctl_fds w))
       ∧ pipes w' = pipes w ++ [[]]).
Proof.
  unfold pipe_to_disk. intros H.
  apply bind_ret_inv in H as (c & w0 & Hc & H).
  apply get_controller_eq in Hc as (-> & cs & Hcs & Hnum & Hc).
  apply bind_ret_inv in H as (r & w1 & Hp & H).
  apply sys_pipe_inv in Hp as (Hprocs & Hctl & Hforks & Hr).
  destruct r as [[rd wr]|].
  - right. apply bind_ret_inv in H as (u & w2 & Hput & H).
    injection H as <- <-.
    apply put_controller_inv in Hput as (cs' & Hcs' & ->).
    assert (cs' = cs) as -> by congruence.
    split; [done|]. exists cs, c, rd, wr. wsimpl.
    destruct Hr as (? & ? & ? & ? & ?). repeat split; done.
  - left. injection H as <- <-. done.
Qed.

(** [pipe(controllers[num].from_disk)] *)
Lemma pipe_from_disk_inv num w rc w' :
  pipe_from_disk num w = Ret rc w' →
  (rc = -1 ∧ w' = w)
  ∨ (rc = 0 ∧ ∃ cs c rd wr,
       controllers w = TLive cs ∧ 0 <= num ∧ cs !! Z.to_nat num = Some c
       ∧ controllers w'
         = TLive (<[Z.to_nat num := with_from_disk (rd, wr) c]> cs)
       ∧ procs w' = procs w ∧ forks_left w' = forks_left w
       ∧ ctl_fds w !! rd = None ∧ ctl_fds w !! wr = None ∧ rd ≠ wr
       ∧ ctl_fds w' = <[wr := Pipe (length (pipes w)) WrEnd]>
                        (<[rd := Pipe (length (pipes w)) RdEnd]> (ctl_fds w))
       ∧ pipes w' = pipes w ++ [[]]).
Proof.
  unfold pipe_from_disk. intros H.
  apply bind_ret_inv in H as (c & w0 & Hc & H).
  apply get_controller_eq in Hc as (-> & cs & Hcs & Hnum & Hc).
  apply bind_ret_inv in H as (r & w1 & Hp & H).
  apply sys_pipe_inv in Hp as (Hprocs & Hctl & Hforks & Hr).
  destruct r as [[rd wr]|].
  - right. apply bind_ret_inv in H as (u & w2 & Hput & H).
    injection H as <- <-.
    apply put_controller_inv in Hput as (cs' & Hcs' & ->).
    assert (cs' = cs) as -> by congruence.
    split; [done|]. exists cs, c, rd, wr. wsimpl.
    destruct Hr as (? & ? & ? & ? & ?). repeat split; done.
  - left. injection H as <- <-. done.
Qed.

End Spawn.

Section SpawnDisk.
Context {cfg : raid_config}.

Lemma list_alter_same {A} (f : A → A) (l : list A) k x :
  l !! k = Some x → f x = x → alter f k l = l.
Proof.
  intros Hk Hf. apply list_eq. intros i. rewrite list_lookup_alter.
  case_decide; [|done]. subst. by rewrite Hk; simpl; rewrite Hf.
Qed.

(** A worker that finds its pipe empty, with the controller holding the
    write end, blocks: its turn changes nothing the controller sees. *)
Lemma run_disk_blocks k w pr d st p :
  procs w !! k = Some pr →
  p_state pr = Running d st →
  inbound pr = Some p →
  pipes w !! p = Some [] →
  holds (ctl_fds w) (Pipe p WrEnd) = true →
  procs (run_disk k w) = procs w
  ∧ ctl_fds (run_disk k w) = ctl_fds w
  ∧ controllers (run_disk k w) = controllers w.
Proof.
  intros Hk Hst Hin Hp Hw.
  split; [|split; by apply run_disk_keeps].
  unfold run_disk. rewrite Hk, Hst.
  assert (Hturn : disk_turn pr d st w
                  = DiskRun (Waiting d st) [] [] (fs w)).
  { unfold disk_turn, start_disk, pipe_open. rewrite Hin, Hw. simpl.
    rewrite Hp. done. }
  rewrite Hturn. wsimpl. rewrite procs_deliver.
  apply list_alter_same with pr; [done|]. by apply set_state_id.
Qed.

Lemma sys_fork_inv num cp w x w' :
  sys_fork num cp w = Ret x w' →
  (x = -1 ∧ w' = w)
  ∨ (0 < x ∧ ∃ n cs,
       forks_left w = S n ∧ controllers w = TLive cs
       ∧ w' = run_disk (length (procs w))
                (set_procs (λ ps, ps ++ [forked num cp (ctl_fds w) cs])
                           (set_forks_left n w))).
Proof.
  unfold sys_fork. destruct (forks_left w) as [|n] eqn:Hn.
  - intros [= <- <-]. by left.
  - destruct (controllers w) as [|cs|] eqn:Hcs; try done.
    intros [= <- <-]. right. split; [lia|]. by exists n, cs.
Qed.

(** What [init_disk] leaves behind, whatever it returns: no descriptor
    the controller had is gone, no child it had has changed, and a child
    it created is running and attached. *)
Lemma init_disk_inv num w rc w' :
  init_disk num w = Ret rc w' →
  ctl_fds w ⊆ ctl_fds w'
  ∧ (rc = 0 ∨ rc = -1)
  ∧ ∃ news, procs w' = procs w ++ news
            ∧ Forall (λ pr, attached w' pr = true) news.
Proof.
  unfold init_disk. intros H.
  apply bind_ret_inv in H as (rc1 & w1 & H1 & H).
  apply pipe_to_disk_inv in H1
    as [(-> & ->) | (-> & cs & c0 & rd & wr & Hcs & Hnum & Hc0 & Hcs1 & Hprocs1
                     & Hforks1 & Hrd & Hwr & Hne & Hfds1 & Hpipes1)].
  { (* the first pipe() failed *)
    injection H as <- <-. split; [done|]. split; [by right|].
    exists []. by rewrite app_nil_r. }
  simpl in H.
  assert (Hsub1 : ctl_fds w ⊆ ctl_fds w1).
  { rewrite Hfds1. etrans; [|apply insert_subseteq; by simplify_map_eq].
    by apply insert_subseteq. }
  apply bind_ret_inv in H as (rc2 & w2 & H2 & H).
  apply pipe_from_disk_inv in H2
    as [(-> & ->) | (-> & cs1 & c1 & rd2 & wr2 & Hcs1' & _ & Hc1 & Hcs2
                     & Hprocs2 & Hforks2 & Hrd2 & Hwr2 & Hne2 & Hfds2
                     & Hpipes2)].
  { (* the second pipe() failed *)
    injection H as <- <-. split; [done|]. split; [by right|].
    exists []. by rewrite app_nil_r. }
  simpl in H.
  assert (Hsub2 : ctl_fds w ⊆ ctl_fds w2).
  { etrans; [apply Hsub1|]. rewrite Hfds2.
    etrans; [|apply insert_subseteq; by simplify_map_eq].
    by apply insert_subseteq. }
  rewrite Hcs1 in Hcs1'. injection Hcs1' as <-.
  rewrite list_lookup_insert_eq in Hc1 by (by eapply lookup_lt_Some).
  injection Hc1 as <-.
  rewrite Hfds1 in Hrd2, Hwr2.
  apply lookup_insert_None in Hrd2 as [Hrd2 Hne_wr_rd2].
  apply lookup_insert_None in Hrd2 as [Hrd2 Hne_rd_rd2].
  apply lookup_insert_None in Hwr2 as [Hwr2 Hne_wr_wr2].
  apply lookup_insert_None in Hwr2 as [Hwr2 Hne_rd_wr2].
  apply bind_ret_inv in H as (c & w2' & Hc & H).
  apply get_controller_eq in Hc as (-> & cs2 & Hcs2' & _ & Hc).
  rewrite Hcs2 in Hcs2'. injection Hcs2' as <-.
  rewrite list_lookup_insert_eq in Hc
    by (rewrite length_insert; by eapply lookup_lt_Some).
  injection Hc as <-. cbn [to_disk from_disk with_from_disk with_to_disk] in H.
  apply bind_ret_inv in H as (x & w3 & Hfork & H).
  apply bind_ret_inv in H as (u & w4 & Hput & H).
  apply put_controller_inv in Hput as (cs3 & Hcs3 & ->).
  apply sys_fork_inv in Hfork as [(-> & ->) | (Hx & n & cs2 & Hn & Hcs2' & ->)].
  { (* fork() failed *)
    injection H as <- <-. wsimpl. split; [done|]. split; [by right|].
    exists []. rewrite app_nil_r. split; [congruence | done]. }
  set (child := forked _ _ _ _) in *.
  set (wf := set_procs _ _) in *.
  assert (Hchild : procs wf !! length (procs w) = Some child).
  { subst wf. wsimpl. rewrite Hprocs2, Hprocs1. by apply list_lookup_middle. }
  assert (Hinb : inbound child = Some (length (pipes w))).
  { unfold inbound, child, forked. cbn [p_fds p_from_parent cp_close cp_from_parent].
    rewrite close_all_lookup_ne
      by (rewrite !not_elem_of_cons, elem_of_nil; naive_solver).
    rewrite Hfds2, Hfds1. by simplify_map_eq. }
  assert (Houtb : outbound child = Some (length (pipes w1))).
  { unfold outbound, child, forked. cbn [p_fds p_to_parent cp_close cp_to_parent].
    rewrite close_all_lookup_ne
      by (rewrite !not_elem_of_cons, elem_of_nil; naive_solver).
    rewrite Hfds2. by simplify_map_eq. }
  assert (Hwf_fds : ctl_fds wf = ctl_fds w2) by done.
  assert (Hwf_procs : procs wf = procs w2 ++ [child]) by done.
  assert (Hwf_pipes : pipes wf = pipes w2) by done.
  clearbody wf.
  destruct (run_disk_blocks (length (procs w2)) wf child fresh_disk 0
              (length (pipes w))) as (Hprocs3 & Hfds3 & Hctl3).
  { by rewrite Hprocs2, Hprocs1. }
  { done. }
  { done. }
  { rewrite Hwf_pipes, Hpipes2, Hpipes1, <- app_assoc.
    by apply list_lookup_middle. }
  { apply holds_lookup with wr.
    rewrite Hwf_fds, Hfds2, Hfds1. by simplify_map_eq. }
  destruct (Z.ltb_spec x 0); [lia|].
  apply bind_ret_inv in H as (u1 & w5 & Hclose1 & H).
  apply bind_ret_inv in H as (u2 & w6 & Hclose2 & H).
  unfold sys_close, modify in Hclose1, Hclose2.
  injection H as <- <-. injection Hclose1 as <- <-. injection Hclose2 as <- <-.
  assert (Hfds6 : ∀ fd, fd ≠ rd → fd ≠ wr2 →
            ctl_fds (set_ctl_fds (delete wr2) (set_ctl_fds (delete rd)
              (set_controllers (TLive (<[Z.to_nat num :=
                 with_pid x (with_from_disk (rd2, wr2)
                               (with_to_disk (rd, wr) c0))]> cs3))
                 (run_disk (length (procs w2)) wf)))) !! fd
            = ctl_fds w2 !! fd).
  { intros fd ? ?. wsimpl.
    by rewrite !lookup_delete_ne, Hfds3, Hwf_fds by done. }
  split; [|split; [by left|]].
  - apply map_subseteq_spec. intros fd o Hfd.
    rewrite Hfds6 by congruence. by eapply lookup_weaken.
  - exists [child]. wsimpl.
    split; [by rewrite Hprocs3, Hwf_procs, Hprocs2, Hprocs1|].
    constructor; [|done]. unfold attached. rewrite Hinb, Houtb.
    apply andb_true_iff; split; [done|].
    apply andb_true_iff; split.
    + apply holds_lookup with wr. rewrite Hfds6 by done.
      rewrite Hfds2, Hfds1. by simplify_map_eq.
    + apply holds_lookup with rd2. rewrite Hfds6 by done.
      rewrite Hfds2, Hfds1. by simplify_map_eq.
Qed.

End SpawnDisk.

Section InitAll.
Context {cfg : raid_config}.

Lemma init_disks_inv n :
  ∀ i w rc w',
    init_disks n i w = Ret rc w' →
    ctl_fds w ⊆ ctl_fds w'
    ∧ (rc = -1 → controllers w' = TFreed)
    ∧ ∃ news, procs w' = procs w ++ news
              ∧ Forall (λ pr, attached w' pr = true) news.
Proof.
  induction n as [|n IH]; intros i w rc w' H.
  - injection H as <- <-. split; [done|]. split; [done|].
    exists []. by rewrite app_nil_r.
  - simpl in H. apply bind_ret_inv in H as (rc1 & w1 & H1 & H).
    apply init_disk_inv in H1 as (Hsub1 & [-> | ->] & news1 & Hprocs1 & Hatt1).
    + simpl in H.
      apply IH in H as (Hsub & Hfreed & news & Hprocs & Hatt).
      split; [by etrans|]. split; [done|].
      exists (news1 ++ news). split; [by rewrite Hprocs, Hprocs1, app_assoc|].
      apply Forall_app. split; [|done].
      eapply Forall_impl; [exact Hatt1|]. intros pr. by apply attached_mono.
    + simpl in H. injection H as <- <-. split; [done|]. split; [done|].
      by exists news1.
Qed.

(** C7, as the code has it, for a table of [total_disks >= 0] records.
    When a slot cannot be spawned, [init_all_controllers] frees the
    table and returns -1, and that is all it undoes: every descriptor
    the controller had open is still open, the children it had are as
    they were, and each worker spawned for an earlier slot is still
    running, attached to the controller by its two pipes. *)
Theorem init_failure_keeps_workers (total_disks : Z) (w w' : world) :
  0 <= total_disks →
  init_all_controllers total_disks w = Ret (-1) w' →
  controllers w' = TFreed
  ∧ ctl_fds w ⊆ ctl_fds w'
  ∧ ∃ news, procs w' = procs w ++ news
            ∧ Forall (λ pr, attached w' pr = true) news.
Proof.
  unfold init_all_controllers. intros _ H.
  apply bind_ret_inv in H as (u & w1 & Hm & H).
  unfold sys_malloc_table, modify in Hm. injection Hm as <- <-.
  apply init_disks_inv in H as (Hsub & Hfreed & news & Hprocs & Hatt).
  wsimpl.
  split; [by apply Hfreed|]. split; [done|]. by exists news.
Qed.

End InitAll.

(** C7 as stated fails when the second [fork()] of the initialisation of
    four slots fails: the worker of slot 0 runs on and the controller
    keeps descriptor 4, the write end of its pipe. *)
Lemma init_failure_not_atomic : ¬ fails_atomically (cfg := cfg344) 4 (boot 64 1).
Proof.
  intros H.
  destruct (H (after (init_all_controllers (cfg := cfg344) 4) (boot 64 1)))
    as [_ Hfds]; [vm_compute; reflexivity|].
  apply (Hfds 4 0%nat WrEnd). vm_compute. reflexivity.
Qed.

Lemma init_failure_keeps_workers_witness :
  controllers (after (init_all_controllers (cfg := cfg344) 4) (boot 64 1))
    = TFreed
  ∧ ctl_fds (boot 64 1)
    ⊆ ctl_fds (after (init_all_controllers (cfg := cfg344) 4) (boot 64 1))
  ∧ ∃ news,
      procs (after (init_all_controllers (cfg := cfg344) 4) (boot 64 1))
        = procs (boot 64 1) ++ news
      ∧ Forall (λ pr, attached
                        (after (init_all_controllers (cfg := cfg344) 4)
                               (boot 64 1)) pr = true) news.
Proof.
  apply (init_failure_keeps_workers (cfg := cfg344) 4).
  - discriminate.
  - vm_compute. reflexivity.
Defined.

(** In that run one worker had been spawned, and it is the one left. *)
Lemma init_failure_leaves_one_worker :
  p_state <$> procs (after (init_all_controllers (cfg := cfg344) 4)
                           (boot 64 1))
  = [Running (replicate 16 x00) 0].
Proof. vm_compute. reflexivity. Qed.

(** ** Reading back what was written *)

Section Memory.
Context {cfg : raid_config}.

Lemma in_disk_bounds d n :
  in_disk d n = true →
  0 <= n * block_size ∧ n * block_size + block_size <= Z.of_nat (length d).
Proof. unfold in_disk. rewrite andb_true_iff. lia. Qed.

Lemma length_load_block d n :
  0 <= block_size → in_disk d n = true →
  Z.of_nat (length (load_block d n)) = block_size.
Proof.
  intros HB Hin. apply in_disk_bounds in Hin. unfold load_block.
  rewrite length_take, length_drop. lia.
Qed.

Lemma length_store_block d n x :
  in_disk d n = true → Z.of_nat (length x) = block_size →
  length (store_block d n x) = length d.
Proof.
  intros Hin Hx. apply in_disk_bounds in Hin. unfold store_block.
  rewrite !length_app, !length_take, length_drop. lia.
Qed.

Lemma load_store_block d n x :
  in_disk d n = true → Z.of_nat (length x) = block_size →
  load_block (store_block d n x) n = x.
Proof.
  intros Hin Hx. apply in_disk_bounds in Hin.
  unfold load_block, store_block.
  rewrite drop_app_length' by (rewrite length_take; lia).
  rewrite (take_ge x) by lia.
  rewrite take_app_length' by lia. done.
Qed.


End Memory.

Section Serving.
Context {cfg : raid_config}.

Lemma list_alter_insert {A} (f : A → A) (l : list A) i x :
  l !! i = Some x → alter f i l = <[i := f x]> l.
Proof.
  intros Hi. apply list_eq. intros j.
  apply lookup_lt_Some in Hi as Hlt.
  destruct (decide (i = j)) as [<-|Hne].
  - rewrite list_lookup_alter_eq, list_lookup_insert_eq by done.
    by rewrite Hi.
  - by rewrite list_lookup_alter_ne, list_lookup_insert_ne.
Qed.

Lemma inbound_holds pr p :
  inbound pr = Some p → holds (p_fds pr) (Pipe p RdEnd) = true.
Proof.
  unfold inbound. intros H. apply holds_lookup with (p_from_parent pr).
  repeat case_match; by simplify_eq.
Qed.

Lemma inbound_set_state st pr : inbound (set_state st pr) = inbound pr.
Proof. done. Qed.

Lemma outbound_set_state st pr : outbound (set_state st pr) = outbound pr.
Proof. done. Qed.

Lemma find_reader_Some p l :
  ∀ k, find_reader p l = Some k →
       ∃ pr, l !! k = Some pr ∧ reads_from p pr = true.
Proof.
  induction l as [|pr l IH]; intros k; simpl; [done|].
  destruct (reads_from p pr) eqn:Hr.
  - intros [= <-]. by exists pr.
  - destruct (find_reader p l) as [k'|]; [|done].
    intros [= <-]. by apply IH.
Qed.

Lemma find_reader_insert p l :
  ∀ k pr pr', l !! k = Some pr → reads_from p pr' = reads_from p pr →
              find_reader p (<[k := pr']> l) = find_reader p l.
Proof.
  induction l as [|a l IH]; intros k pr pr' Hk Hr; [done|].
  destruct k as [|k]; simpl in *.
  - injection Hk as ->. by rewrite Hr.
  - by rewrite (IH k pr pr').
Qed.

Lemma serving_pipe_open w fdw fdr pin pout k pr :
  serving w fdw fdr pin pout k pr → alive pr = true →
  pipe_open w pin WrEnd = true ∧ pipe_open w pout RdEnd = true
  ∧ pipe_open w pin RdEnd = true.
Proof.
  intros (Hw & Hr & Hfind & Hk & Hin & Hout & Hne) Halive.
  unfold pipe_open. repeat split.
  - by rewrite (holds_lookup _ _ _ Hw).
  - by rewrite (holds_lookup _ _ _ Hr).
  - apply orb_true_iff. right. apply existsb_exists. exists pr. split.
    + apply list_elem_of_In. by eapply list_elem_of_lookup_2.
    + by rewrite Halive, inbound_holds.
Qed.

(** The worker of a serving slot runs on what its pipe holds; when the
    loop ends waiting, the turn leaves [rest] in the inbound pipe, adds
    the replies to the outbound pipe and updates the worker's memory. *)
Lemma run_disk_waiting w fdw fdr pin pout k pr d st q d' st' rest reps :
  serving w fdw fdr pin pout k pr →
  p_state pr = Running d st →
  pipes w !! pin = Some q →
  pipes w !! pout = Some [] →
  command_loop (p_id pr) false true q d st (fs w)
    = DiskRun (Waiting d' st') rest reps (fs w) →
  pipes (run_disk k w) = <[pout := reps]> (<[pin := rest]> (pipes w))
  ∧ procs (run_disk k w) = <[k := set_state (Running d' st') pr]> (procs w)
  ∧ ctl_fds (run_disk k w) = ctl_fds w
  ∧ controllers (run_disk k w) = controllers w
  ∧ fs (run_disk k w) = fs w.
Proof.
  intros Hs Hst Hq Hout Hloop.
  assert (Halive : alive pr = true) by (unfold alive; by rewrite Hst).
  destruct (serving_pipe_open _ _ _ _ _ _ _ Hs Halive) as (Hpw & Hpr & _).
  destruct Hs as (Hw & Hr & Hfind & Hk & Hin & Hob & Hne).
  split; [|split; [|split; [|split]]];
    try (by apply run_disk_keeps).
  - unfold run_disk. rewrite Hk, Hst.
    assert (Hturn : disk_turn pr d st w = DiskRun (Waiting d' st') rest reps (fs w)).
    { unfold disk_turn, start_disk. rewrite Hin, Hob, Hpw, Hpr. simpl.
      by rewrite Hq. }
    rewrite Hturn. wsimpl. unfold deliver. rewrite Hin, Hob. wsimpl.
    rewrite (list_alter_insert _ _ _ _ Hq).
    erewrite list_alter_insert by (by rewrite list_lookup_insert_ne).
    done.
  - unfold run_disk. rewrite Hk, Hst.
    assert (Hturn : disk_turn pr d st w = DiskRun (Waiting d' st') rest reps (fs w)).
    { unfold disk_turn, start_disk. rewrite Hin, Hob, Hpw, Hpr. simpl.
      by rewrite Hq. }
    rewrite Hturn. wsimpl. rewrite procs_deliver.
    by apply list_alter_insert.
  - unfold run_disk. rewrite Hk, Hst.
    assert (Hturn : disk_turn pr d st w = DiskRun (Waiting d' st') rest reps (fs w)).
    { unfold disk_turn, start_disk. rewrite Hin, Hob, Hpw, Hpr. simpl.
      by rewrite Hq. }
    rewrite Hturn. wsimpl. by rewrite fs_deliver.
Qed.

(** One [write()] to a serving slot whose command loop goes back to
    waiting. *)
Lemma send_step w fdw fdr pin pout k pr d st q f d' rest reps :
  serving w fdw fdr pin pout k pr →
  p_state pr = Running d st →
  pipes w !! pin = Some q →
  pipes w !! pout = Some [] →
  command_loop (p_id pr) false true (q ++ [f]) d st (fs w)
    = DiskRun (Waiting d' st) rest reps (fs w) →
  ∃ w', sys_write fdw f w = Ret true w'
        ∧ serving w' fdw fdr pin pout k (set_state (Running d' st) pr)
        ∧ pipes w' = <[pout := reps]> (<[pin := rest]> (pipes w))
        ∧ procs w' = <[k := set_state (Running d' st) pr]> (procs w)
        ∧ ctl_fds w' = ctl_fds w
        ∧ controllers w' = controllers w
        ∧ fs w' = fs w.
Proof.
  intros Hs Hst Hq Hout Hloop.
  assert (Halive : alive pr = true) by (unfold alive; by rewrite Hst).
  destruct (serving_pipe_open _ _ _ _ _ _ _ Hs Halive) as (_ & _ & Hopen).
  pose proof Hs as (Hw & Hr & Hfind & Hk & Hin & Hob & Hne).
  set (w0 := log (EvSend fdw f) (push pin [f] w)).
  assert (Hs0 : serving w0 fdw fdr pin pout k pr) by done.
  assert (Hq0 : pipes w0 !! pin = Some (q ++ [f])).
  { subst w0. wsimpl. by rewrite list_lookup_alter_eq, Hq. }
  assert (Hout0 : pipes w0 !! pout = Some []).
  { subst w0. wsimpl. by rewrite list_lookup_alter_ne. }
  destruct (run_disk_waiting w0 fdw fdr pin pout k pr d st (q ++ [f])
              d' st rest reps Hs0 Hst Hq0 Hout0 Hloop)
    as (Hpipes & Hprocs & Hfds & Hctl & Hfs).
  exists (run_disk k w0). split; [|split; [|split; [|split; [|split]]]].
  - unfold sys_write. rewrite Hw, Hopen. unfold wake.
    change (procs (log (EvSend fdw f) (push pin [f] w))) with (procs w).
    by rewrite Hfind.
  - unfold serving. rewrite Hfds, Hprocs.
    repeat split; try done.
    + rewrite (find_reader_insert _ _ _ pr); [done..|].
      unfold reads_from, alive. by rewrite Hst.
    + apply list_lookup_insert_eq. by eapply lookup_lt_Some.
  - rewrite Hpipes. subst w0. wsimpl.
    rewrite (list_alter_insert _ _ _ _ Hq).
    by rewrite list_insert_insert_eq.
  - done.
  - done.
  - done.
Qed.

End Serving.

Section SlotIO.
Context {cfg : raid_config}.

Lemma set_state_twice st st' pr :
  set_state st (set_state st' pr) = set_state st pr.
Proof. done. Qed.

(** Pipes that went through a transfer and are empty again. *)
Lemma pipes_back (l l' : list (list field)) pin pout :
  l !! pin = Some [] → l !! pout = Some [] →
  (∀ j, j ≠ pin → j ≠ pout → l' !! j = l !! j) →
  l' !! pin = Some [] → l' !! pout = Some [] →
  l' = l.
Proof.
  intros Hin Hout Hother Hin' Hout'. apply list_eq. intros j.
  destruct (decide (j = pin)) as [->|]; [congruence|].
  destruct (decide (j = pout)) as [->|]; [congruence|].
  by apply Hother.
Qed.

Lemma insert2_lookup_other (l : list (list field)) pin pout a b j :
  j ≠ pin → j ≠ pout → <[pout := a]> (<[pin := b]> l) !! j = l !! j.
Proof. intros. by rewrite !list_lookup_insert_ne. Qed.

Lemma insert2_lookup_in (l : list (list field)) pin pout a b x :
  l !! pin = Some x → pin ≠ pout →
  <[pout := a]> (<[pin := b]> l) !! pin = Some b.
Proof.
  intros Hin Hne. rewrite list_lookup_insert_ne by done.
  apply list_lookup_insert_eq. by eapply lookup_lt_Some.
Qed.

Lemma insert2_lookup_out (l : list (list field)) pin pout a b x :
  l !! pout = Some x →
  <[pout := a]> (<[pin := b]> l) !! pout = Some a.
Proof.
  intros Hout. apply list_lookup_insert_eq.
  rewrite length_insert. by eapply lookup_lt_Some.
Qed.

(** [write_block_to_disk] on a serving slot: the block is stored in the
    worker's memory and nothing else the controller sees is changed. *)
Lemma write_block_to_disk_serving w block_num buf parity_flag s k d :
  slot_serving w s k d →
  s = (if parity_flag =? 1 then num_disks else Z.rem block_num num_disks) →
  in_disk d (Z.quot block_num num_disks) = true →
  Z.of_nat (length buf) = block_size →
  ∃ w' pr st,
    write_block_to_disk block_num (Some buf) parity_flag w = Ret 0 w'
    ∧ procs w !! k = Some pr ∧ p_state pr = Running d st
    ∧ procs w' = <[k := set_state
                           (Running (store_block d (Z.quot block_num num_disks)
                                                 buf) st) pr]> (procs w)
    ∧ pipes w' = pipes w ∧ ctl_fds w' = ctl_fds w
    ∧ controllers w' = controllers w.
Proof.
  intros (cs & c & pin & pout & pr & st & Hcs & Hs & Hc & Hk & Hserv & Hst
          & Hin & Hout & Hlen) Hdisk Hdisk_ok Hbuf.
  set (n := Z.quot block_num num_disks) in *.
  pose proof Hserv as (_ & _ & _ & Hpr & _ & _ & Hne).
  destruct (send_step w _ _ pin pout k pr d st [] (FCmd CMD_WRITE)
              d [FCmd CMD_WRITE] [] Hserv Hst Hin Hout eq_refl)
    as (w1 & Hw1 & Hserv1 & Hp1 & Hprocs1 & Hfds1 & Hctl1 & Hfs1).
  destruct (send_step w1 _ _ pin pout k _ d st [FCmd CMD_WRITE] (FInt n)
              d [FCmd CMD_WRITE; FInt n] [] Hserv1 eq_refl)
    as (w2 & Hw2 & Hserv2 & Hp2 & Hprocs2 & Hfds2 & Hctl2 & Hfs2).
  { rewrite Hp1. by eapply insert2_lookup_in. }
  { rewrite Hp1. by eapply insert2_lookup_out. }
  { done. }
  destruct (send_step w2 _ _ pin pout k _ d st [FCmd CMD_WRITE; FInt n]
              (FBlock buf) (store_block d n buf) [] [] Hserv2 eq_refl)
    as (w3 & Hw3 & Hserv3 & Hp3 & Hprocs3 & Hfds3 & Hctl3 & Hfs3).
  { rewrite Hp2, Hp1.
    eapply insert2_lookup_in; [|done].
    by eapply insert2_lookup_in. }
  { rewrite Hp2, Hp1.
    eapply insert2_lookup_out. by eapply insert2_lookup_out. }
  { simpl. rewrite Hdisk_ok.
    destruct (Z.eqb_spec (Z.of_nat (length buf)) block_size); done. }
  exists w3, pr, st. split; [|split; [done|split; [done|split; [|split; [|split]]]]].
  - unfold write_block_to_disk. rewrite <- Hdisk.
    unfold mbind, M_bind, mret, M_ret, get_controller.
    rewrite Hcs. destruct (Z.leb_spec 0 s); [|lia]. rewrite Hc.
    rewrite Hw1. simpl. fold n. rewrite Hw2. simpl.
    rewrite take_ge by lia. rewrite Hw3. done.
  - rewrite Hprocs3, Hprocs2, Hprocs1.
    by rewrite !list_insert_insert_eq.
  - apply pipes_back with pin pout; try done.
    + intros j ? ?. rewrite Hp3, Hp2, Hp1.
      by rewrite !insert2_lookup_other.
    + rewrite Hp3. eapply insert2_lookup_in; [|done].
      rewrite Hp2, Hp1. eapply insert2_lookup_in; [|done].
      by eapply insert2_lookup_in.
    + rewrite Hp3. eapply insert2_lookup_out.
      rewrite Hp2, Hp1. eapply insert2_lookup_out.
      by eapply insert2_lookup_out.
  - congruence.
  - congruence.
Qed.

(** [read_block_from_disk] on a serving slot: the buffer receives the
    block of the worker's memory and nothing the controller sees is
    changed, the record of transfers apart. *)
Lemma read_block_from_disk_serving w block_num buf parity_flag s k d :
  slot_serving w s k d →
  s = (if parity_flag =? 1 then num_disks else Z.rem block_num num_disks) →
  in_disk d (Z.quot block_num num_disks) = true →
  0 <= block_size →
  ∃ w',
    read_block_from_disk block_num (Some buf) parity_flag w
      = Ret (0, Some (load_block d (Z.quot block_num num_disks)
                      ++ drop (Z.to_nat block_size) buf)) w'
    ∧ procs w' = procs w ∧ pipes w' = pipes w ∧ ctl_fds w' = ctl_fds w
    ∧ controllers w' = controllers w.
Proof.
  intros (cs & c & pin & pout & pr & st & Hcs & Hs & Hc & Hk & Hserv & Hst
          & Hin & Hout & Hlen) Hdisk Hdisk_ok HB.
  set (n := Z.quot block_num num_disks) in *.
  pose proof Hserv as (_ & Hfdr & _ & Hpr & _ & _ & Hne).
  destruct (send_step w _ _ pin pout k pr d st [] (FCmd CMD_READ)
              d [FCmd CMD_READ] [] Hserv Hst Hin Hout eq_refl)
    as (w1 & Hw1 & Hserv1 & Hp1 & Hprocs1 & Hfds1 & Hctl1 & Hfs1).
  destruct (send_step w1 _ _ pin pout k _ d st [FCmd CMD_READ] (FInt n)
              d [] [FBlock (load_block d n)] Hserv1 eq_refl)
    as (w2 & Hw2 & Hserv2 & Hp2 & Hprocs2 & Hfds2 & Hctl2 & Hfs2).
  { rewrite Hp1. by eapply insert2_lookup_in. }
  { rewrite Hp1. by eapply insert2_lookup_out. }
  { simpl. by rewrite Hdisk_ok. }
  assert (Hreply : pipes w2 !! pout = Some [FBlock (load_block d n)]).
  { rewrite Hp2, Hp1. eapply insert2_lookup_out.
    by eapply insert2_lookup_out. }
  eexists. split; [|split; [|split; [|split]]].
  - unfold read_block_from_disk. rewrite <- Hdisk.
    unfold mbind, M_bind, mret, M_ret, get_controller.
    rewrite Hcs. destruct (Z.leb_spec 0 s); [|lia]. rewrite Hc.
    rewrite Hw1. simpl. fold n. rewrite Hw2. simpl.
    unfold sys_read. rewrite Hfds2, Hfds1, Hfdr, Hreply.
    rewrite length_load_block by done. rewrite Z.eqb_refl. done.
  - wsimpl. rewrite Hprocs2, Hprocs1, list_insert_insert_eq.
    rewrite set_state_twice, (set_state_id pr) by done.
    by apply list_insert_id.
  - wsimpl. apply pipes_back with pin pout; try done.
    + intros j ? ?. rewrite list_lookup_alter_ne by done.
      rewrite Hp2, Hp1. by rewrite !insert2_lookup_other.
    + rewrite list_lookup_alter_ne by done. rewrite Hp2.
      eapply insert2_lookup_in; [|done].
      rewrite Hp1. by eapply insert2_lookup_in.
    + by rewrite list_lookup_alter_eq, Hreply.
  - wsimpl. congruence.
  - wsimpl. congruence.
Qed.

End SlotIO.

Section RoundTrip.
Context {cfg : raid_config}.

Lemma slot_ready_serving w s :
  slot_ready w s = true → ∃ k d, slot_serving w s k d.
Proof.
  unfold slot_ready. intros H.
  destruct (controllers w) as [|cs|] eqn:Hcs; try done.
  destruct (Z.leb_spec 0 s) as [Hs|]; [|done].
  destruct (cs !! Z.to_nat s) as [c|] eqn:Hc; [|done].
  destruct (ctl_fds w !! (to_disk c).2) as [[|pin [|]]|] eqn:Hw; try done.
  destruct (ctl_fds w !! (from_disk c).1) as [[|pout [|]]|] eqn:Hr; try done.
  destruct (proc_of_pid (pid c)) as [k|] eqn:Hk; [|done].
  destruct (procs w !! k) as [pr|] eqn:Hpr; [|done].
  destruct (p_state pr) as [d st| | |] eqn:Hst; try done.
  destruct (pipes w !! pin) as [[|]|] eqn:Hin; try done.
  destruct (pipes w !! pout) as [[|]|] eqn:Hout; try done.
  rewrite !andb_true_iff, !bool_decide_eq_true in H.
  destruct H as ((((Hlen & Hinb) & Houtb) & Hfind) & Hne).
  exists k, d, cs, c, pin, pout, pr, st.
  repeat split; try done. lia.
Qed.

Lemma slot_serving_pid w s k d :
  slot_serving w s k d → pid_of w s = Some (Z.of_nat k + 1).
Proof.
  intros (cs & c & pin & pout & pr & st & Hcs & Hs & Hc & Hk & _).
  unfold pid_of. rewrite Hcs. destruct (Z.leb_spec 0 s); [|lia].
  rewrite Hc. simpl. f_equal. unfold proc_of_pid in Hk.
  destruct (Z.ltb_spec 0 (pid c)); [|done]. injection Hk as <-. lia.
Qed.

Lemma slot_serving_length w s k d :
  slot_serving w s k d → Z.of_nat (length d) = disk_size.
Proof. by intros (cs & c & pin & pout & pr & st & _ & _ & _ & _ & _ & _ & _ & _ & ?). Qed.

Lemma slot_serving_same w w' s k d :
  procs w' = procs w → pipes w' = pipes w → ctl_fds w' = ctl_fds w →
  controllers w' = controllers w →
  slot_serving w s k d → slot_serving w' s k d.
Proof.
  intros Hp Hq Hf Hc (cs & c & pin & pout & pr & st & H).
  exists cs, c, pin, pout, pr, st. unfold serving in *.
  by rewrite Hp, Hq, Hf, Hc.
Qed.

(** Storing into the memory of child [k0] keeps every slot in service;
    the slots served by [k0] see the new memory. *)
Lemma slot_serving_update w w' s k d k0 pr0 d0 st0 d0' :
  procs w !! k0 = Some pr0 → p_state pr0 = Running d0 st0 →
  Z.of_nat (length d0') = disk_size →
  procs w' = <[k0 := set_state (Running d0' st0) pr0]> (procs w) →
  pipes w' = pipes w → ctl_fds w' = ctl_fds w →
  controllers w' = controllers w →
  slot_serving w s k d →
  slot_serving w' s k (if decide (k = k0) then d0' else d).
Proof.
  intros Hk0 Hst0 Hlen0 Hp Hq Hf Hc
    (cs & c & pin & pout & pr & st & Hcs & Hs & Hcl & Hk & Hserv & Hst
     & Hin & Hout & Hlen).
  destruct Hserv as (Hw & Hr & Hfind & Hpr & Hinb & Houtb & Hne).
  assert (Hfind' : find_reader pin (procs w') = Some k).
  { rewrite Hp, (find_reader_insert _ _ _ pr0); [done..|].
    unfold reads_from, alive. by rewrite Hst0. }
  destruct (decide (k = k0)) as [->|Hkne].
  - assert (pr = pr0) as -> by congruence.
    exists cs, c, pin, pout, (set_state (Running d0' st0) pr0), st0.
    unfold serving. rewrite Hp, Hq, Hf, Hc, <- Hp.
    repeat split; try done.
    rewrite Hp. apply list_lookup_insert_eq. by eapply lookup_lt_Some.
  - exists cs, c, pin, pout, pr, st.
    unfold serving. rewrite Hq, Hf, Hc.
    repeat split; try done.
    by rewrite Hp, list_lookup_insert_ne.
Qed.



End RoundTrip.

(** The fresh array of the scenario is in service. *)
Lemma fresh_array_ready : array_ready (cfg := cfg344) fresh_array.
Proof.
  split.
  - intros s Hs. change (@num_disks cfg344) with 3 in Hs.
    assert (s = 0 ∨ s = 1 ∨ s = 2 ∨ s = 3) as [-> | [-> | [-> | ->]]] by lia;
      vm_compute; reflexivity.
  - intros s Hs. change (@num_disks cfg344) with 3 in *.
    assert (s = 0 ∨ s = 1 ∨ s = 2) as [-> | [-> | ->]] by lia;
      vm_compute; discriminate.
Qed.


(** ** XOR of blocks *)

Section Xor.

Lemma lxor_byte_bound a b : (a <= 255 → b <= 255 → N.lxor a b <= 255)%N.
Proof.
  intros Ha Hb.
  destruct (N.eq_dec (N.lxor a b) 0%N) as [->|Hne]; [lia|].
  assert (Hlog : ∀ c, (c <= 255 → N.log2 c < 8)%N).
  { intros c Hc. destruct (N.eq_dec c 0%N) as [->|]; [done|].
    apply N.log2_lt_pow2; lia. }
  assert (N.lxor a b < 2 ^ 8)%N; [|lia].
  apply N.log2_lt_pow2; [lia|].
  pose proof (N.log2_lxor a b). pose proof (Hlog a Ha). pose proof (Hlog b Hb).
  lia.
Qed.

Lemma to_N_byte_xor a b :
  Byte.to_N (byte_xor a b) = N.lxor (Byte.to_N a) (Byte.to_N b).
Proof.
  unfold byte_xor.
  destruct (Byte.of_N _) as [c|] eqn:Hc.
  - by apply Byte.to_of_N.
  - apply Byte.of_N_None_iff in Hc.
    pose proof (lxor_byte_bound _ _ (Byte.to_N_bounded a) (Byte.to_N_bounded b)).
    lia.
Qed.

Lemma to_N_inj a b : Byte.to_N a = Byte.to_N b → a = b.
Proof.
  intros H. pose proof (Byte.of_to_N a) as Ha.
  rewrite H, Byte.of_to_N in Ha. congruence.
Qed.

Lemma byte_xor_comm a b : byte_xor a b = byte_xor b a.
Proof. apply to_N_inj. rewrite !to_N_byte_xor. apply N.lxor_comm. Qed.

Lemma byte_xor_assoc a b c :
  byte_xor (byte_xor a b) c = byte_xor a (byte_xor b c).
Proof. apply to_N_inj. rewrite !to_N_byte_xor. apply N.lxor_assoc. Qed.

Lemma byte_xor_0_l a : byte_xor x00 a = a.
Proof. apply to_N_inj. rewrite to_N_byte_xor. apply N.lxor_0_l. Qed.

Lemma byte_xor_nilpotent a : byte_xor a a = x00.
Proof. apply to_N_inj. rewrite to_N_byte_xor. apply N.lxor_nilpotent. Qed.

Lemma length_xor_block a b :
  length (xor_block a b) = min (length a) (length b).
Proof. apply length_zip_with. Qed.

Lemma xor_block_comm a b : xor_block a b = xor_block b a.
Proof.
  unfold xor_block. revert b.
  induction a as [|x a IH]; intros [|y b]; simpl; try done.
  by rewrite byte_xor_comm, IH.
Qed.

Lemma xor_block_assoc a b c :
  xor_block (xor_block a b) c = xor_block a (xor_block b c).
Proof.
  unfold xor_block. revert b c.
  induction a as [|x a IH]; intros [|y b] [|z c]; simpl; try done.
  by rewrite byte_xor_assoc, IH.
Qed.

Lemma xor_block_zeros n a :
  length a = n → xor_block (replicate n x00) a = a.
Proof.
  unfold xor_block. revert n.
  induction a as [|x a IH]; intros [|n] Hn; simpl in *; try done.
  rewrite byte_xor_0_l, IH; [done | lia].
Qed.

(** XORing a block in twice gives the block back. *)
Lemma xor_block_cancel a b :
  length a = length b → xor_block (xor_block a b) b = a.
Proof.
  unfold xor_block. revert b.
  induction a as [|x a IH]; intros [|y b] Hn; simpl in *; try done.
  rewrite IH by lia. f_equal.
  rewrite byte_xor_assoc, byte_xor_nilpotent, byte_xor_comm.
  apply byte_xor_0_l.
Qed.

End Xor.

(** ** What a write and a read do to the array *)

Section Effects.
Context {cfg : raid_config}.

Lemma slot_serving_disk w s k d : slot_serving w s k d → disk_of w s = Some d.
Proof.
  intros (cs & c & pin & pout & pr & st & Hcs & Hs & Hc & Hk & Hserv & Hst & _).
  destruct Hserv as (_ & _ & _ & Hpr & _).
  unfold disk_of. rewrite Hcs. destruct (Z.leb_spec 0 s); [|lia].
  rewrite Hc. simpl. rewrite Hk. simpl. rewrite Hpr. simpl. by rewrite Hst.
Qed.

Lemma slot_serving_ready w s k d : slot_serving w s k d → slot_ready w s = true.
Proof.
  intros (cs & c & pin & pout & pr & st & Hcs & Hs & Hc & Hk & Hserv & Hst
          & Hin & Hout & Hlen).
  destruct Hserv as (Hw & Hr & Hfind & Hpr & Hinb & Houtb & Hne).
  unfold slot_ready. rewrite Hcs. destruct (Z.leb_spec 0 s); [|lia].
  rewrite Hc, Hw, Hr, Hk, Hpr, Hst, Hin, Hout.
  rewrite !andb_true_iff, !bool_decide_eq_true. repeat split; try done. lia.
Qed.

Lemma pid_of_same w w' s :
  controllers w' = controllers w → pid_of w' s = pid_of w s.
Proof. unfold pid_of. by intros ->. Qed.

Lemma seqZ_S i n : seqZ i (Z.of_nat (S n)) = i :: seqZ (i + 1) (Z.of_nat n).
Proof.
  rewrite seqZ_cons by lia. f_equal. f_equal; lia.
Qed.

Lemma disk_of_same w w' s :
  controllers w' = controllers w → procs w' = procs w →
  disk_of w' s = disk_of w s.
Proof. unfold disk_of. by intros -> ->. Qed.

Lemma xor_fold_same w w' t l :
  (∀ s, s ∈ l → s ≠ t → block_of w' s 0 = block_of w s 0) →
  ∀ o,
    foldl (λ acc s, if s =? t then acc
                    else a ← acc; b ← block_of w' s 0; Some (xor_block a b))
          o l
    = foldl (λ acc s, if s =? t then acc
                      else a ← acc; b ← block_of w s 0; Some (xor_block a b))
            o l.
Proof.
  induction l as [|s l IH]; intros Hsame o; [done|]. simpl.
  rewrite IH by (intros; apply Hsame; [by right | done]).
  destruct (Z.eqb_spec s t); [done|].
  by rewrite Hsame by (done || by left).
Qed.

(** The first loop of the parity update, with its result. *)
(** The same with the directory, which no transfer of a block touches. *)
Lemma write_block_to_disk_serving_fs w block_num buf parity_flag s k d :
  slot_serving w s k d →
  s = (if parity_flag =? 1 then num_disks else Z.rem block_num num_disks) →
  in_disk d (Z.quot block_num num_disks) = true →
  Z.of_nat (length buf) = block_size →
  ∃ w' pr st,
    write_block_to_disk block_num (Some buf) parity_flag w = Ret 0 w'
    ∧ procs w !! k = Some pr ∧ p_state pr = Running d st
    ∧ procs w' = <[k := set_state
                           (Running (store_block d (Z.quot block_num num_disks)
                                                 buf) st) pr]> (procs w)
    ∧ pipes w' = pipes w ∧ ctl_fds w' = ctl_fds w
    ∧ controllers w' = controllers w
    ∧ fs w' = fs w.
Proof.
  intros (cs & c & pin & pout & pr & st & Hcs & Hs & Hc & Hk & Hserv & Hst
          & Hin & Hout & Hlen) Hdisk Hdisk_ok Hbuf.
  set (n := Z.quot block_num num_disks) in *.
  pose proof Hserv as (_ & _ & _ & Hpr & _ & _ & Hne).
  destruct (send_step w _ _ pin pout k pr d st [] (FCmd CMD_WRITE)
              d [FCmd CMD_WRITE] [] Hserv Hst Hin Hout eq_refl)
    as (w1 & Hw1 & Hserv1 & Hp1 & Hprocs1 & Hfds1 & Hctl1 & Hfs1).
  destruct (send_step w1 _ _ pin pout k _ d st [FCmd CMD_WRITE] (FInt n)
              d [FCmd CMD_WRITE; FInt n] [] Hserv1 eq_refl)
    as (w2 & Hw2 & Hserv2 & Hp2 & Hprocs2 & Hfds2 & Hctl2 & Hfs2).
  { rewrite Hp1. by eapply insert2_lookup_in. }
  { rewrite Hp1. by eapply insert2_lookup_out. }
  { done. }
  destruct (send_step w2 _ _ pin pout k _ d st [FCmd CMD_WRITE; FInt n]
              (FBlock buf) (store_block d n buf) [] [] Hserv2 eq_refl)
    as (w3 & Hw3 & Hserv3 & Hp3 & Hprocs3 & Hfds3 & Hctl3 & Hfs3).
  { rewrite Hp2, Hp1.
    eapply insert2_lookup_in; [|done].
    by eapply insert2_lookup_in. }
  { rewrite Hp2, Hp1.
    eapply insert2_lookup_out. by eapply insert2_lookup_out. }
  { simpl. rewrite Hdisk_ok.
    destruct (Z.eqb_spec (Z.of_nat (length buf)) block_size); done. }
  exists w3, pr, st.
  split; [|split; [done|split; [done|split; [|split; [|split; [|split]]]]]].
  - unfold write_block_to_disk. rewrite <- Hdisk.
    unfold mbind, M_bind, mret, M_ret, get_controller.
    rewrite Hcs. destruct (Z.leb_spec 0 s); [|lia]. rewrite Hc.
    rewrite Hw1. simpl. fold n. rewrite Hw2. simpl.
    rewrite take_ge by lia. rewrite Hw3. done.
  - rewrite Hprocs3, Hprocs2, Hprocs1.
    by rewrite !list_insert_insert_eq.
  - apply pipes_back with pin pout; try done.
    + intros j ? ?. rewrite Hp3, Hp2, Hp1.
      by rewrite !insert2_lookup_other.
    + rewrite Hp3. eapply insert2_lookup_in; [|done].
      rewrite Hp2, Hp1. eapply insert2_lookup_in; [|done].
      by eapply insert2_lookup_in.
    + rewrite Hp3. eapply insert2_lookup_out.
      rewrite Hp2, Hp1. eapply insert2_lookup_out.
      by eapply insert2_lookup_out.
  - congruence.
  - congruence.
  - congruence.
Qed.

Lemma read_block_from_disk_serving_fs w block_num buf parity_flag s k d :
  slot_serving w s k d →
  s = (if parity_flag =? 1 then num_disks else Z.rem block_num num_disks) →
  in_disk d (Z.quot block_num num_disks) = true →
  0 <= block_size →
  ∃ w',
    read_block_from_disk block_num (Some buf) parity_flag w
      = Ret (0, Some (load_block d (Z.quot block_num num_disks)
                      ++ drop (Z.to_nat block_size) buf)) w'
    ∧ procs w' = procs w ∧ pipes w' = pipes w ∧ ctl_fds w' = ctl_fds w
    ∧ controllers w' = controllers w
    ∧ fs w' = fs w.
Proof.
  intros (cs & c & pin & pout & pr & st & Hcs & Hs & Hc & Hk & Hserv & Hst
          & Hin & Hout & Hlen) Hdisk Hdisk_ok HB.
  set (n := Z.quot block_num num_disks) in *.
  pose proof Hserv as (_ & Hfdr & _ & Hpr & _ & _ & Hne).
  destruct (send_step w _ _ pin pout k pr d st [] (FCmd CMD_READ)
              d [FCmd CMD_READ] [] Hserv Hst Hin Hout eq_refl)
    as (w1 & Hw1 & Hserv1 & Hp1 & Hprocs1 & Hfds1 & Hctl1 & Hfs1).
  destruct (send_step w1 _ _ pin pout k _ d st [FCmd CMD_READ] (FInt n)
              d [] [FBlock (load_block d n)] Hserv1 eq_refl)
    as (w2 & Hw2 & Hserv2 & Hp2 & Hprocs2 & Hfds2 & Hctl2 & Hfs2).
  { rewrite Hp1. by eapply insert2_lookup_in. }
  { rewrite Hp1. by eapply insert2_lookup_out. }
  { simpl. by rewrite Hdisk_ok. }
  assert (Hreply : pipes w2 !! pout = Some [FBlock (load_block d n)]).
  { rewrite Hp2, Hp1. eapply insert2_lookup_out.
    by eapply insert2_lookup_out. }
  eexists. split; [|split; [|split; [|split; [|split]]]].
  - unfold read_block_from_disk. rewrite <- Hdisk.
    unfold mbind, M_bind, mret, M_ret, get_controller.
    rewrite Hcs. destruct (Z.leb_spec 0 s); [|lia]. rewrite Hc.
    rewrite Hw1. simpl. fold n. rewrite Hw2. simpl.
    unfold sys_read. rewrite Hfds2, Hfds1, Hfdr, Hreply.
    rewrite length_load_block by done. rewrite Z.eqb_refl. done.
  - wsimpl. rewrite Hprocs2, Hprocs1, list_insert_insert_eq.
    rewrite set_state_twice, (set_state_id pr) by done.
    by apply list_insert_id.
  - wsimpl. apply pipes_back with pin pout; try done.
    + intros j ? ?. rewrite list_lookup_alter_ne by done.
      rewrite Hp2, Hp1. by rewrite !insert2_lookup_other.
    + rewrite list_lookup_alter_ne by done. rewrite Hp2.
      eapply insert2_lookup_in; [|done].
      rewrite Hp1. by eapply insert2_lookup_in.
    + by rewrite list_lookup_alter_eq, Hreply.
  - wsimpl. congruence.
  - wsimpl. congruence.
  - wsimpl. congruence.
Qed.

Lemma xor_other_disks_value n :
  ∀ i disk_num parity_data w,
    0 < block_size → block_size <= disk_size →
    0 <= i → i + Z.of_nat n <= num_disks →
    (∀ s, i <= s < i + Z.of_nat n → ∃ k d, slot_serving w s k d) →
    Z.of_nat (length parity_data) = block_size →
    ∃ parity_data' w',
      xor_other_disks n i disk_num parity_data w = Ret (Some parity_data') w'
      ∧ xor_blocks_from w disk_num parity_data (seqZ i (Z.of_nat n))
        = Some parity_data'
      ∧ Z.of_nat (length parity_data') = block_size
      ∧ procs w' = procs w ∧ pipes w' = pipes w ∧ ctl_fds w' = ctl_fds w
      ∧ controllers w' = controllers w ∧ fs w' = fs w.
Proof.
  induction n as [|n IH]; intros i disk_num parity_data w HB HS Hi Hn Hslots Hlen.
  - by exists parity_data, w.
  - rewrite seqZ_S. unfold xor_blocks_from. cbn [xor_other_disks foldl].
    fold (xor_blocks_from w disk_num).
    destruct (Z.eqb_spec i disk_num) as [->|Hne]; cbn [negb].
    + destruct (IH (disk_num + 1) disk_num parity_data w)
        as (parity' & w2 & Hloop & Hval & Hrest); try done; try lia.
      { intros s Hs. apply Hslots. lia. }
      by exists parity', w2.
    + destruct (Hslots i) as (k & d & Hserv); [lia|].
      pose proof (slot_serving_length _ _ _ _ Hserv) as Hd.
      assert (Hin0 : in_disk d 0 = true).
      { unfold in_disk. apply andb_true_iff. lia. }
      destruct (read_block_from_disk_serving_fs w i
                  (replicate (Z.to_nat block_size) x00) 0 i k d Hserv)
        as (w1 & Hread & Hp1 & Hq1 & Hf1 & Hc1 & Hfs1).
      { simpl. symmetry. apply Z.rem_small. lia. }
      { by rewrite Z.quot_small by lia. }
      { lia. }
      rewrite Z.quot_small in Hread by lia.
      rewrite drop_ge, app_nil_r in Hread by (rewrite length_replicate; lia).
      assert (Hblock : block_of w i 0 = Some (load_block d 0)).
      { unfold block_of. by rewrite (slot_serving_disk _ _ _ _ Hserv). }
      destruct (IH (i + 1) disk_num (xor_block parity_data (load_block d 0)) w1)
        as (parity' & w2 & Hloop & Hval & Hlen' & Hp2 & Hq2 & Hf2 & Hc2
            & Hfs2);
        try done; try lia.
      { intros s Hs. destruct (Hslots s) as (k' & d' & Hserv'); [lia|].
        exists k', d'. by eapply slot_serving_same. }
      { rewrite length_xor_block.
        assert (HB0 : 0 <= block_size) by lia.
        pose proof (length_load_block d 0 HB0 Hin0). lia. }
      exists parity', w2.
      split; [|split; [|split; [done|split; [|split; [|split; [|split]]]]]];
        try congruence.
      * unfold mbind, M_bind. rewrite Hread. exact Hloop.
      * rewrite Hblock. simpl. rewrite <- Hval.
        unfold xor_blocks_from. symmetry. apply xor_fold_same.
        intros s _ _. unfold block_of. by rewrite (disk_of_same w w1).
Qed.


(** [write_block] on an array in service, with everything the later
    properties need: the return value, the disks, the directory and the
    children. *)
Lemma write_block_run (i : Z) (x : list byte) (w : world) :
  0 < num_disks → 0 < block_size →
  array_in_service w →
  invalid_block i = false →
  Z.of_nat (length x) = block_size →
  ∃ w' others,
    write_block i (Some x) w = Ret 0 w'
    ∧ parity_of_others w (Z.rem i num_disks) = Some others
    ∧ (∀ s d, 0 <= s <= num_disks → disk_of w s = Some d →
         disk_of w' s
         = Some (if decide (s = Z.rem i num_disks)
                 then store_block d (Z.quot i num_disks) x
                 else if decide (s = num_disks)
                 then store_block d (Z.quot (Z.quot i num_disks) num_disks)
                                  (xor_block others x)
                 else d))
    ∧ array_in_service w'
    ∧ fs w' = fs w
    ∧ (∀ k, (p_id <$> procs w' !! k) = (p_id <$> procs w !! k)
            ∧ (p_reaped <$> procs w' !! k) = (p_reaped <$> procs w !! k))
    ∧ controllers w' = controllers w.
Proof.
  intros HD HB [[Hready Hpids] Hdist] Hvalid Hx.
  assert (Hi : 0 <= i < Z.quot disk_size block_size).
  { unfold invalid_block in Hvalid. apply orb_false_iff in Hvalid. lia. }
  set (t := Z.rem i num_disks). set (n := Z.quot i num_disks).
  assert (Ht : 0 <= t < num_disks) by (apply Z.rem_bound_pos; lia).
  assert (Hn : 0 <= n <= i).
  { subst n. rewrite Z.quot_div_nonneg by lia. split.
    - apply Z.div_pos; lia.
    - apply Z.div_le_upper_bound; nia. }
  assert (Hslots : ∀ s, 0 <= s <= num_disks → ∃ k d, slot_serving w s k d).
  { intros s Hs. by apply slot_ready_serving, Hready. }
  destruct (Hslots t) as (kt & dt & Hservt); [lia|].
  destruct (Hslots num_disks) as (kp & dp & Hservp); [lia|].
  (* a slot served by the worker of slot t is slot t; the same for the
     parity slot *)
  assert (Hsame_worker : ∀ s s' k d d', 0 <= s <= num_disks →
            0 <= s' <= num_disks → slot_serving w s k d →
            slot_serving w s' k d' → s = s').
  { intros s s' k d d' Hs Hs' Hserv Hserv'.
    destruct (decide (s = s')) as [|Hne]; [done|]. exfalso.
    apply (Hdist s s' Hs Hs' Hne).
    by rewrite (slot_serving_pid _ _ _ _ Hserv),
               (slot_serving_pid _ _ _ _ Hserv'). }
  pose proof (slot_serving_length _ _ _ _ Hservt) as Hdt.
  pose proof (slot_serving_length _ _ _ _ Hservp) as Hdp.
  assert (HS : (i + 1) * block_size <= disk_size).
  { assert (0 <= disk_size) by lia.
    rewrite Z.quot_div_nonneg in Hi by lia.
    pose proof (Z.mul_div_le disk_size block_size HB). nia. }
  assert (Hin_t : in_disk dt n = true).
  { unfold in_disk. apply andb_true_iff. split; [lia|]. nia. }
  (* the write to the data disk *)
  destruct (write_block_to_disk_serving_fs w i x 0 t kt dt Hservt)
    as (w1 & prt & stt & Hwrite & Hprt & Hstt & Hp1 & Hq1 & Hf1 & Hc1 & Hfs1);
    [done..|].
  fold n in Hp1.
  assert (Hlen_t : Z.of_nat (length (store_block dt n x)) = disk_size).
  { by rewrite length_store_block. }
  assert (Hslots1 : ∀ s k d, slot_serving w s k d →
            slot_serving w1 s k
              (if decide (k = kt) then store_block dt n x else d)).
  { intros s k d Hserv.
    by eapply (slot_serving_update w w1 s k d kt prt dt stt). }
  (* the reads of the other data disks *)
  destruct (xor_other_disks_value (Z.to_nat num_disks) 0 t
              (replicate (Z.to_nat block_size) x00) w1)
    as (parity & w2 & Hxor & Hval & Hlen_parity & Hp2 & Hq2 & Hf2 & Hc2
        & Hfs2);
    try lia.
  { intros s Hs. destruct (Hslots s) as (k & d & Hserv); [lia|].
    eexists k, _. by apply Hslots1. }
  { rewrite length_replicate. lia. }
  rewrite Z2Nat.id in Hval by lia.
  assert (Hothers : parity_of_others w t = Some parity).
  { rewrite <- Hval. unfold parity_of_others, xor_blocks_from. symmetry.
    apply xor_fold_same. intros s Hs Hne.
    apply elem_of_seqZ in Hs.
    destruct (Hslots s) as (k & d & Hserv); [lia|].
    pose proof (Hslots1 s k d Hserv) as Hserv1.
    destruct (decide (k = kt)) as [->|].
    { exfalso. apply Hne. apply (Hsame_worker s t kt d dt); [lia..|done|done]. }
    unfold block_of.
    by rewrite (slot_serving_disk _ _ _ _ Hserv),
               (slot_serving_disk _ _ _ _ Hserv1). }
  (* the write to the parity disk *)
  assert (Hkne : kp ≠ kt).
  { intros ->. assert (num_disks = t); [|lia].
    apply (Hsame_worker num_disks t kt dp dt); [lia..|done|done]. }
  assert (Hservp2 : slot_serving w2 num_disks kp dp).
  { eapply slot_serving_same; [done..|].
    pose proof (Hslots1 num_disks kp dp Hservp) as H.
    by destruct (decide (kp = kt)). }
  set (m := Z.quot n num_disks) in *.
  assert (Hin_p : in_disk dp m = true).
  { assert (0 <= m <= n).
    { subst m. rewrite Z.quot_div_nonneg by lia. split.
      - apply Z.div_pos; lia.
      - apply Z.div_le_upper_bound; nia. }
    unfold in_disk. apply andb_true_iff. split; [nia|]. nia. }
  assert (Hlen_px : Z.of_nat (length (xor_block parity x)) = block_size).
  { rewrite length_xor_block. lia. }
  destruct (write_block_to_disk_serving_fs w2 n (xor_block parity x) 1
              num_disks kp dp Hservp2)
    as (w3 & prp & stp & Hwritep & Hprp & Hstp & Hp3 & Hq3 & Hf3 & Hc3
        & Hfs3);
    [done..|].
  fold m in Hp3.
  assert (Hlen_p : Z.of_nat (length (store_block dp m (xor_block parity x)))
                   = disk_size).
  { by rewrite length_store_block. }
  assert (Hslots3 : ∀ s k d, slot_serving w s k d →
            slot_serving w3 s k
              (if decide (k = kp) then store_block dp m (xor_block parity x)
               else if decide (k = kt) then store_block dt n x else d)).
  { intros s k d Hserv.
    eapply (slot_serving_update w2 w3 s k _ kp prp dp stp); try done.
    eapply slot_serving_same; [done..|]. by apply Hslots1. }
  exists w3, parity.
  split; [|split; [done|split; [|split; [|split; [|split; [|congruence]]]]]].
  - unfold write_block. rewrite Hvalid.
    assert (Hflag : write_block_parity_flag i = 0).
    { unfold write_block_parity_flag. fold t.
      destruct (Z.eqb_spec t num_disks); [lia | done]. }
    rewrite Hflag. unfold mbind, M_bind. rewrite Hwrite. simpl.
    unfold update_parity, mbind, M_bind. fold t n. rewrite Hxor, Hwritep.
    done.
  - intros s d Hs Hdisk.
    destruct (Hslots s Hs) as (k & d' & Hserv).
    assert (d' = d) as ->.
    { rewrite (slot_serving_disk _ _ _ _ Hserv) in Hdisk. congruence. }
    rewrite (slot_serving_disk _ _ _ _ (Hslots3 s k d Hserv)). f_equal.
    destruct (decide (s = t)) as [->|Hst'].
    + assert (k = kt) as ->.
      { pose proof (slot_serving_pid _ _ _ _ Hserv) as H1.
        pose proof (slot_serving_pid _ _ _ _ Hservt) as H2.
        rewrite H1 in H2. injection H2. lia. }
      assert (d = dt) as ->.
      { pose proof (slot_serving_disk _ _ _ _ Hserv).
        pose proof (slot_serving_disk _ _ _ _ Hservt). congruence. }
      destruct (decide (kt = kp)); [congruence|].
      by destruct (decide (kt = kt)).
    + destruct (decide (s = num_disks)) as [->|Hsp].
      * assert (k = kp) as ->.
        { pose proof (slot_serving_pid _ _ _ _ Hserv) as H1.
          pose proof (slot_serving_pid _ _ _ _ Hservp) as H2.
          rewrite H1 in H2. injection H2. lia. }
        assert (d = dp) as ->.
        { pose proof (slot_serving_disk _ _ _ _ Hserv).
          pose proof (slot_serving_disk _ _ _ _ Hservp). congruence. }
        by destruct (decide (kp = kp)).
      * destruct (decide (k = kp)) as [->|].
        { exfalso. apply Hsp.
          apply (Hsame_worker s num_disks kp d dp); [lia..|done|done]. }
        destruct (decide (k = kt)) as [->|]; [|done].
        exfalso. apply Hst'.
        apply (Hsame_worker s t kt d dt); [lia..|done|done].
  - assert (Hctl : controllers w3 = controllers w) by congruence.
    split; [split|].
    + intros s Hs. destruct (Hslots s Hs) as (k & d & Hserv).
      eapply slot_serving_ready. by apply Hslots3.
    + intros s Hs. rewrite !(pid_of_same w w3) by done. by apply Hpids.
    + intros s s' Hs Hs' Hne. rewrite !(pid_of_same w w3) by done.
      by apply Hdist.
  - congruence.
  - intros k. rewrite Hp3, Hp2, Hp1.
    assert (Hprp' : procs w !! kp = Some prp).
    { rewrite Hp2, Hp1 in Hprp.
      by rewrite list_lookup_insert_ne in Hprp by congruence. }
    destruct (decide (k = kp)) as [->|Hk1].
    + rewrite list_lookup_insert_eq
        by (rewrite length_insert; by eapply lookup_lt_Some).
      by rewrite Hprp'.
    + rewrite list_lookup_insert_ne by congruence.
      destruct (decide (k = kt)) as [->|Hk2].
      * rewrite list_lookup_insert_eq by (by eapply lookup_lt_Some).
        by rewrite Hprt.
      * by rewrite list_lookup_insert_ne by congruence.
Qed.

(** X1.  On an array in service, [write_block (i, x)] for a valid [i] and a
    payload of [block_size] bytes returns 0, and afterwards: the data
    disk [i % num_disks] holds [x] at block [i / num_disks]; the parity
    disk holds, at block [(i / num_disks) / num_disks], the XOR of [x]
    and of block 0 of the other data disks; every other disk is as it
    was; and the array is in service again. *)
Theorem write_block_effect (i : Z) (x : list byte) (w : world) :
  0 < num_disks → 0 < block_size →
  array_in_service w →
  invalid_block i = false →
  Z.of_nat (length x) = block_size →
  ∃ w' others,
    write_block i (Some x) w = Ret 0 w'
    ∧ parity_of_others w (Z.rem i num_disks) = Some others
    ∧ (∀ s d, 0 <= s <= num_disks → disk_of w s = Some d →
         disk_of w' s
         = Some (if decide (s = Z.rem i num_disks)
                 then store_block d (Z.quot i num_disks) x
                 else if decide (s = num_disks)
                 then store_block d (Z.quot (Z.quot i num_disks) num_disks)
                                  (xor_block others x)
                 else d))
    ∧ array_in_service w'.
Proof.
  intros HD HB Hserv Hvalid Hx.
  destruct (write_block_run i x w HD HB Hserv Hvalid Hx)
    as (w' & others & Hwrite & Hothers & Hdisks & Hserv' & _).
  by exists w', others.
Qed.

End Effects.

Section MoreEffects.
Context {cfg : raid_config}.






Lemma valid_block_in_disk i d :
  0 < num_disks → 0 < block_size →
  invalid_block i = false → Z.of_nat (length d) = disk_size →
  0 <= Z.rem i num_disks < num_disks
  ∧ in_disk d (Z.quot i num_disks) = true
  ∧ in_disk d (Z.quot (Z.quot i num_disks) num_disks) = true
  ∧ in_disk d 0 = true.
Proof.
  intros HD HB Hvalid Hd.
  assert (Hi : 0 <= i < Z.quot disk_size block_size).
  { unfold invalid_block in Hvalid. apply orb_false_iff in Hvalid. lia. }
  assert (HS : (i + 1) * block_size <= disk_size).
  { assert (0 <= disk_size) by lia.
    rewrite Z.quot_div_nonneg in Hi by lia.
    pose proof (Z.mul_div_le disk_size block_size HB). nia. }
  assert (Hq : ∀ a, 0 <= a → 0 <= Z.quot a num_disks <= a).
  { intros a Ha. rewrite Z.quot_div_nonneg by lia. split.
    - apply Z.div_pos; lia.
    - apply Z.div_le_upper_bound; nia. }
  assert (Hn : 0 <= Z.quot i num_disks <= i) by (apply Hq; lia).
  assert (Hm : 0 <= Z.quot (Z.quot i num_disks) num_disks
               <= Z.quot i num_disks) by (apply Hq; lia).
  split; [apply Z.rem_bound_pos; lia|].
  unfold in_disk. rewrite !andb_true_iff. repeat split; nia.
Qed.

(** The XOR fold of the parity update yields a block. *)
Lemma xor_blocks_from_length w t l :
  (∀ s b, s ∈ l → block_of w s 0 = Some b →
          Z.of_nat (length b) = block_size) →
  ∀ acc r, Z.of_nat (length acc) = block_size →
           xor_blocks_from w t acc l = Some r →
           Z.of_nat (length r) = block_size.
Proof.
  unfold xor_blocks_from.
  induction l as [|s l IH]; intros Hblocks acc r Hacc; simpl.
  - by intros [= <-].
  - destruct (Z.eqb_spec s t).
    + apply IH; [|done]. intros s' b ?. apply Hblocks. by right.
    + simpl. destruct (block_of w s 0) as [b|] eqn:Hb; simpl.
      * apply IH.
        -- intros s' b' ?. apply Hblocks. by right.
        -- rewrite length_xor_block.
           assert (Z.of_nat (length b) = block_size)
             by (apply (Hblocks s); [by left | done]).
           lia.
      * intros H. exfalso. clear -H.
        induction l as [|s' l IH']; simpl in H; [done|].
        destruct (s' =? t); by apply IH'.
Qed.

(** Folding in all blocks, one of which is [x], is folding in the others
    and then [x]. *)
Lemma xor_fold_shift (bw : Z → option (list byte)) t x l :
  ∀ o,
    foldl (λ acc s, if s =? t then acc
                    else a ← acc; b ← bw s; Some (xor_block a b))
          (a ← o; Some (xor_block a x)) l
    = a ← foldl (λ acc s, if s =? t then acc
                          else a ← acc; b ← bw s; Some (xor_block a b))
                o l;
      Some (xor_block a x).
Proof.
  induction l as [|s l IH]; intros o; [done|]. simpl.
  rewrite <- IH. f_equal. destruct (s =? t); [done|].
  destruct o as [a|]; simpl; [|done].
  destruct (bw s) as [b|]; simpl; [|done]. f_equal.
  rewrite !xor_block_assoc. f_equal. apply xor_block_comm.
Qed.

Lemma xor_fold_without (bw bw' : Z → option (list byte)) t l :
  t ∉ l → (∀ s, s ∈ l → bw' s = bw s) →
  ∀ o,
    foldl (λ acc s, a ← acc; b ← bw' s; Some (xor_block a b)) o l
    = foldl (λ acc s, if s =? t then acc
                      else a ← acc; b ← bw s; Some (xor_block a b)) o l.
Proof.
  induction l as [|s l IH]; intros Hnot Hsame o; [done|]. simpl.
  apply not_elem_of_cons in Hnot as [Hne Hnot].
  rewrite IH by (done || intros; apply Hsame; by right).
  destruct (Z.eqb_spec s t); [congruence|].
  by rewrite Hsame by (by left).
Qed.

Lemma xor_fold_with (bw bw' : Z → option (list byte)) t x l :
  NoDup l → t ∈ l → bw' t = Some x →
  (∀ s, s ∈ l → s ≠ t → bw' s = bw s) →
  ∀ o,
    foldl (λ acc s, a ← acc; b ← bw' s; Some (xor_block a b)) o l
    = a ← foldl (λ acc s, if s =? t then acc
                          else a ← acc; b ← bw s; Some (xor_block a b))
                o l;
      Some (xor_block a x).
Proof.
  induction l as [|s l IH]; intros Hnd Hin Hx Hsame o.
  { by apply elem_of_nil in Hin. }
  apply NoDup_cons in Hnd as [Hs Hnd]. simpl.
  destruct (Z.eqb_spec s t) as [->|Hne].
  - rewrite Hx.
    rewrite (xor_fold_without bw bw' t l Hs)
      by (intros s ?; apply Hsame; [by right | congruence]).
    replace (o ≫= λ a, Some x ≫= λ b, Some (xor_block a b))
      with (a ← o; Some (xor_block a x)) by (by destruct o).
    apply xor_fold_shift.
  - apply elem_of_cons in Hin as [->|Hin]; [done|].
    rewrite Hsame by (by left || done).
    apply IH; try done. intros. apply Hsame; [by right | done].
Qed.

(** X2.  A write into stripe 0 leaves stripe 0 consistent: parity block 0 is
    the XOR of block 0 of all the data disks, whatever it was before. *)
Theorem write_to_stripe_0_sets_parity (i : Z) (x : list byte) (w : world) :
  0 < block_size →
  array_in_service w →
  0 <= i < num_disks →
  invalid_block i = false →
  Z.of_nat (length x) = block_size →
  ∃ w', write_block i (Some x) w = Ret 0 w' ∧ parity_holds w' 0.
Proof.
  intros HB Hserv Hi Hvalid Hx.
  assert (HD : 0 < num_disks) by lia.
  destruct (write_block_run i x w HD HB Hserv Hvalid Hx)
    as (w' & others & Hwrite & Hothers & Hdisks & Hserv' & _).
  rewrite Z.rem_small in Hothers, Hdisks by lia.
  rewrite (Z.quot_small i) in Hdisks by lia.
  rewrite (Z.quot_small 0) in Hdisks by lia.
  exists w'. split; [done|].
  destruct Hserv as [Hready Hdist].
  (* the disks before the write *)
  assert (Hdisk : ∀ s, 0 <= s <= num_disks →
            ∃ d, disk_of w s = Some d ∧ Z.of_nat (length d) = disk_size).
  { intros s Hs. destruct Hready as [Hr _].
    destruct (slot_ready_serving w s (Hr s Hs)) as (k & d & Hs').
    exists d. split; [by eapply slot_serving_disk|].
    by eapply slot_serving_length. }
  assert (Hin0 : ∀ d, Z.of_nat (length d) = disk_size → in_disk d 0 = true).
  { intros d Hd. by apply (valid_block_in_disk i d HD HB Hvalid Hd). }
  (* block 0 of every disk after the write *)
  assert (Hdata : ∀ s, 0 <= s < num_disks → s ≠ i →
            block_of w' s 0 = block_of w s 0).
  { intros s Hs Hne. destruct (Hdisk s) as (d & Hd & _); [lia|].
    unfold block_of. rewrite (Hdisks s d) by (lia || done). rewrite Hd.
    destruct (decide (s = i)); [done|].
    destruct (decide (s = num_disks)); [lia | done]. }
  assert (Hnew : block_of w' i 0 = Some x).
  { destruct (Hdisk i) as (d & Hd & Hlen); [lia|].
    unfold block_of. rewrite (Hdisks i d) by (lia || done). simpl.
    destruct (decide (i = i)); [|done].
    by rewrite load_store_block by auto. }
  assert (Hlen_others : Z.of_nat (length others) = block_size).
  { apply (xor_blocks_from_length w i (seqZ 0 num_disks))
      with (replicate (Z.to_nat block_size) x00); [|by rewrite length_replicate; lia|done].
    intros s b Hs Hb. apply elem_of_seqZ in Hs.
    destruct (Hdisk s) as (d & Hd & Hlen); [lia|].
    unfold block_of in Hb. rewrite Hd in Hb. injection Hb as <-.
    apply length_load_block; [lia | auto]. }
  assert (Hparity : block_of w' num_disks 0 = Some (xor_block others x)).
  { destruct (Hdisk num_disks) as (d & Hd & Hlen); [lia|].
    unfold block_of. rewrite (Hdisks num_disks d) by (lia || done). simpl.
    destruct (decide (num_disks = i)); [lia|].
    destruct (decide (num_disks = num_disks)); [|done].
    rewrite load_store_block; [done|auto|].
    rewrite length_xor_block. lia. }
  assert (Hstripe : stripe_xor w' 0 = Some (xor_block others x)).
  { unfold stripe_xor.
    rewrite (xor_fold_with (λ s, block_of w s 0) (λ s, block_of w' s 0)
               i x (seqZ 0 num_disks)).
    - unfold parity_of_others, xor_blocks_from in Hothers.
      by rewrite Hothers.
    - apply NoDup_seqZ.
    - apply elem_of_seqZ. lia.
    - done.
    - intros s Hs Hne. apply elem_of_seqZ in Hs. apply Hdata; [lia|done]. }
  split; [by rewrite Hstripe | by rewrite Hstripe].
Qed.



End MoreEffects.

(** The fresh array of the scenario is in service, each slot with its
    own worker. *)
Lemma fresh_array_in_service : array_in_service (cfg := cfg344) fresh_array.
Proof.
  split; [exact fresh_array_ready|].
  intros s s' Hs Hs' Hne. change (@num_disks cfg344) with 3 in *.
  assert (s = 0 ∨ s = 1 ∨ s = 2 ∨ s = 3) as [-> | [-> | [-> | ->]]] by lia;
    assert (s' = 0 ∨ s' = 1 ∨ s' = 2 ∨ s' = 3) as [-> | [-> | [-> | ->]]]
      by lia;
    try congruence; vm_compute; discriminate.
Qed.

Lemma write_block_effect_witness :
  ∃ w' others,
    write_block (cfg := cfg344) 3 (Some ones4) fresh_array = Ret 0 w'
    ∧ parity_of_others (cfg := cfg344) fresh_array (Z.rem 3 3) = Some others
    ∧ (∀ s d, 0 <= s <= 3 → disk_of fresh_array s = Some d →
         disk_of w' s
         = Some (if decide (s = Z.rem 3 3)
                 then store_block (cfg := cfg344) d (Z.quot 3 3) ones4
                 else if decide (s = 3)
                 then store_block (cfg := cfg344) d (Z.quot (Z.quot 3 3) 3)
                                  (xor_block others ones4)
                 else d))
    ∧ array_in_service (cfg := cfg344) w'.
Proof.
  apply (write_block_effect (cfg := cfg344) 3 ones4 fresh_array).
  - reflexivity.
  - reflexivity.
  - exact fresh_array_in_service.
  - reflexivity.
  - reflexivity.
Defined.


Lemma write_to_stripe_0_sets_parity_witness :
  ∃ w', write_block (cfg := cfg344) 2 (Some ones4) fresh_array = Ret 0 w'
        ∧ parity_holds (cfg := cfg344) w' 0.
Proof.
  apply (write_to_stripe_0_sets_parity (cfg := cfg344) 2 ones4 fresh_array).
  - reflexivity.
  - exact fresh_array_in_service.
  - split; [discriminate | reflexivity].
  - reflexivity.
  - reflexivity.
Defined.


(** ** A failed disk *)

Section Failure.
Context {cfg : raid_config}.

Lemma slot_dead_same w w' s :
  procs w' = procs w → ctl_fds w' = ctl_fds w →
  controllers w' = controllers w →
  slot_dead w s → slot_dead w' s.
Proof.
  intros Hp Hf Hc (cs & c & p & ? & ? & ? & ? & Hopen).
  exists cs, c, p. unfold pipe_open in *. rewrite Hp, Hf, Hc. done.
Qed.

Lemma slot_dead_write w s f :
  slot_dead w s →
  ∃ c, get_controller s w = Ret c w ∧ sys_write (to_disk c).2 f w = Ret false w.
Proof.
  intros (cs & c & p & Hcs & Hs & Hc & Hfd & Hopen). exists c. split.
  - unfold get_controller. rewrite Hcs.
    destruct (Z.leb_spec 0 s); [|lia]. by rewrite Hc.
  - unfold sys_write. by rewrite Hfd, Hopen.
Qed.

Lemma read_block_from_disk_dead w j buf :
  slot_dead w (Z.rem j num_disks) →
  read_block_from_disk j (Some buf) 0 w = Ret (-1, Some buf) w.
Proof.
  intros Hdead.
  destruct (slot_dead_write w _ (FCmd CMD_READ) Hdead) as (c & Hget & Hsend).
  unfold read_block_from_disk, mbind, M_bind. simpl.
  by rewrite Hget, Hsend.
Qed.

Lemma write_block_to_disk_dead w j buf :
  slot_dead w (Z.rem j num_disks) →
  write_block_to_disk j (Some buf) 0 w = Ret (-1) w.
Proof.
  intros Hdead.
  destruct (slot_dead_write w _ (FCmd CMD_WRITE) Hdead) as (c & Hget & Hsend).
  unfold write_block_to_disk, mbind, M_bind. simpl.
  by rewrite Hget, Hsend.
Qed.

(** X5.  Input and output addressed to a disk that is out of service fail at
    the first [write()]: [write_block] returns -1 and [read_block]
    returns [NULL], and nothing has changed.  The lost block is not
    rebuilt from the parity. *)
Theorem io_on_dead_disk_fails (i : Z) (x buf : list byte) (w : world) :
  0 < num_disks →
  invalid_block i = false →
  slot_dead w (Z.rem i num_disks) →
  write_block i (Some x) w = Ret (-1) w
  ∧ read_block i (Some buf) w = Ret None w.
Proof.
  intros HD Hvalid Hdead.
  assert (Hi : 0 <= i).
  { unfold invalid_block in Hvalid. apply orb_false_iff in Hvalid. lia. }
  assert (Ht : 0 <= Z.rem i num_disks < num_disks)
    by (apply Z.rem_bound_pos; lia).
  assert (Hflag : write_block_parity_flag i = 0).
  { unfold write_block_parity_flag.
    destruct (Z.eqb_spec (Z.rem i num_disks) num_disks); [lia | done]. }
  split.
  - unfold write_block. rewrite Hvalid, Hflag.
    unfold mbind, M_bind. by rewrite write_block_to_disk_dead.
  - unfold read_block. rewrite Hvalid.
    unfold mbind, M_bind. by rewrite read_block_from_disk_dead.
Qed.

Lemma proc_of_pid_inv x k : proc_of_pid x = Some k → x = Z.of_nat k + 1.
Proof.
  unfold proc_of_pid. destruct (Z.ltb_spec 0 x); [|done]. intros [= <-]. lia.
Qed.

Lemma pipe_open_false w p e :
  pipe_open w p e = false ↔
  holds (ctl_fds w) (Pipe p e) = false
  ∧ ∀ j pr, procs w !! j = Some pr → alive pr = true →
            holds (p_fds pr) (Pipe p e) = false.
Proof.
  unfold pipe_open. rewrite orb_false_iff. split; intros [Hc Hp]; split;
    try done.
  - intros j pr Hj Hal.
    destruct (holds (p_fds pr) (Pipe p e)) eqn:Hh; [|done].
    assert (Hex : existsb (λ pr, alive pr && holds (p_fds pr) (Pipe p e))
                          (procs w) = true).
    { apply existsb_exists. exists pr. split.
      - apply list_elem_of_In. by eapply list_elem_of_lookup_2.
      - by rewrite Hal, Hh. }
    congruence.
  - destruct (existsb _ _) eqn:Hex; [|done].
    apply existsb_exists in Hex as (pr & Hin & Hpr).
    apply list_elem_of_In, list_elem_of_lookup in Hin as (j & Hj).
    apply andb_true_iff in Hpr as [Hal Hh].
    rewrite (Hp j pr Hj Hal) in Hh. done.
Qed.

Lemma set_procs_ext g l w : g (procs w) = l → set_procs g w = set_procs (λ _, l) w.
Proof. unfold set_procs. by intros ->. Qed.

Lemma set_procs_twice g h w :
  set_procs g (set_procs h w) = set_procs (λ l, g (h l)) w.
Proof. done. Qed.

(** X6.  What [simulate_disk_failure] does to a disk in service whose pipe
    only its own worker reads: it returns, the worker is gone with its
    memory and without a checkpoint, the slot is out of service, and
    the other disks are in service as before. *)
Theorem disk_failure_effect (s : Z) (k : nat) (d : list byte) (w : world) :
  slot_serving w s k d →
  slot_private w s →
  ∃ w', simulate_disk_failure s w = Ret () w'
    ∧ slot_dead w' s
    ∧ disk_of w' s = None
    ∧ (p_state <$> procs w' !! k) = Some Killed
    ∧ fs w' = fs w ∧ pipes w' = pipes w ∧ ctl_fds w' = ctl_fds w
    ∧ controllers w' = controllers w
    ∧ (∀ s' k' d', k' ≠ k → slot_serving w s' k' d' → slot_serving w' s' k' d').
Proof.
  intros (cs & c & pin & pout & pr & st & Hcs & Hs & Hc & Hpid
          & (Hfdw & Hfdr & Hfind & Hk & Hin & Hout & Hne)
          & Hrun & Hpin & Hpout & Hlen)
         (cs' & c' & p' & k' & Hcs' & _ & Hc' & Hfdw' & Hpid' & Hctl & Honly).
  assert (cs' = cs) as -> by congruence.
  assert (c' = c) as -> by congruence.
  assert (k' = k) as -> by congruence.
  assert (p' = pin) as -> by congruence.
  assert (Halive : alive pr = true) by (unfold alive; by rewrite Hrun).
  assert (Hget : get_controller s w = Ret c w).
  { unfold get_controller. rewrite Hcs.
    destruct (Z.leb_spec 0 s); [|lia]. by rewrite Hc. }
  set (pr1 := set_state Killed pr).
  set (pr' := if p_reaped pr then pr1 else set_reaped pr1).
  assert (Hrun' : simulate_disk_failure s w
                  = Ret () (set_procs (λ _, <[k := pr']> (procs w)) w)).
  { unfold simulate_disk_failure, mbind, M_bind. rewrite Hget.
    unfold sys_kill. rewrite Hpid, Hk, Halive.
    unfold sys_waitpid. rewrite Hpid. wsimpl.
    rewrite (list_alter_insert _ _ _ pr) by done. fold pr1.
    assert (Hk1 : <[k := pr1]> (procs w) !! k = Some pr1).
    { apply list_lookup_insert_eq. by eapply lookup_lt_Some. }
    cbn [mbind option_bind]. rewrite Hk1. cbn [mbind option_bind].
    change (alive pr1) with false. change (p_reaped pr1) with (p_reaped pr).
    unfold pr'. cbv iota.
    destruct (p_reaped pr); unfold mret, M_ret; f_equal.
    - apply set_procs_ext. by apply list_alter_insert.
    - rewrite set_procs_twice. apply set_procs_ext.
      rewrite (list_alter_insert (set_state Killed) _ _ pr) by done.
      fold pr1. rewrite (list_alter_insert _ _ _ pr1) by exact Hk1.
      by rewrite list_insert_insert_eq. }
  assert (Hst' : p_state pr' = Killed) by (unfold pr'; by destruct (p_reaped pr)).
  assert (Hfds' : p_fds pr' = p_fds pr) by (unfold pr'; by destruct (p_reaped pr)).
  assert (Hdead' : alive pr' = false) by (unfold alive; by rewrite Hst').
  assert (Hklt : (k < length (procs w))%nat) by (by eapply lookup_lt_Some).
  eexists. split; [exact Hrun'|]. wsimpl.
  split.
  { exists cs, c, pin. wsimpl. repeat split; try done.
    apply pipe_open_false. wsimpl. split; [done|].
    intros j prj Hj Hal. destruct (decide (j = k)) as [->|Hjk].
    - rewrite list_lookup_insert_eq in Hj by done. congruence.
    - rewrite list_lookup_insert_ne in Hj by done. by eapply Honly. }
  split.
  { unfold disk_of. wsimpl. rewrite Hcs.
    destruct (Z.leb_spec 0 s); [|lia]. rewrite Hc. simpl. rewrite Hpid. simpl.
    rewrite list_lookup_insert_eq by done. simpl. by rewrite Hst'. }
  split.
  { rewrite list_lookup_insert_eq by done. simpl. by rewrite Hst'. }
  do 4 (split; [done|]).
  intros s2 k2 d2 Hk2
         (cs2 & c2 & pin2 & pout2 & pr2 & st2 & Hcs2 & Hs2 & Hc2 & Hpid2
          & (Hfdw2 & Hfdr2 & Hfind2 & Hk2' & Hin2 & Hout2 & Hne2)
          & Hrun2 & Hpin2 & Hpout2 & Hlen2).
  exists cs2, c2, pin2, pout2, pr2, st2. unfold serving. wsimpl.
  repeat split; try done.
  - rewrite <- Hfind2. apply find_reader_insert with pr; [done|].
    unfold reads_from. rewrite Hdead', Halive. simpl.
    symmetry. apply bool_decide_eq_false. rewrite Hin. intros [= <-].
    congruence.
  - by rewrite list_lookup_insert_ne.
Qed.

Lemma slot_dead_update w w' s k0 pr0 d0 st0 d0' :
  procs w !! k0 = Some pr0 → p_state pr0 = Running d0 st0 →
  procs w' = <[k0 := set_state (Running d0' st0) pr0]> (procs w) →
  ctl_fds w' = ctl_fds w → controllers w' = controllers w →
  slot_dead w s → slot_dead w' s.
Proof.
  intros Hk0 Hst0 Hp Hf Hc (cs & c & p & Hcs & Hs & Hcl & Hfd & Hopen).
  exists cs, c, p. rewrite Hf, Hc. repeat split; try done.
  apply pipe_open_false in Hopen as [Hh Hall].
  apply pipe_open_false. rewrite Hf, Hp. split; [done|].
  intros j pr Hj Hal. destruct (decide (j = k0)) as [->|Hne].
  - rewrite list_lookup_insert_eq in Hj by (by eapply lookup_lt_Some).
    injection Hj as <-. apply (Hall k0 pr0 Hk0).
    unfold alive. by rewrite Hst0.
  - rewrite list_lookup_insert_ne in Hj by done. by eapply Hall.
Qed.

(** The parity loop of [write_block] stops at the first disk that is out
    of service. *)
Lemma xor_other_disks_dead n :
  ∀ i disk_num parity_data w s,
    0 < block_size → block_size <= disk_size →
    0 <= i → i <= s < i + Z.of_nat n → s < num_disks → s ≠ disk_num →
    slot_dead w s →
    (∀ j, i <= j < s → j ≠ disk_num → ∃ k d, slot_serving w j k d) →
    ∃ w',
      xor_other_disks n i disk_num parity_data w = Ret None w'
      ∧ procs w' = procs w ∧ pipes w' = pipes w ∧ ctl_fds w' = ctl_fds w
      ∧ controllers w' = controllers w.
Proof.
  induction n as [|n IH];
    intros i disk_num parity_data w s HB HS Hi Hs Hsn Hsd Hdead Hslots; [lia|].
  cbn [xor_other_disks]. destruct (Z.eqb_spec i disk_num) as [->|Hne].
  - cbn [negb]. apply (IH _ _ _ _ s); try done; try lia.
    intros j Hj. apply Hslots. lia.
  - cbn [negb]. destruct (decide (i = s)) as [->|His].
    + exists w. unfold mbind, M_bind.
      rewrite read_block_from_disk_dead
        by (by rewrite Z.rem_small by lia).
      done.
    + destruct (Hslots i) as (k & d & Hserv); [lia|done|].
      pose proof (slot_serving_length _ _ _ _ Hserv) as Hd.
      destruct (read_block_from_disk_serving w i
                  (replicate (Z.to_nat block_size) x00) 0 i k d Hserv)
        as (w1 & Hread & Hp1 & Hq1 & Hf1 & Hc1).
      { simpl. symmetry. apply Z.rem_small. lia. }
      { rewrite Z.quot_small by lia. unfold in_disk.
        apply andb_true_iff. lia. }
      { lia. }
      destruct (IH (i + 1) disk_num
                  (xor_block parity_data
                     (load_block d (Z.quot i num_disks)
                      ++ drop (Z.to_nat block_size)
                           (replicate (Z.to_nat block_size) x00))) w1 s)
        as (w2 & Hloop & Hp2 & Hq2 & Hf2 & Hc2); try done; try lia.
      { by eapply slot_dead_same. }
      { intros j Hj Hjd. destruct (Hslots j) as (k' & d' & Hserv'); [lia|done|].
        exists k', d'. by eapply slot_serving_same. }
      exists w2. split; [|split; [|split; [|split]]]; try congruence.
      unfold mbind, M_bind. rewrite Hread. exact Hloop.
Qed.

(** X7.  A write that fails can have taken place.  With another data disk
    out of service, [write_block] stores the block on its disk, then
    fails in the parity update and returns -1: the block is written, no
    other worker has changed, and the parity block is not updated. *)
Theorem degraded_write_is_half_done (i s : Z) (x : list byte) (k : nat)
    (d : list byte) (w : world) :
  0 < num_disks → 0 < block_size →
  invalid_block i = false →
  Z.of_nat (length x) = block_size →
  slot_serving w (Z.rem i num_disks) k d →
  0 <= s < num_disks → s ≠ Z.rem i num_disks →
  slot_dead w s →
  (∀ j, 0 <= j < s → j ≠ Z.rem i num_disks → ∃ k' d', slot_serving w j k' d') →
  ∃ w',
    write_block i (Some x) w = Ret (-1) w'
    ∧ disk_of w' (Z.rem i num_disks)
      = Some (store_block d (Z.quot i num_disks) x)
    ∧ (∀ j, j ≠ k → procs w' !! j = procs w !! j).
Proof.
  intros HD HB Hvalid Hx Hservt Hs Hst Hdead Hslots.
  assert (Hi : 0 <= i < Z.quot disk_size block_size).
  { unfold invalid_block in Hvalid. apply orb_false_iff in Hvalid. lia. }
  set (t := Z.rem i num_disks) in *. set (n := Z.quot i num_disks).
  assert (Ht : 0 <= t < num_disks) by (apply Z.rem_bound_pos; lia).
  assert (Hn : 0 <= n <= i).
  { subst n. rewrite Z.quot_div_nonneg by lia. split.
    - apply Z.div_pos; lia.
    - apply Z.div_le_upper_bound; nia. }
  pose proof (slot_serving_length _ _ _ _ Hservt) as Hdt.
  assert (HS : (i + 1) * block_size <= disk_size).
  { assert (0 <= disk_size) by lia.
    rewrite Z.quot_div_nonneg in Hi by lia.
    pose proof (Z.mul_div_le disk_size block_size HB). nia. }
  assert (Hin_t : in_disk d n = true).
  { unfold in_disk. apply andb_true_iff. split; [lia|]. nia. }
  assert (Hflag : write_block_parity_flag i = 0).
  { unfold write_block_parity_flag. fold t.
    destruct (Z.eqb_spec t num_disks); [lia | done]. }
  destruct (write_block_to_disk_serving w i x 0 t k d Hservt)
    as (w1 & prt & stt & Hwrite & Hprt & Hstt & Hp1 & Hq1 & Hf1 & Hc1);
    [done..|].
  fold n in Hp1.
  assert (Hlen_t : Z.of_nat (length (store_block d n x)) = disk_size).
  { by rewrite length_store_block. }
  destruct (xor_other_disks_dead (Z.to_nat num_disks) 0 t
              (replicate (Z.to_nat block_size) x00) w1 s)
    as (w2 & Hxor & Hp2 & Hq2 & Hf2 & Hc2); try lia; try done.
  { by eapply slot_dead_update. }
  { intros j Hj Hjt. destruct (Hslots j) as (k' & d' & Hserv); [lia|done|].
    eexists k', _.
    by eapply (slot_serving_update w w1 j k' d' k prt d stt). }
  exists w2. split; [|split].
  - unfold write_block. rewrite Hvalid, Hflag. fold t.
    unfold mbind, M_bind. rewrite Hwrite. simpl.
    unfold update_parity, mbind, M_bind. by rewrite Hxor.
  - apply slot_serving_disk with k. eapply slot_serving_same; [done..|].
    pose proof (slot_serving_update w w1 t k d k prt d stt _ Hprt Hstt
                  Hlen_t Hp1 Hq1 Hf1 Hc1 Hservt) as H.
    by rewrite decide_True in H.
  - intros j Hj. rewrite Hp2, Hp1. by rewrite list_lookup_insert_ne.
Qed.

End Failure.

(** ** Restarting a disk *)

Section Restart.
Context {cfg : raid_config}.

Lemma close_all_cons (fds : gmap Z file_obj) a l :
  close_all fds (a :: l) = close_all (delete a fds) l.
Proof. done. Qed.

Lemma close_all_lookup_in (l : list Z) :
  ∀ (fds : gmap Z file_obj) fd, fd ∈ l → close_all fds l !! fd = None.
Proof.
  induction l as [|a l IH]; intros fds fd Hin; [by apply elem_of_nil in Hin|].
  rewrite close_all_cons.
  destruct (decide (fd ∈ l)) as [Hl|Hl]; [by apply IH|].
  apply elem_of_cons in Hin as [->|?]; [|done].
  rewrite close_all_lookup_ne by done. apply lookup_delete_eq.
Qed.

(** The child of [restart_disk] closes the write end to every disk. *)
Lemma restart_closes_to_disk cs num n :
  ∀ i j, i <= j < i + Z.of_nat n →
    (to_disk (default uninitialized (cs !! Z.to_nat j))).2
      ∈ restart_closes cs num n i.
Proof.
  induction n as [|n IH]; intros i j Hj; [lia|].
  cbn [restart_closes]. apply elem_of_app.
  destruct (decide (j = i)) as [->|Hne].
  - left. destruct (negb (i =? num)); rewrite !elem_of_cons; auto.
  - right. apply IH. lia.
Qed.

(** In the iteration of its own slot it closes the two ends it would
    need as well. *)
Lemma restart_closes_own cs num n :
  ∀ i, i <= num < i + Z.of_nat n →
    let c := default uninitialized (cs !! Z.to_nat num) in
    (to_disk c).1 ∈ restart_closes cs num n i
    ∧ (from_disk c).2 ∈ restart_closes cs num n i.
Proof.
  induction n as [|n IH]; intros i Hi; [lia|].
  cbn [restart_closes]. cbv zeta. rewrite !elem_of_app.
  destruct (decide (num = i)) as [->|Hne].
  - rewrite Z.eqb_refl. cbn [negb]. split; left; rewrite !elem_of_cons; auto.
  - split; right; apply IH; lia.
Qed.

Lemma child_checkpoint_and_wait_closed pr w :
  (∀ c, c ∈ take (Z.to_nat (num_disks + 1)) (p_controllers pr) →
        p_fds pr !! (to_disk c).2 = None) →
  child_checkpoint_and_wait pr w = w.
Proof.
  unfold child_checkpoint_and_wait.
  generalize (take (Z.to_nat (num_disks + 1)) (p_controllers pr)).
  intros l. revert w. induction l as [|c l IH]; intros w Hl; [done|].
  simpl. unfold child_send_exit at 2. rewrite Hl by set_solver.
  apply IH. intros c' Hc'. apply Hl. set_solver.
Qed.

(** A worker whose [from_parent] is closed ends with [exit(1)] at its
    first [read()].  When the write ends to the disks are closed in it
    too, its [checkpoint_and_wait()] reaches nobody. *)
Lemma run_disk_unreadable k w pr d st :
  procs w !! k = Some pr →
  p_state pr = Running d st →
  inbound pr = None →
  outbound pr = None →
  (∀ c, c ∈ take (Z.to_nat (num_disks + 1)) (p_controllers pr) →
        p_fds pr !! (to_disk c).2 = None) →
  procs (run_disk k w) = alter (set_state (Exited 1)) k (procs w)
  ∧ pipes (run_disk k w) = pipes w
  ∧ fs (run_disk k w) = fs w.
Proof.
  intros Hk Hst Hin Hout Hclosed. unfold run_disk. rewrite Hk, Hst.
  assert (Hturn : disk_turn pr d st w = DiskRun (LoopLeft 1) [] [] (fs w)).
  { unfold disk_turn, start_disk. by rewrite Hin. }
  rewrite Hturn. wsimpl. rewrite child_checkpoint_and_wait_closed by done.
  unfold deliver. rewrite Hin, Hout. by wsimpl.
Qed.

Lemma pipe_to_disk_fs num w rc w' :
  pipe_to_disk num w = Ret rc w' → fs w' = fs w.
Proof.
  unfold pipe_to_disk, get_controller, sys_pipe, put_controller,
    mbind, M_bind, mret, M_ret.
  repeat case_match; intros; simplify_eq; done.
Qed.

Lemma pipe_from_disk_fs num w rc w' :
  pipe_from_disk num w = Ret rc w' → fs w' = fs w.
Proof.
  unfold pipe_from_disk, get_controller, sys_pipe, put_controller,
    mbind, M_bind, mret, M_ret.
  repeat case_match; intros; simplify_eq; done.
Qed.


Lemma restart_child_closed cs num fds tp fp :
  let pr := forked num
              {| cp_close := restart_closes cs num (Z.to_nat (num_disks + 1)) 0;
                 cp_id := num; cp_to_parent := tp; cp_from_parent := fp |}
              fds cs in
  ∀ c, c ∈ take (Z.to_nat (num_disks + 1)) (p_controllers pr) →
       p_fds pr !! (to_disk c).2 = None.
Proof.
  intros pr c Hin. apply elem_of_take in Hin as (j & Hj & Hjlt).
  apply close_all_lookup_in. cbn [cp_close].
  cbn [p_controllers pr forked] in Hj. rewrite list_lookup_alter in Hj.
  assert (Heq : (to_disk c).2
                = (to_disk (default uninitialized
                              (cs !! Z.to_nat (Z.of_nat j)))).2).
  { rewrite Nat2Z.id. case_decide.
    - subst j. destruct (cs !! Z.to_nat num); simplify_eq/=. done.
    - by rewrite Hj. }
  rewrite Heq. apply restart_closes_to_disk. lia.
Qed.

(** What a successful [restart_disk] has done. *)
Lemma restart_disk_inv num w rc w' :
  0 <= num <= num_disks →
  restart_disk num w = Ret rc w' →
  rc ≠ -1 →
  rc = 0 ∧ ∃ cs c0 rd wr rd2 wr2 pr,
    let c := {| pid := Z.of_nat (length (procs w)) + 1;
                to_disk := (rd, wr); from_disk := (rd2, wr2) |} in
    controllers w = TLive cs ∧ cs !! Z.to_nat num = Some c0
    ∧ controllers w' = TLive (<[Z.to_nat num := c]> cs)
    ∧ procs w' = procs w ++ [pr]
    ∧ p_from_parent pr = rd ∧ p_to_parent pr = wr2
    ∧ p_fds pr !! rd = None ∧ p_fds pr !! wr2 = None
    ∧ p_state pr = Exited 1
    ∧ pipes w' = pipes w ++ [[]; []]
    ∧ fs w' = fs w
    ∧ ctl_fds w !! rd = None ∧ ctl_fds w !! wr = None
    ∧ ctl_fds w !! rd2 = None ∧ ctl_fds w !! wr2 = None
    ∧ ctl_fds w'
      = delete wr2 (delete rd
          (<[wr2 := Pipe (S (length (pipes w))) WrEnd]>
             (<[rd2 := Pipe (S (length (pipes w))) RdEnd]>
                (<[wr := Pipe (length (pipes w)) WrEnd]>
                   (<[rd := Pipe (length (pipes w)) RdEnd]> (ctl_fds w))))))
    ∧ rd ≠ wr ∧ wr ≠ wr2 ∧ wr ≠ rd2.
Proof.
  intros Hnum H Hrc. unfold restart_disk in H.
  apply bind_ret_inv in H as (rc1 & w1 & H1 & H).
  pose proof (pipe_to_disk_fs _ _ _ _ H1) as Hfs1.
  apply pipe_to_disk_inv in H1
    as [(-> & ->) | (-> & cs & c0 & rd & wr & Hcs & _ & Hc0 & Hcs1 & Hprocs1
                     & Hforks1 & Hrd & Hwr & Hne & Hfds1 & Hpipes1)];
    [by injection H as <-|].
  simpl in H.
  apply bind_ret_inv in H as (rc2 & w2 & H2 & H).
  pose proof (pipe_from_disk_fs _ _ _ _ H2) as Hfs2.
  apply pipe_from_disk_inv in H2
    as [(-> & ->) | (-> & cs1 & c1 & rd2 & wr2 & Hcs1' & _ & Hc1 & Hcs2
                     & Hprocs2 & Hforks2 & Hrd2 & Hwr2 & Hne2 & Hfds2
                     & Hpipes2)];
    [by injection H as <-|].
  simpl in H.
  assert (Hlt : (Z.to_nat num < length cs)%nat)
    by (by eapply lookup_lt_Some).
  assert (cs1 = <[Z.to_nat num := with_to_disk (rd, wr) c0]> cs) as ->
    by congruence.
  rewrite list_lookup_insert_eq in Hc1 by done.
  injection Hc1 as <-.
  rewrite list_insert_insert_eq in Hcs2.
  set (c2 := with_from_disk (rd2, wr2) (with_to_disk (rd, wr) c0)) in *.
  set (cs2 := <[Z.to_nat num := c2]> cs) in *.
  assert (Hc2 : cs2 !! Z.to_nat num = Some c2)
    by (by apply list_lookup_insert_eq).
  apply bind_ret_inv in H as (c & w3 & Hget & H).
  apply get_controller_eq in Hget as (-> & cs' & Hcs' & _ & Hc).
  assert (cs' = cs2) as -> by congruence.
  assert (c = c2) as -> by congruence.
  apply bind_ret_inv in H as (cs' & w3 & Hget & H).
  unfold get_table in Hget. rewrite Hcs2 in Hget. injection Hget as <- <-.
  apply bind_ret_inv in H as (x & w3 & Hfork & H).
  apply bind_ret_inv in H as (u & w4 & Hput & H).
  apply put_controller_inv in Hput as (cs3 & Hcs3 & ->).
  unfold sys_fork in Hfork. rewrite Hcs2 in Hfork.
  destruct (forks_left w2) as [|n] eqn:Hn.
  { injection Hfork as <- <-. by injection H as <-. }
  injection Hfork as <- <-.
  destruct (Z.ltb_spec (Z.of_nat (length (procs w2)) + 1) 0) as [?|_]; [lia|].
  apply bind_ret_inv in H as (u1 & w5 & Hc1 & H).
  apply bind_ret_inv in H as (u2 & w6 & Hc2' & H).
  injection H as <- <-.
  unfold sys_close, modify in Hc1, Hc2'.
  injection Hc1 as <- <-. injection Hc2' as <- <-.
  set (pr0 := forked num _ (ctl_fds w2) cs2) in *.
  set (wf := set_procs (λ ps, ps ++ [pr0]) (set_forks_left n w2)) in *.
  assert (Hk : procs wf !! length (procs w2) = Some pr0).
  { unfold wf. wsimpl. by rewrite lookup_app_r, Nat.sub_diag by lia. }
  assert (Hown := restart_closes_own cs2 num (Z.to_nat (num_disks + 1)) 0).
  rewrite Hc2 in Hown. cbn [default] in Hown.
  destruct Hown as [Hrdin Hwr2in]; [lia|].
  assert (Hrdc : p_fds pr0 !! rd = None)
    by (by apply close_all_lookup_in).
  assert (Hwr2c : p_fds pr0 !! wr2 = None)
    by (by apply close_all_lookup_in).
  assert (Hclosed := restart_child_closed cs2 num (ctl_fds w2) wr2 rd).
  fold pr0 in Hclosed.
  destruct (run_disk_unreadable (length (procs w2)) wf pr0 fresh_disk 0)
    as (Hprocs & Hpipes & Hfs); try done.
  { unfold inbound. change (p_from_parent pr0) with rd. by rewrite Hrdc. }
  { unfold outbound. change (p_to_parent pr0) with wr2. by rewrite Hwr2c. }
  rewrite (run_disk_keeps controllers) in Hcs3 by done.
  assert (cs3 = cs2) as -> by (unfold wf in Hcs3; wsimpl; congruence).
  split; [done|].
  exists cs, c0, rd, wr, rd2, wr2, (set_state (Exited 1) pr0).
  cbv zeta. wsimpl.
  rewrite Hprocs, Hpipes, Hfs, (run_disk_keeps ctl_fds) by done.
  unfold wf. wsimpl.
  rewrite Hprocs2, Hprocs1 in *.
  repeat split; try done.
  - unfold cs2. rewrite list_insert_insert_eq. done.
  - rewrite alter_app_r_alt by lia. rewrite Nat.sub_diag. done.
  - rewrite Hpipes2, Hpipes1, <- app_assoc. done.
  - congruence.
  - rewrite Hfds1 in Hrd2. by apply lookup_insert_None in Hrd2 as [Hrd2 _];
      apply lookup_insert_None in Hrd2 as [? _].
  - rewrite Hfds1 in Hwr2. by apply lookup_insert_None in Hwr2 as [Hwr2 _];
      apply lookup_insert_None in Hwr2 as [? _].
  - rewrite Hfds2, Hfds1, Hpipes1, length_app. simpl.
    by rewrite Nat.add_1_r.
  - rewrite Hfds1 in Hwr2. apply lookup_insert_None in Hwr2 as [_ ?].
    congruence.
  - rewrite Hfds1 in Hrd2. apply lookup_insert_None in Hrd2 as [_ ?].
    congruence.
Qed.


Lemma find_reader_app p l l' k :
  find_reader p l = Some k → find_reader p (l ++ l') = Some k.
Proof.
  revert k. induction l as [|pr l IH]; intros k; [done|]. simpl.
  destruct (reads_from p pr); [done|].
  destruct (find_reader p l) as [k'|]; [|done].
  intros [= <-]. by rewrite (IH k').
Qed.

(** X8.  [restore_disk_process] does not bring a disk back.  When it returns,
    [controllers[num]] names a new child that was started on the new
    pipes, but that child has closed both descriptors it was started on
    and has ended with [exit(1)]: the slot is out of service. *)
Theorem restore_leaves_disk_dead (num : Z) (w w' : world) :
  0 <= num <= num_disks →
  restore_disk_process num w = Ret () w' →
  ∃ cs c k pr,
    controllers w' = TLive cs ∧ cs !! Z.to_nat num = Some c
    ∧ proc_of_pid (pid c) = Some k ∧ procs w' !! k = Some pr
    ∧ length (procs w') = S (length (procs w))
    ∧ p_from_parent pr = (to_disk c).1 ∧ p_to_parent pr = (from_disk c).2
    ∧ p_fds pr !! p_from_parent pr = None
    ∧ p_fds pr !! p_to_parent pr = None
    ∧ p_state pr = Exited 1
    ∧ disk_of w' num = None
    ∧ slot_ready w' num = false.
Proof.
  intros Hnum H. unfold restore_disk_process in H.
  apply bind_ret_inv in H as (rc & w1 & Hr & H).
  destruct (Z.eqb_spec rc (-1)) as [|Hrc]; [done|].
  injection H as <-.
  apply restart_disk_inv in Hr
    as (-> & cs & c0 & rd & wr & rd2 & wr2 & pr & Hcs & Hc0 & Hcs' & Hprocs
        & Hfp & Htp & Hrd & Hwr2 & Hst & _); [|done..].
  assert (Hlt : (Z.to_nat num < length cs)%nat) by (by eapply lookup_lt_Some).
  assert (Hpid : proc_of_pid (Z.of_nat (length (procs w)) + 1)
                 = Some (length (procs w))).
  { unfold proc_of_pid. destruct (Z.ltb_spec 0 (Z.of_nat (length (procs w)) + 1));
      [f_equal|]; lia. }
  assert (Hk : procs w1 !! length (procs w) = Some pr).
  { rewrite Hprocs. by rewrite lookup_app_r, Nat.sub_diag by lia. }
  eexists _, _, (length (procs w)), pr. split; [exact Hcs'|].
  rewrite list_lookup_insert_eq by done. split; [done|].
  cbn [pid to_disk from_disk fst snd].
  split; [done|]. split; [done|].
  split; [rewrite Hprocs, length_app; simpl; lia|].
  split; [done|]. split; [done|].
  split; [by rewrite Hfp|]. split; [by rewrite Htp|]. split; [done|].
  split.
  - unfold disk_of. rewrite Hcs'.
    destruct (Z.leb_spec 0 num); [|lia].
    rewrite list_lookup_insert_eq by done. simpl.
    rewrite Hpid. simpl. rewrite Hk. simpl. by rewrite Hst.
  - unfold slot_ready. rewrite Hcs'.
    destruct (Z.leb_spec 0 num); [|lia].
    rewrite list_lookup_insert_eq by done. cbn [pid to_disk from_disk fst snd].
    rewrite Hpid, Hk, Hst. repeat case_match; done.
Qed.

(** X9.  [restore_disk_process] leaves the other disks in service, and it
    closes none of the descriptors the controller had: the two it held
    for the old worker of the slot stay open and are no longer
    recorded. *)
Theorem restore_keeps_other_disks (num s : Z) (k : nat) (d : list byte)
    (w w' : world) :
  0 <= num <= num_disks →
  restore_disk_process num w = Ret () w' →
  s ≠ num →
  slot_serving w s k d →
  slot_serving w' s k d ∧ ctl_fds w ⊆ ctl_fds w' ∧ fs w' = fs w.
Proof.
  intros Hnum H Hs Hserv. unfold restore_disk_process in H.
  apply bind_ret_inv in H as (rc & w1 & Hr & H).
  destruct (Z.eqb_spec rc (-1)) as [|Hrc]; [done|].
  injection H as <-.
  apply restart_disk_inv in Hr
    as (-> & cs & c0 & rd & wr & rd2 & wr2 & pr & Hcs & Hc0 & Hcs' & Hprocs
        & Hfp & Htp & Hrd & Hwr2 & Hst & Hpipes & Hfs & Hrd0 & Hwr0 & Hrd20
        & Hwr20 & Hfds & _); [|done..].
  assert (Hsub : ctl_fds w ⊆ ctl_fds w1).
  { apply map_subseteq_spec. intros fd x Hfd. rewrite Hfds.
    rewrite !lookup_delete_ne, !lookup_insert_ne by congruence. done. }
  split; [|done].
  destruct Hserv as (cs0 & c & pin & pout & pr1 & st & Hcs0 & Hs0 & Hc & Hpid
                     & (Hfdw & Hfdr & Hfind & Hk & Hin & Hout & Hne)
                     & Hrun & Hpin & Hpout & Hlen).
  assert (cs0 = cs) as -> by congruence.
  eexists _, c, pin, pout, pr1, st.
  split; [exact Hcs'|]. split; [done|].
  split; [rewrite list_lookup_insert_ne by lia; done|].
  split; [done|].
  split.
  { repeat split; try done.
    - by eapply lookup_weaken.
    - by eapply lookup_weaken.
    - rewrite Hprocs. by apply find_reader_app.
    - rewrite Hprocs. by apply lookup_app_l_Some. }
  split; [done|].
  rewrite Hpipes. split; [by apply lookup_app_l_Some|].
  split; [by apply lookup_app_l_Some|done].
Qed.

End Restart.

(** ** The scenario with a failed disk *)

Lemma slot_serving_at `{cfg : raid_config} w s k d :
  slot_ready w s = true → pid_of w s = Some (Z.of_nat k + 1) →
  disk_of w s = Some d → slot_serving w s k d.
Proof.
  intros Hready Hpid Hdisk.
  destruct (slot_ready_serving w s Hready) as (k' & d' & Hserv).
  pose proof (slot_serving_pid _ _ _ _ Hserv) as Hpid'.
  pose proof (slot_serving_disk _ _ _ _ Hserv) as Hdisk'.
  assert (k' = k) as -> by (rewrite Hpid in Hpid'; injection Hpid'; lia).
  assert (d' = d) as -> by congruence.
  done.
Qed.

Lemma fresh_array_serving_0 :
  slot_serving (cfg := cfg344) fresh_array 0 0 (replicate 16 x00).
Proof. apply slot_serving_at; vm_compute; reflexivity. Qed.

Lemma fresh_array_serving_1 :
  slot_serving (cfg := cfg344) fresh_array 1 1 (replicate 16 x00).
Proof. apply slot_serving_at; vm_compute; reflexivity. Qed.

Lemma fresh_array_private_1 : slot_private fresh_array 1.
Proof.
  exists [{| pid := 1; to_disk := (3, 4); from_disk := (5, 6) |};
          {| pid := 2; to_disk := (3, 6); from_disk := (7, 8) |};
          {| pid := 3; to_disk := (3, 8); from_disk := (9, 10) |};
          {| pid := 4; to_disk := (3, 10); from_disk := (11, 12) |}],
         {| pid := 2; to_disk := (3, 6); from_disk := (7, 8) |}, 2%nat, 1%nat.
  split; [vm_compute; reflexivity|]. split; [lia|].
  split; [reflexivity|]. split; [vm_compute; reflexivity|].
  split; [reflexivity|]. split; [vm_compute; reflexivity|].
  intros j pr Hj Hne Hal. clear Hal.
  destruct j as [|[|[|[|j]]]].
  - vm_compute in Hj. injection Hj as <-. vm_compute. reflexivity.
  - by destruct Hne.
  - vm_compute in Hj. injection Hj as <-. vm_compute. reflexivity.
  - vm_compute in Hj. injection Hj as <-. vm_compute. reflexivity.
  - vm_compute in Hj. discriminate Hj.
Qed.

Lemma failed_array_serving_0 :
  slot_serving (cfg := cfg344) failed_array 0 0 (replicate 16 x00).
Proof. apply slot_serving_at; vm_compute; reflexivity. Qed.

Lemma failed_array_serving_2 :
  slot_serving (cfg := cfg344) failed_array 2 2 (replicate 16 x00).
Proof. apply slot_serving_at; vm_compute; reflexivity. Qed.

Lemma failed_array_dead_1 : slot_dead failed_array 1.
Proof.
  exists [{| pid := 1; to_disk := (3, 4); from_disk := (5, 6) |};
          {| pid := 2; to_disk := (3, 6); from_disk := (7, 8) |};
          {| pid := 3; to_disk := (3, 8); from_disk := (9, 10) |};
          {| pid := 4; to_disk := (3, 10); from_disk := (11, 12) |}],
         {| pid := 2; to_disk := (3, 6); from_disk := (7, 8) |}, 2%nat.
  split; [vm_compute; reflexivity|]. split; [lia|].
  split; [reflexivity|]. split; vm_compute; reflexivity.
Qed.

(** Block 1 lives on the failed disk 1. *)
Lemma io_on_dead_disk_fails_witness :
  write_block (cfg := cfg344) 1 (Some ones4) failed_array
    = Ret (-1) failed_array
  ∧ read_block (cfg := cfg344) 1 (Some zeros4) failed_array
    = Ret None failed_array.
Proof.
  apply (io_on_dead_disk_fails (cfg := cfg344) 1 ones4 zeros4 failed_array).
  - reflexivity.
  - reflexivity.
  - exact failed_array_dead_1.
Defined.

Lemma disk_failure_effect_witness :
  ∃ w', simulate_disk_failure 1 fresh_array = Ret () w'
    ∧ slot_dead w' 1
    ∧ disk_of w' 1 = None
    ∧ (p_state <$> procs w' !! 1%nat) = Some Killed
    ∧ fs w' = fs fresh_array ∧ pipes w' = pipes fresh_array
    ∧ ctl_fds w' = ctl_fds fresh_array
    ∧ controllers w' = controllers fresh_array
    ∧ (∀ s' k' d', k' ≠ 1%nat →
         slot_serving (cfg := cfg344) fresh_array s' k' d' →
         slot_serving (cfg := cfg344) w' s' k' d').
Proof.
  apply (disk_failure_effect (cfg := cfg344) 1 1 (replicate 16 x00)
           fresh_array).
  - exact fresh_array_serving_1.
  - exact fresh_array_private_1.
Defined.

(** Block 0 lives on disk 0; disk 1 has failed, disk 2 has not. *)
Lemma degraded_write_is_half_done_witness :
  ∃ w',
    write_block (cfg := cfg344) 0 (Some ones4) failed_array = Ret (-1) w'
    ∧ disk_of w' (Z.rem 0 3)
      = Some (store_block (cfg := cfg344) (replicate 16 x00) (Z.quot 0 3)
                          ones4)
    ∧ (∀ j, j ≠ 0%nat → procs w' !! j = procs failed_array !! j).
Proof.
  apply (degraded_write_is_half_done (cfg := cfg344) 0 1 ones4 0
           (replicate 16 x00) failed_array).
  - reflexivity.
  - reflexivity.
  - reflexivity.
  - reflexivity.
  - exact failed_array_serving_0.
  - split; [discriminate | reflexivity].
  - discriminate.
  - exact failed_array_dead_1.
  - intros j Hj Hne. change (Z.rem 0 (@num_disks cfg344)) with 0 in Hne. lia.
Defined.

Lemma restore_leaves_disk_dead_witness :
  ∃ cs c k pr,
    controllers (after (restore_disk_process (cfg := cfg344) 1) failed_array)
      = TLive cs
    ∧ cs !! Z.to_nat 1 = Some c
    ∧ proc_of_pid (pid c) = Some k
    ∧ procs (after (restore_disk_process (cfg := cfg344) 1) failed_array) !! k
      = Some pr
    ∧ length (procs (after (restore_disk_process (cfg := cfg344) 1)
                           failed_array))
      = S (length (procs failed_array))
    ∧ p_from_parent pr = (to_disk c).1 ∧ p_to_parent pr = (from_disk c).2
    ∧ p_fds pr !! p_from_parent pr = None
    ∧ p_fds pr !! p_to_parent pr = None
    ∧ p_state pr = Exited 1
    ∧ disk_of
        (after (restore_disk_process (cfg := cfg344) 1) failed_array) 1 = None
    ∧ slot_ready (cfg := cfg344)
        (after (restore_disk_process (cfg := cfg344) 1) failed_array) 1
      = false.
Proof.
  apply (restore_leaves_disk_dead (cfg := cfg344) 1 failed_array).
  - split; [discriminate | discriminate].
  - vm_compute. reflexivity.
Defined.

Lemma restore_keeps_other_disks_witness :
  slot_serving (cfg := cfg344)
    (after (restore_disk_process (cfg := cfg344) 1) failed_array) 2 2
    (replicate 16 x00)
  ∧ ctl_fds failed_array
    ⊆ ctl_fds (after (restore_disk_process (cfg := cfg344) 1) failed_array)
  ∧ fs (after (restore_disk_process (cfg := cfg344) 1) failed_array)
    = fs failed_array.
Proof.
  apply (restore_keeps_other_disks (cfg := cfg344) 1 2 2 (replicate 16 x00)
           failed_array).
  - split; [discriminate | discriminate].
  - vm_compute. reflexivity.
  - discriminate.
  - exact failed_array_serving_2.
Defined.

(** ** Checkpoint files *)





(** ** Shutting the array down *)

Section Shutdown.
Context {cfg : raid_config}.









Lemma slot_serving_worker_eq w s k k' d d' :
  slot_serving w s k d → slot_serving w s k' d' → k = k'.
Proof.
  intros H H'. pose proof (slot_serving_pid _ _ _ _ H) as Hp.
  rewrite (slot_serving_pid _ _ _ _ H') in Hp. injection Hp. lia.
Qed.



End Shutdown.




(** ** Starting the array *)

Section Startup.
Context {cfg : raid_config}.

Lemma close_all_subseteq (l : list Z) :
  ∀ fds : gmap Z file_obj, close_all fds l ⊆ fds.
Proof.
  induction l as [|a l IH]; intros fds; [done|].
  rewrite close_all_cons. etrans; [apply IH|]. apply delete_subseteq.
Qed.

Lemma holds_false (fds : gmap Z file_obj) o :
  holds fds o = false ↔ ∀ fd, fds !! fd ≠ Some o.
Proof.
  unfold holds. rewrite bool_decide_eq_false. split.
  - intros Hno fd Hfd. apply Hno. by exists fd, o.
  - intros Hno (fd & x & Hfd & ->). by apply (Hno fd).
Qed.

Lemma find_reader_app_new p l pr :
  (∀ x, x ∈ l → reads_from p x = false) → reads_from p pr = true →
  find_reader p (l ++ [pr]) = Some (length l).
Proof.
  intros Hl Hpr. induction l as [|a l IH]; simpl.
  - by rewrite Hpr.
  - rewrite (Hl a) by apply list_elem_of_here.
    rewrite IH; [done|]. intros x Hx. apply Hl. by apply list_elem_of_further.
Qed.

Lemma reads_from_inbound p pr :
  reads_from p pr = true →
  p_fds pr !! p_from_parent pr = Some (Pipe p RdEnd).
Proof.
  unfold reads_from, inbound. rewrite andb_true_iff, bool_decide_eq_true.
  intros [_ H]. repeat case_match; by simplify_eq.
Qed.

(** What a successful [init_disk] has done. *)
Lemma init_disk_ok_inv num w rc w' :
  pipes_exist w →
  0 <= disk_size →
  init_disk num w = Ret rc w' →
  rc ≠ -1 →
  rc = 0 ∧ ∃ cs c0 rd wr rd2 wr2 pr,
    let p := length (pipes w) in
    let fds := <[wr2 := Pipe (S p) WrEnd]>
                 (<[rd2 := Pipe (S p) RdEnd]>
                    (<[wr := Pipe p WrEnd]>
                       (<[rd := Pipe p RdEnd]> (ctl_fds w)))) in
    controllers w = TLive cs ∧ 0 <= num ∧ cs !! Z.to_nat num = Some c0
    ∧ controllers w'
      = TLive (<[Z.to_nat num := {| pid := Z.of_nat (length (procs w)) + 1;
                                    to_disk := (rd, wr);
                                    from_disk := (rd2, wr2) |}]> cs)
    ∧ procs w' = procs w ++ [pr]
    ∧ p_id pr = num ∧ p_reaped pr = false
    ∧ p_state pr = Running fresh_disk 0
    ∧ inbound pr = Some p ∧ outbound pr = Some (S p)
    ∧ p_fds pr ⊆ fds
    ∧ pipes w' = pipes w ++ [[]; []]
    ∧ fs w' = fs w
    ∧ ctl_fds w !! rd = None ∧ ctl_fds w !! wr = None
    ∧ ctl_fds w !! rd2 = None ∧ ctl_fds w !! wr2 = None
    ∧ rd ≠ wr ∧ rd ≠ rd2 ∧ rd ≠ wr2 ∧ wr ≠ rd2 ∧ wr ≠ wr2 ∧ rd2 ≠ wr2
    ∧ ctl_fds w' = delete wr2 (delete rd fds).
Proof.
  intros [_ Hexist] Hds H Hrc. unfold init_disk in H.
  apply bind_ret_inv in H as (rc1 & w1 & H1 & H).
  pose proof (pipe_to_disk_fs _ _ _ _ H1) as Hfs1.
  apply pipe_to_disk_inv in H1
    as [(-> & ->) | (-> & cs & c0 & rd & wr & Hcs & Hnum & Hc0 & Hcs1 & Hprocs1
                     & Hforks1 & Hrd & Hwr & Hne & Hfds1 & Hpipes1)];
    [by injection H as <-|].
  simpl in H.
  apply bind_ret_inv in H as (rc2 & w2 & H2 & H).
  pose proof (pipe_from_disk_fs _ _ _ _ H2) as Hfs2.
  apply pipe_from_disk_inv in H2
    as [(-> & ->) | (-> & cs1 & c1 & rd2 & wr2 & Hcs1' & _ & Hc1 & Hcs2
                     & Hprocs2 & Hforks2 & Hrd2 & Hwr2 & Hne2 & Hfds2
                     & Hpipes2)];
    [by injection H as <-|].
  simpl in H.
  assert (Hlt : (Z.to_nat num < length cs)%nat)
    by (by eapply lookup_lt_Some).
  assert (cs1 = <[Z.to_nat num := with_to_disk (rd, wr) c0]> cs) as ->
    by congruence.
  rewrite list_lookup_insert_eq in Hc1 by done.
  injection Hc1 as <-.
  rewrite list_insert_insert_eq in Hcs2.
  rewrite Hfds1 in Hrd2, Hwr2.
  apply lookup_insert_None in Hrd2 as [Hrd2 Hne_wr_rd2].
  apply lookup_insert_None in Hrd2 as [Hrd2 Hne_rd_rd2].
  apply lookup_insert_None in Hwr2 as [Hwr2 Hne_wr_wr2].
  apply lookup_insert_None in Hwr2 as [Hwr2 Hne_rd_wr2].
  set (c2 := with_from_disk (rd2, wr2) (with_to_disk (rd, wr) c0)) in *.
  set (cs2 := <[Z.to_nat num := c2]> cs) in *.
  assert (Hc2 : cs2 !! Z.to_nat num = Some c2)
    by (by apply list_lookup_insert_eq).
  apply bind_ret_inv in H as (c & w3 & Hget & H).
  apply get_controller_eq in Hget as (-> & cs' & Hcs' & _ & Hc).
  assert (cs' = cs2) as -> by congruence.
  assert (c = c2) as -> by congruence.
  apply bind_ret_inv in H as (x & w3 & Hfork & H).
  apply bind_ret_inv in H as (u & w4 & Hput & H).
  apply put_controller_inv in Hput as (cs3 & Hcs3 & ->).
  unfold sys_fork in Hfork. rewrite Hcs2 in Hfork.
  destruct (forks_left w2) as [|n] eqn:Hn.
  { injection Hfork as <- <-. by injection H as <-. }
  injection Hfork as <- <-.
  destruct (Z.ltb_spec (Z.of_nat (length (procs w2)) + 1) 0) as [?|_]; [lia|].
  apply bind_ret_inv in H as (u1 & w5 & Hc1 & H).
  apply bind_ret_inv in H as (u2 & w6 & Hc2' & H).
  injection H as <- <-.
  unfold sys_close, modify in Hc1, Hc2'.
  injection Hc1 as <- <-. injection Hc2' as <- <-.
  cbn [to_disk from_disk fst snd c2 with_from_disk with_to_disk] in *.
  set (pr0 := forked num _ (ctl_fds w2) cs2) in *.
  set (wf := set_procs (λ ps, ps ++ [pr0]) (set_forks_left n w2)) in *.
  set (p := length (pipes w)) in *.
  assert (Hfds2' : ctl_fds w2
                   = <[wr2 := Pipe (S p) WrEnd]>
                       (<[rd2 := Pipe (S p) RdEnd]>
                          (<[wr := Pipe p WrEnd]>
                             (<[rd := Pipe p RdEnd]> (ctl_fds w))))).
  { rewrite Hfds2, Hfds1, Hpipes1, length_app. simpl.
    by rewrite Nat.add_1_r. }
  assert (Hk : procs wf !! length (procs w2) = Some pr0).
  { unfold wf. wsimpl. by rewrite lookup_app_r, Nat.sub_diag by lia. }
  assert (Hinb : inbound pr0 = Some p).
  { unfold inbound, pr0, forked.
    cbn [p_fds p_from_parent cp_close cp_from_parent].
    rewrite close_all_lookup_ne
      by (rewrite !not_elem_of_cons, elem_of_nil; naive_solver).
    rewrite Hfds2'. by simplify_map_eq. }
  assert (Houtb : outbound pr0 = Some (S p)).
  { unfold outbound, pr0, forked.
    cbn [p_fds p_to_parent cp_close cp_to_parent].
    rewrite close_all_lookup_ne
      by (rewrite !not_elem_of_cons, elem_of_nil; naive_solver).
    rewrite Hfds2'. by simplify_map_eq. }
  assert (Hpipes_wf : pipes wf = pipes w ++ [[]; []]).
  { unfold wf. wsimpl. by rewrite Hpipes2, Hpipes1, <- app_assoc. }
  assert (Hserv : serving wf wr rd2 p (S p) (length (procs w2)) pr0).
  { unfold serving. split; [|split; [|split; [|split; [|split; [|split]]]]].
    - unfold wf. wsimpl. rewrite Hfds2'. by simplify_map_eq.
    - unfold wf. wsimpl. rewrite Hfds2'. by simplify_map_eq.
    - unfold wf. wsimpl. apply find_reader_app_new.
      + intros x Hx. destruct (reads_from p x) eqn:Hr; [|done].
        apply reads_from_inbound in Hr.
        rewrite Hprocs2, Hprocs1 in Hx.
        pose proof (Hexist _ _ _ _ Hx Hr). unfold p in *. lia.
      + unfold reads_from. rewrite Hinb. by rewrite bool_decide_true.
    - done.
    - done.
    - done.
    - lia. }
  destruct (run_disk_waiting wf wr rd2 p (S p) (length (procs w2)) pr0
              fresh_disk 0 [] fresh_disk 0 [] [] Hserv)
    as (Hpipes & Hprocs & Hfds & Hctl & Hfs); try done.
  { rewrite Hpipes_wf. unfold p.
    by rewrite lookup_app_r, Nat.sub_diag by lia. }
  { rewrite Hpipes_wf. unfold p.
    rewrite lookup_app_r by lia.
    by replace (S (length (pipes w)) - length (pipes w))%nat with 1%nat
      by lia. }
  rewrite (set_state_id pr0) in Hprocs by done.
  rewrite list_insert_id in Hprocs by done.
  rewrite !list_insert_id in Hpipes.
  2:{ rewrite Hpipes_wf. unfold p.
      by rewrite lookup_app_r, Nat.sub_diag by lia. }
  2:{ rewrite list_insert_id.
      - rewrite Hpipes_wf. unfold p. rewrite lookup_app_r by lia.
        by replace (S (length (pipes w)) - length (pipes w))%nat with 1%nat
          by lia.
      - rewrite Hpipes_wf. unfold p.
        by rewrite lookup_app_r, Nat.sub_diag by lia. }
  rewrite Hctl in Hcs3.
  assert (cs3 = cs2) as -> by (unfold wf in Hcs3; wsimpl; congruence).
  split; [done|].
  exists cs, c0, rd, wr, rd2, wr2, pr0.
  cbv zeta. wsimpl. rewrite Hprocs, Hpipes, Hfs, Hfds.
  rewrite Hprocs2, Hprocs1 in *.
  fold p. rewrite <- Hfds2'.
  split; [done|]. split; [done|]. split; [done|].
  split; [unfold cs2; by rewrite list_insert_insert_eq|].
  split; [unfold wf; wsimpl; congruence|].
  split; [done|]. split; [done|]. split; [done|].
  split; [done|]. split; [done|].
  split; [apply close_all_subseteq|].
  split; [done|].
  split; [unfold wf; wsimpl; congruence|].
  repeat split; try done; congruence.
Qed.

Lemma proc_of_pid_of_nat (k : nat) : proc_of_pid (Z.of_nat k + 1) = Some k.
Proof.
  unfold proc_of_pid. destruct (Z.ltb_spec 0 (Z.of_nat k + 1)); [|lia].
  f_equal. lia.
Qed.

(** New descriptors, pipes and children, and a new record in another
    slot, leave a slot in service. *)
Lemma slot_serving_grow w w' cs num c news newp s k d :
  controllers w = TLive cs →
  controllers w' = TLive (<[num := c]> cs) →
  ctl_fds w ⊆ ctl_fds w' →
  procs w' = procs w ++ news →
  pipes w' = pipes w ++ newp →
  Z.to_nat s ≠ num →
  slot_serving w s k d → slot_serving w' s k d.
Proof.
  intros Hcs Hcs' Hsub Hprocs Hpipes Hs
         (cs0 & c1 & pin & pout & pr1 & st & Hcs0 & Hs0 & Hc & Hpid
          & (Hfdw & Hfdr & Hfind & Hk & Hin & Hout & Hne)
          & Hrun & Hpin & Hpout & Hlen).
  assert (cs0 = cs) as -> by congruence.
  exists (<[num := c]> cs), c1, pin, pout, pr1, st.
  split; [done|]. split; [done|].
  split; [by rewrite list_lookup_insert_ne|].
  split; [done|].
  split.
  { repeat split; try done.
    - by eapply lookup_weaken.
    - by eapply lookup_weaken.
    - rewrite Hprocs. by apply find_reader_app.
    - rewrite Hprocs. by apply lookup_app_l_Some. }
  split; [done|].
  rewrite Hpipes. split; [by apply lookup_app_l_Some|].
  split; [by apply lookup_app_l_Some|done].
Qed.

(** One iteration of the loop of [init_all_controllers] that does not
    fail. *)
Lemma init_disk_step i w rc w' :
  0 <= i → 0 <= disk_size →
  started w i →
  init_disk i w = Ret rc w' →
  rc ≠ -1 →
  rc = 0 ∧ started w' (i + 1) ∧ fs w' = fs w.
Proof.
  intros Hi Hds (Hlen & Hexist & Hslots) H Hrc.
  apply init_disk_ok_inv in H
    as (-> & cs & c0 & rd & wr & rd2 & wr2 & pr0 & Hcs & _ & Hc0 & Hcs'
        & Hprocs & Hid & Hreap & Hst & Hinb & Houtb & Hpfds & Hpipes & Hfs
        & Hrd & Hwr & Hrd2 & Hwr2 & N1 & N2 & N3 & N4 & N5 & N6 & Hfds);
    [|done..].
  cbv zeta in *.
  set (p := length (pipes w)) in *.
  set (k := length (procs w)) in *.
  set (F := <[wr2 := Pipe (S p) WrEnd]> _) in *.
  destruct Hexist as [Hex_ctl Hex_procs].
  assert (Hlt : (Z.to_nat i < length cs)%nat) by (by eapply lookup_lt_Some).
  assert (HF : ∀ fd q e, F !! fd = Some (Pipe q e) →
                 ctl_fds w !! fd = Some (Pipe q e) ∨ q = p ∨ q = S p).
  { intros fd q e. unfold F. rewrite !lookup_insert_Some.
    intros [[_ [= <- _]] | [_ [[_ [= <- _]] | [_ [[_ [= <- _]]
              | [_ [[_ [= <- _]] | [_ ?]]]]]]]]; auto. }
  assert (Hsub : ctl_fds w ⊆ ctl_fds w').
  { apply map_subseteq_spec. intros fd x Hfd. rewrite Hfds. unfold F.
    rewrite !lookup_delete_ne, !lookup_insert_ne by congruence. done. }
  assert (Hnew : ∀ fd q e, ctl_fds w' !! fd = Some (Pipe q e) →
                   ctl_fds w !! fd = Some (Pipe q e)
                   ∨ (q = p ∧ e = WrEnd) ∨ (q = S p ∧ e = RdEnd)).
  { intros fd q e. rewrite Hfds. rewrite !lookup_delete_Some. unfold F.
    rewrite !lookup_insert_Some.
    intros (? & ? & [[? _] | [_ [[_ [= <- <-]] | [_ [[_ [= <- <-]]
              | [_ [[? _] | [_ ?]]]]]]]]); try done; auto. }
  assert (Hfdw : ctl_fds w' !! wr = Some (Pipe p WrEnd)).
  { rewrite Hfds. unfold F.
    rewrite !lookup_delete_ne, !lookup_insert_ne by congruence.
    by simplify_map_eq. }
  assert (Hfdr : ctl_fds w' !! rd2 = Some (Pipe (S p) RdEnd)).
  { rewrite Hfds. unfold F.
    rewrite !lookup_delete_ne, !lookup_insert_ne by congruence.
    by simplify_map_eq. }
  assert (Halive : alive pr0 = true) by (unfold alive; by rewrite Hst).
  assert (Hold : ∀ x, x ∈ procs w → reads_from p x = false).
  { intros x Hx. destruct (reads_from p x) eqn:Hr; [|done].
    apply reads_from_inbound in Hr.
    pose proof (Hex_procs _ _ _ _ Hx Hr). unfold p in *. lia. }
  assert (Hk : procs w' !! k = Some pr0).
  { rewrite Hprocs. unfold k. by rewrite lookup_app_r, Nat.sub_diag by lia. }
  assert (Hki : k = Z.to_nat i) by done.
  split; [done|]. split; [|done].
  split; [rewrite Hprocs, length_app; simpl; lia|].
  split.
  { split.
    - intros fd q e Hfd. rewrite Hpipes, length_app. simpl.
      apply Hnew in Hfd as [Hfd | [[-> _] | [-> _]]]; unfold p; try lia.
      pose proof (Hex_ctl _ _ _ Hfd). lia.
    - intros pr fd q e Hpr Hfd. rewrite Hpipes, length_app. simpl.
      rewrite Hprocs in Hpr. apply elem_of_app in Hpr as [Hpr | Hpr].
      + pose proof (Hex_procs _ _ _ _ Hpr Hfd). lia.
      + apply list_elem_of_singleton in Hpr as ->.
        apply (lookup_weaken _ _ _ _ Hfd) in Hpfds.
        apply HF in Hpfds as [Hc | [-> | ->]]; unfold p; try lia.
        pose proof (Hex_ctl _ _ _ Hc). lia. }
  intros s Hs. destruct (decide (s = i)) as [->|Hsi].
  - rewrite <- Hki. split; [|split].
    + eexists _, _, p, (S p), pr0, 0.
      split; [exact Hcs'|]. split; [done|].
      split; [by apply list_lookup_insert_eq|].
      cbn [pid to_disk from_disk fst snd].
      split; [apply proc_of_pid_of_nat|].
      split.
      { unfold serving. split; [done|]. split; [done|].
        split; [rewrite Hprocs; apply find_reader_app_new; [done|];
                unfold reads_from; rewrite Halive, Hinb;
                by rewrite bool_decide_true|].
        split; [done|]. split; [done|]. split; [done|]. lia. }
      split; [done|].
      rewrite Hpipes. unfold p.
      split; [by rewrite lookup_app_r, Nat.sub_diag by lia|].
      split.
      { rewrite lookup_app_r by lia.
        by replace (S (length (pipes w)) - length (pipes w))%nat with 1%nat
          by lia. }
      unfold fresh_disk. rewrite length_replicate. lia.
    + by exists pr0.
    + eexists _, _, p, k.
      split; [exact Hcs'|]. split; [done|].
      split; [by apply list_lookup_insert_eq|].
      cbn [pid to_disk from_disk fst snd].
      split; [done|]. split; [apply proc_of_pid_of_nat|].
      split.
      * apply holds_false. intros fd Hfd.
        apply Hnew in Hfd as [Hfd | [[_ ?] | [? _]]]; [|done|lia].
        pose proof (Hex_ctl _ _ _ Hfd). unfold p in *. lia.
      * intros j pr Hj Hjk _. apply holds_false. intros fd Hfd.
        rewrite Hprocs in Hj. apply lookup_app_Some in Hj as [Hj | [Hge Hj]].
        -- apply list_elem_of_lookup_2 in Hj.
           pose proof (Hex_procs _ _ _ _ Hj Hfd). unfold p in *. lia.
        -- apply lookup_lt_Some in Hj as Hlt'. simpl in Hlt'.
           unfold k in Hjk. lia.
  - destruct (Hslots s) as (Hserv & (prs & Hks & Hws) & Hpriv); [lia|].
    split; [|split].
    + eapply (slot_serving_grow w w'); try done. lia.
    + exists prs. split; [|done]. rewrite Hprocs. by apply lookup_app_l_Some.
    + destruct Hpriv as (cs1 & c1 & p1 & k1 & Hcs1 & Hs0 & Hc1 & Hfd1 & Hpid1
                         & Hctl1 & Hothers1).
      assert (cs1 = cs) as -> by congruence.
      pose proof (Hex_ctl _ _ _ Hfd1) as Hp1.
      pose proof (proj1 (holds_false _ _) Hctl1) as Hno.
      eexists _, c1, p1, k1.
      split; [exact Hcs'|]. split; [done|].
      split; [rewrite list_lookup_insert_ne by lia; done|].
      split; [by eapply lookup_weaken|]. split; [done|].
      split.
      * apply holds_false. intros fd Hfd.
        apply Hnew in Hfd as [Hfd | [[? _] | [? _]]]; unfold p in *;
          [by apply (Hno fd) | lia | lia].
      * intros j pr Hj Hjk Hal.
        rewrite Hprocs in Hj. apply lookup_app_Some in Hj as [Hj | [Hge Hj]].
        -- by eapply Hothers1.
        -- apply list_lookup_singleton_Some in Hj as [_ <-].
           apply holds_false. intros fd Hfd.
           apply (lookup_weaken _ _ _ _ Hfd) in Hpfds.
           apply HF in Hpfds as [Hc | [? | ?]]; unfold p in *;
             [by apply (Hno fd) | lia | lia].
Qed.

Lemma init_disks_started n :
  ∀ i w rc w',
    0 <= i → 0 <= disk_size →
    started w i →
    init_disks n i w = Ret rc w' →
    rc ≠ -1 →
    rc = 0 ∧ started w' (i + Z.of_nat n) ∧ fs w' = fs w.
Proof.
  induction n as [|n IH]; intros i w rc w' Hi Hds Hstarted H Hrc.
  - injection H as <- <-. by rewrite Z.add_0_r.
  - cbn [init_disks] in H. apply bind_ret_inv in H as (rc1 & w1 & H1 & H).
    destruct (Z.eqb_spec rc1 (-1)) as [->|Hrc1].
    { apply bind_ret_inv in H as (u & w2 & _ & H). by injection H as <-. }
    destruct (init_disk_step i w rc1 w1) as (_ & Hstarted1 & Hfs1); try done.
    destruct (IH (i + 1) w1 rc w') as (-> & Hstarted' & Hfs'); try done;
      [lia|].
    split; [done|]. split; [|congruence].
    by replace (i + Z.of_nat (S n)) with (i + 1 + Z.of_nat n) by lia.
Qed.

(** X11.  [init_all_controllers (num_disks + 1)] in a freshly started
    controller, when it returns 0, has brought up the whole array: every
    slot is in service with a zeroed disk, the workers are distinct
    children, one per slot, each the only reader of its command pipe,
    and no file has been written. *)
Theorem init_all_controllers_starts_array (limit : Z) (forks : nat)
    (w : world) :
  0 <= num_disks → 0 <= disk_size →
  init_all_controllers (num_disks + 1) (boot limit forks) = Ret 0 w →
  array_in_service w
  ∧ workers_started w
  ∧ (∀ s, 0 <= s <= num_disks →
          slot_private w s ∧ disk_of w s = Some fresh_disk)
  ∧ fs w = empty_dir.
Proof.
  intros HD Hds H. unfold init_all_controllers in H.
  apply bind_ret_inv in H as (u & w0 & Hm & H).
  unfold sys_malloc_table, modify in Hm. injection Hm as _ <-.
  apply init_disks_started in H as (_ & (Hlen & Hexist & Hslots) & Hfs);
    [|lia|done| |done].
  2:{ split; [done|]. split; [split|].
      - intros fd p e. wsimpl. unfold boot. cbn [ctl_fds].
        rewrite !lookup_insert_Some, lookup_empty.
        intros [[_ ?] | [_ [[_ ?] | [_ [[_ ?] | [_ ?]]]]]]; done.
      - intros pr fd p e Hpr. by apply elem_of_nil in Hpr.
      - intros s Hs. lia. }
  assert (Hrange : ∀ s, 0 <= s <= num_disks →
            0 <= s < 0 + Z.of_nat (Z.to_nat (num_disks + 1))) by lia.
  assert (Hpid : ∀ s, 0 <= s <= num_disks → pid_of w s = Some (s + 1)).
  { intros s Hs. destruct (Hslots s (Hrange s Hs)) as (Hserv & _).
    rewrite (slot_serving_pid _ _ _ _ Hserv). f_equal. lia. }
  split; [split; [split|]|split; [|split]].
  - intros s Hs. destruct (Hslots s (Hrange s Hs)) as (Hserv & _).
    by eapply slot_serving_ready.
  - intros s Hs. rewrite !Hpid by lia. intros [= ?]. lia.
  - intros s s' Hs Hs' Hne. rewrite !Hpid by lia. intros [= ?]. lia.
  - intros s k d Hs Hserv.
    destruct (Hslots s (Hrange s Hs)) as (Hserv' & Hworker & _).
    by rewrite (slot_serving_worker_eq _ _ _ _ _ _ Hserv Hserv').
  - intros s Hs. destruct (Hslots s (Hrange s Hs)) as (Hserv & _ & Hpriv).
    split; [done|]. by eapply slot_serving_disk.
  - done.
Qed.

End Startup.

(** The scenario: 3 data disks and the parity disk. *)
Lemma init_all_controllers_starts_array_witness :
  array_in_service (cfg := cfg344) fresh_array
  ∧ workers_started (cfg := cfg344) fresh_array
  ∧ (∀ s, 0 <= s <= 3 →
          slot_private fresh_array s
          ∧ disk_of fresh_array s = Some (fresh_disk (cfg := cfg344)))
  ∧ fs fresh_array = empty_dir.
Proof.
  apply (init_all_controllers_starts_array (cfg := cfg344) 64 16 fresh_array).
  - discriminate.
  - discriminate.
  - vm_compute. reflexivity.
Defined.

(** ** A restored disk *)

Section Restored.
Context {cfg : raid_config}.

(** After [restore_disk_process], once the new worker of the slot has
    ended, the disk is out of service: nobody reads the new command
    pipe. *)
Lemma restore_slot_dead num w w' :
  0 <= num <= num_disks →
  pipes_exist w →
  restore_disk_process num w = Ret () w' →
  slot_worker_ended w' num →
  slot_dead w' num.
Proof.
  intros Hnum [Hex_ctl Hex_procs] H Hended. unfold restore_disk_process in H.
  apply bind_ret_inv in H as (rc & w1 & Hr & H).
  destruct (Z.eqb_spec rc (-1)) as [|Hrc]; [done|].
  injection H as <-.
  apply restart_disk_inv in Hr
    as (-> & cs & c0 & rd & wr & rd2 & wr2 & pr & Hcs & Hc0 & Hcs' & Hprocs
        & Hfp & Htp & Hrd & Hwr2 & _ & Hpipes & Hfs & Hrd0 & Hwr0 & Hrd20
        & Hwr20 & Hfds & Hne1 & Hne2 & Hne3); [|done..].
  assert (Hlt : (Z.to_nat num < length cs)%nat) by (by eapply lookup_lt_Some).
  (* the child that has ended is the one [restart_disk] created *)
  assert (Hgone : alive pr = false).
  { destruct Hended as (cs1 & c1 & k1 & pr1 & Hcs1 & _ & Hc1 & Hpid1 & Hk1
                        & Hdead1).
    rewrite Hcs' in Hcs1. injection Hcs1 as <-.
    rewrite list_lookup_insert_eq in Hc1 by done. injection Hc1 as <-.
    cbn [pid] in Hpid1. rewrite proc_of_pid_of_nat in Hpid1.
    injection Hpid1 as <-.
    rewrite Hprocs, lookup_app_r, Nat.sub_diag in Hk1 by lia.
    by injection Hk1 as <-. }
  eexists _, _, (length (pipes w)).
  split; [exact Hcs'|]. split; [lia|].
  split; [by apply list_lookup_insert_eq|].
  cbn [to_disk snd]. split.
  - rewrite Hfds. rewrite !lookup_delete_ne by congruence.
    rewrite !lookup_insert_ne by congruence.
    by rewrite lookup_insert_eq.
  - apply pipe_open_false. split.
    + apply holds_false. intros fd. rewrite Hfds.
      rewrite !lookup_delete_Some, !lookup_insert_Some.
      intros (? & ? & [[_ [=]] | [_ [[_ [= ?]] | [_ [[_ [=]]
                | [_ [[? _] | [_ Hfd]]]]]]]]); try done; try lia.
      pose proof (Hex_ctl _ _ _ Hfd). lia.
    + intros j prj Hj Hal. apply holds_false. intros fd Hfd.
      rewrite Hprocs in Hj. apply lookup_app_Some in Hj as [Hj | [Hge Hj]].
      * apply list_elem_of_lookup_2 in Hj.
        pose proof (Hex_procs _ _ _ _ Hj Hfd). lia.
      * apply list_lookup_singleton_Some in Hj as [_ <-]. congruence.
Qed.

(** X12.  A disk that [restore_disk_process] has "restored" cannot be
    used once its new worker has ended, which it does at its first
    [read()].  In the state [restore_disk_process] returns to, with the
    child recorded for the slot ended, every write to the disk returns
    -1 and every read [NULL], and the call has no effect.  A call that
    runs ahead of the new child, before it has closed its descriptors,
    is not covered. *)
Theorem restored_disk_rejects_io (i : Z) (x buf : list byte) (w w' : world) :
  0 < num_disks →
  pipes_exist w →
  invalid_block i = false →
  restore_disk_process (Z.rem i num_disks) w = Ret () w' →
  slot_worker_ended w' (Z.rem i num_disks) →
  write_block i (Some x) w' = Ret (-1) w'
  ∧ read_block i (Some buf) w' = Ret None w'.
Proof.
  intros HD Hexist Hvalid Hrestore Hended.
  assert (Hi : 0 <= i).
  { unfold invalid_block in Hvalid. apply orb_false_iff in Hvalid. lia. }
  assert (Ht : 0 <= Z.rem i num_disks < num_disks)
    by (apply Z.rem_bound_pos; lia).
  assert (Hdead : slot_dead w' (Z.rem i num_disks)).
  { eapply restore_slot_dead; [|done..]. lia. }
  assert (Hflag : write_block_parity_flag i = 0).
  { unfold write_block_parity_flag.
    destruct (Z.eqb_spec (Z.rem i num_disks) num_disks); [lia | done]. }
  split.
  - unfold write_block. rewrite Hvalid, Hflag.
    unfold mbind, M_bind. by rewrite write_block_to_disk_dead.
  - unfold read_block. rewrite Hvalid.
    unfold mbind, M_bind. by rewrite read_block_from_disk_dead.
Qed.

End Restored.

Lemma pipes_exist_check (w : world) :
  forallb (λ o, match o with
                | Pipe p _ => (p <? length (pipes w))%nat
                | _ => true
                end) (map_to_list (ctl_fds w)).*2
  && forallb (λ pr, forallb (λ o, match o with
                                  | Pipe p _ => (p <? length (pipes w))%nat
                                  | _ => true
                                  end) (map_to_list (p_fds pr)).*2)
             (procs w) = true →
  pipes_exist w.
Proof.
  rewrite andb_true_iff, !forallb_forall. intros [Hctl Hprocs].
  assert (Hmap : ∀ fds : gmap Z file_obj,
            (∀ o, In o (map_to_list fds).*2 →
                  match o with
                  | Pipe p _ => (p <? length (pipes w))%nat
                  | _ => true
                  end = true) →
            ∀ fd p e, fds !! fd = Some (Pipe p e) →
                      (p < length (pipes w))%nat).
  { intros fds Hall fd p e Hfd. apply Nat.ltb_lt.
    apply (Hall (Pipe p e)). apply list_elem_of_In.
    apply list_elem_of_fmap. exists (fd, Pipe p e). split; [done|].
    by apply elem_of_map_to_list. }
  split; [by apply Hmap|].
  intros pr fd p e Hpr. apply Hmap.
  apply list_elem_of_In in Hpr.
  by apply (proj1 (forallb_forall _ _) (Hprocs pr Hpr)).
Qed.

Lemma failed_array_pipes_exist : pipes_exist failed_array.
Proof. apply pipes_exist_check. vm_compute. reflexivity. Qed.

Lemma slot_worker_ended_check (w : world) (s : Z) :
  0 <= s →
  match controllers w with
  | TLive cs =>
    match cs !! Z.to_nat s with
    | Some c =>
      match proc_of_pid (pid c) with
      | Some k =>
        match procs w !! k with
        | Some pr => negb (alive pr)
        | None => false
        end
      | None => false
      end
    | None => false
    end
  | _ => false
  end = true →
  slot_worker_ended w s.
Proof.
  intros Hs. unfold slot_worker_ended.
  destruct (controllers w) as [|cs|]; try done.
  destruct (cs !! Z.to_nat s) as [c|] eqn:Hc; [|done].
  destruct (proc_of_pid (pid c)) as [k|] eqn:Hk; [|done].
  destruct (procs w !! k) as [pr|] eqn:Hpr; [|done].
  rewrite negb_true_iff. intros Hal. by exists cs, c, k, pr.
Qed.

(** Block 1 lives on disk 1, which failed and was "restored"; the new
    worker has ended. *)
Lemma restored_disk_rejects_io_witness :
  write_block (cfg := cfg344) 1 (Some ones4)
    (after (restore_disk_process (cfg := cfg344) 1) failed_array)
  = Ret (-1) (after (restore_disk_process (cfg := cfg344) 1) failed_array)
  ∧ read_block (cfg := cfg344) 1 (Some zeros4)
      (after (restore_disk_process (cfg := cfg344) 1) failed_array)
    = Ret None (after (restore_disk_process (cfg := cfg344) 1) failed_array).
Proof.
  apply (restored_disk_rejects_io (cfg := cfg344) 1 ones4 zeros4
           failed_array).
  - reflexivity.
  - exact failed_array_pipes_exist.
  - reflexivity.
  - vm_compute. reflexivity.
  - apply slot_worker_ended_check; [discriminate|]. vm_compute. reflexivity.
Defined.

(** ** A checkpoint that fails *)

Section FailedCheckpoint.
Context {cfg : raid_config}.

(** X13.  The exit status of a worker does not tell whether its disk was
    saved.  A worker that reads [CMD_EXIT] when the directory has room
    for less than [disk_size] bytes: [checkpoint_disk] returns -1, the
    file of the disk holds only the bytes that fitted, whatever it held
    before, and the worker still ends with [exit(0)]. *)
Theorem exit_hides_checkpoint_failure (k : nat) (w : world) (id : Z)
    (p : nat) (d : list byte) (st : Z) (rest : list field) :
  p_id <$> procs w !! k = Some id →
  p_state <$> procs w !! k = Some (Running d st) →
  procs w !! k ≫= inbound = Some p →
  pipes w !! p = Some (FCmd CMD_EXIT :: rest) →
  Z.of_nat (length d) = disk_size →
  Z.of_nat (String.length (disk_name id)) < MAX_NAME →
  fs_readonly (fs w) = false →
  0 <= fs_free (fs w) < disk_size →
  (checkpoint_disk (Some d) id (fs w)).1 = -1
  ∧ p_state <$> procs (run_disk k w) !! k = Some (Exited 0)
  ∧ fs_files (fs (run_disk k w)) !! disk_name id
    = Some (take (Z.to_nat (fs_free (fs w))) d)
  ∧ (Z.to_nat (fs_free (fs w)) < length d)%nat.
Proof.
  intros Hid Hst Hin Hq Hlen Hname Hro Hfree.
  destruct (procs w !! k) as [pr|] eqn:Hk; [|done].
  simpl in Hid, Hst, Hin. injection Hid as Hid. injection Hst as Hst.
  subst id.
  assert (Hck : checkpoint_disk (Some d) (p_id pr) (fs w)
                = (-1, {| fs_files := <[disk_name (p_id pr) :=
                                          take (Z.to_nat (fs_free (fs w))) d]>
                                        (fs_files (fs w));
                          fs_readonly := false;
                          fs_free := 0 |})).
  { unfold checkpoint_disk.
    destruct (Z.geb_spec (Z.of_nat (String.length (disk_name (p_id pr))))
                MAX_NAME); [lia|].
    rewrite Hro.
    replace (Z.max 0 (Z.min disk_size (fs_free (fs w))))
      with (fs_free (fs w)) by lia.
    destruct (Z.eqb_spec (fs_free (fs w)) disk_size); [lia|].
    by rewrite Z.sub_diag. }
  split; [by rewrite Hck|].
  unfold run_disk. rewrite Hk, Hst.
  assert (Hturn : disk_turn pr d st w
                  = DiskRun CmdExit rest []
                      (checkpoint_disk (Some d) (p_id pr) (fs w)).2).
  { unfold disk_turn. rewrite Hin. simpl. rewrite Hq. done. }
  rewrite Hturn. wsimpl.
  rewrite fs_deliver, procs_deliver, list_lookup_alter_eq, Hk. wsimpl.
  split; [done|]. rewrite Hck. cbn [snd fs_files].
  split; [apply lookup_insert_eq|]. lia.
Qed.

End FailedCheckpoint.

(** Disk 0 of the scenario is told to exit when the directory has room
    for 10 of its 16 bytes. *)
Lemma exit_hides_checkpoint_failure_witness :
  (checkpoint_disk (cfg := cfg344) (Some (replicate 16 x00)) 0
     (fs short_of_space)).1 = -1
  ∧ p_state <$> procs (run_disk (cfg := cfg344) 0 short_of_space) !! 0%nat
    = Some (Exited 0)
  ∧ fs_files (fs (run_disk (cfg := cfg344) 0 short_of_space)) !! disk_name 0
    = Some (take (Z.to_nat (fs_free (fs short_of_space))) (replicate 16 x00))
  ∧ (Z.to_nat (fs_free (fs short_of_space)) < length (replicate 16 x00))%nat.
Proof.
  apply (exit_hides_checkpoint_failure (cfg := cfg344) 0 short_of_space 0 0
           (replicate 16 x00) 0 []).
  - vm_compute. reflexivity.
  - vm_compute. reflexivity.
  - vm_compute. reflexivity.
  - vm_compute. reflexivity.
  - vm_compute. reflexivity.
  - vm_compute. reflexivity.
  - vm_compute. reflexivity.
  - vm_compute. split; [discriminate | reflexivity].
Defined.

(** ** Resources for the array *)

Section Resources.
Context {cfg : raid_config}.

Lemma lowest_free_full (fds : gmap Z file_obj) n :
  ∀ fd0, lowest_free fds n fd0 = None →
         ∀ fd, fd0 <= fd < fd0 + Z.of_nat n → is_Some (fds !! fd).
Proof.
  induction n as [|n IH]; intros fd0 H fd Hfd; [lia|].
  simpl in H. destruct (fds !! fd0) as [o|] eqn:H0; [|done].
  destruct (decide (fd = fd0)) as [->|]; [by rewrite H0|].
  apply (IH (fd0 + 1)); [done|lia].
Qed.

(** A descriptor is available while fewer than [limit] are in use. *)
Lemma alloc_fd_Some (fds : gmap Z file_obj) limit :
  Z.of_nat (size fds) < limit → ∃ fd, alloc_fd fds limit = Some fd.
Proof.
  intros Hsize. destruct (alloc_fd fds limit) as [fd|] eqn:Ha; [by exists fd|].
  exfalso. unfold alloc_fd in Ha.
  assert (Hsub : (list_to_set (seqZ 0 limit) : gset Z) ⊆ dom fds).
  { intros fd Hfd. apply elem_of_list_to_set, elem_of_seqZ in Hfd.
    apply elem_of_dom. apply (lowest_free_full _ _ _ Ha). lia. }
  apply subseteq_size in Hsub.
  rewrite size_list_to_set, length_seqZ, size_dom in Hsub
    by apply NoDup_seqZ.
  lia.
Qed.

Lemma sys_pipe_ok w :
  Z.of_nat (size (ctl_fds w)) + 2 <= fd_limit w →
  ∃ x w', sys_pipe w = Ret (Some x) w' ∧ fd_limit w' = fd_limit w.
Proof.
  intros Hsize. unfold sys_pipe.
  destruct (alloc_fd_Some (ctl_fds w) (fd_limit w)) as (rd & Hrd); [lia|].
  rewrite Hrd.
  destruct (alloc_fd_Some (<[rd := Pipe (length (pipes w)) RdEnd]> (ctl_fds w))
              (fd_limit w)) as (wr & Hwr).
  { rewrite map_size_insert_None by (by eapply alloc_fd_None). lia. }
  rewrite Hwr. by eexists _, _.
Qed.

Lemma pipe_to_disk_ok num w cs c :
  controllers w = TLive cs → 0 <= num → cs !! Z.to_nat num = Some c →
  Z.of_nat (size (ctl_fds w)) + 2 <= fd_limit w →
  ∃ w', pipe_to_disk num w = Ret 0 w' ∧ fd_limit w' = fd_limit w.
Proof.
  intros Hcs Hnum Hc Hsize.
  destruct (sys_pipe_ok w Hsize) as (x & w1 & Hp & Hl).
  pose proof (sys_pipe_inv _ _ _ Hp) as (_ & Hcs1 & _).
  assert (Hlt : (Z.to_nat num < length cs)%nat) by (by eapply lookup_lt_Some).
  unfold pipe_to_disk, mbind, M_bind, get_controller. rewrite Hcs.
  destruct (Z.leb_spec 0 num); [|lia]. rewrite Hc, Hp.
  unfold put_controller. rewrite Hcs1, Hcs.
  destruct (Z.leb_spec 0 num); [|lia].
  destruct (Nat.ltb_spec (Z.to_nat num) (length cs)); [|lia].
  simpl. by eexists.
Qed.

Lemma pipe_from_disk_ok num w cs c :
  controllers w = TLive cs → 0 <= num → cs !! Z.to_nat num = Some c →
  Z.of_nat (size (ctl_fds w)) + 2 <= fd_limit w →
  ∃ w', pipe_from_disk num w = Ret 0 w' ∧ fd_limit w' = fd_limit w.
Proof.
  intros Hcs Hnum Hc Hsize.
  destruct (sys_pipe_ok w Hsize) as (x & w1 & Hp & Hl).
  pose proof (sys_pipe_inv _ _ _ Hp) as (_ & Hcs1 & _).
  assert (Hlt : (Z.to_nat num < length cs)%nat) by (by eapply lookup_lt_Some).
  unfold pipe_from_disk, mbind, M_bind, get_controller. rewrite Hcs.
  destruct (Z.leb_spec 0 num); [|lia]. rewrite Hc, Hp.
  unfold put_controller. rewrite Hcs1, Hcs.
  destruct (Z.leb_spec 0 num); [|lia].
  destruct (Nat.ltb_spec (Z.to_nat num) (length cs)); [|lia].
  simpl. by eexists.
Qed.

(** [init_disk] succeeds when four descriptors and one process are to
    be had; it uses up two descriptors and the process. *)
Lemma init_disk_ok num w cs n :
  controllers w = TLive cs → 0 <= num → (Z.to_nat num < length cs)%nat →
  Z.of_nat (size (ctl_fds w)) + 4 <= fd_limit w →
  forks_left w = S n →
  ∃ w' cs',
    init_disk num w = Ret 0 w'
    ∧ controllers w' = TLive cs' ∧ length cs' = length cs
    ∧ size (ctl_fds w') = S (S (size (ctl_fds w)))
    ∧ fd_limit w' = fd_limit w
    ∧ forks_left w' = n.
Proof.
  intros Hcs Hnum Hlt Hsize Hforks.
  destruct (lookup_lt_is_Some_2 cs (Z.to_nat num) Hlt) as (c0 & Hc0).
  destruct (pipe_to_disk_ok num w cs c0) as (w1 & H1 & Hl1); [done..|lia|].
  pose proof (pipe_to_disk_inv _ _ _ _ H1)
    as [(? & _) | (_ & cs0 & c0' & rd & wr & Hcs0 & _ & Hc0' & Hcs1 & Hprocs1
                   & Hforks1 & Hrd & Hwr & Hne & Hfds1 & Hpipes1)]; [done|].
  assert (cs0 = cs) as -> by congruence.
  assert (c0' = c0) as -> by congruence.
  assert (Hsize1 : size (ctl_fds w1) = S (S (size (ctl_fds w)))).
  { rewrite Hfds1. rewrite !map_size_insert_None; [done|done|].
    by rewrite lookup_insert_ne. }
  set (c1 := with_to_disk (rd, wr) c0) in *.
  assert (Hc1 : <[Z.to_nat num := c1]> cs !! Z.to_nat num = Some c1)
    by (by apply list_lookup_insert_eq).
  destruct (pipe_from_disk_ok num w1 _ c1 Hcs1) as (w2 & H2 & Hl2);
    [done..|lia|].
  pose proof (pipe_from_disk_inv _ _ _ _ H2)
    as [(? & _) | (_ & cs1 & c1' & rd2 & wr2 & Hcs1' & _ & Hc1' & Hcs2
                   & Hprocs2 & Hforks2 & Hrd2 & Hwr2 & Hne2 & Hfds2
                   & Hpipes2)]; [done|].
  assert (cs1 = <[Z.to_nat num := c1]> cs) as -> by congruence.
  assert (c1' = c1) as -> by congruence.
  rewrite list_insert_insert_eq in Hcs2.
  set (c2 := with_from_disk (rd2, wr2) c1) in *.
  set (cs2 := <[Z.to_nat num := c2]> cs) in *.
  assert (Hlen2 : length cs2 = length cs) by apply length_insert.
  assert (Hsize2 : size (ctl_fds w2) = S (S (size (ctl_fds w1)))).
  { rewrite Hfds2. rewrite !map_size_insert_None; [done|done|].
    by rewrite lookup_insert_ne. }
  assert (Hrd_in : ctl_fds w2 !! rd = Some (Pipe (length (pipes w)) RdEnd)).
  { rewrite Hfds2, Hfds1.
    rewrite Hfds1 in Hrd2, Hwr2.
    apply lookup_insert_None in Hrd2 as [Hrd2 ?].
    apply lookup_insert_None in Hrd2 as [_ ?].
    apply lookup_insert_None in Hwr2 as [Hwr2 ?].
    apply lookup_insert_None in Hwr2 as [_ ?].
    rewrite !lookup_insert_ne by congruence. apply lookup_insert_eq. }
  assert (Hwr2_in : ctl_fds w2 !! wr2 = Some (Pipe (length (pipes w1)) WrEnd)).
  { rewrite Hfds2. apply lookup_insert_eq. }
  assert (Hne3 : rd ≠ wr2).
  { rewrite Hfds1 in Hwr2.
    apply lookup_insert_None in Hwr2 as [Hwr2 ?].
    apply lookup_insert_None in Hwr2 as [_ ?]. done. }
  eexists _, (<[Z.to_nat num := with_pid _ c2]> cs2).
  split.
  { unfold init_disk, mbind, M_bind. rewrite H1. simpl. rewrite H2. simpl.
    unfold get_controller. rewrite Hcs2.
    destruct (Z.leb_spec 0 num); [|lia].
    unfold cs2 at 1. rewrite list_lookup_insert_eq by done.
    unfold sys_fork. rewrite Hforks2, Hforks1, Hforks, Hcs2.
    unfold put_controller. rewrite (run_disk_keeps controllers) by done.
    wsimpl. rewrite Hcs2.
    destruct (Z.leb_spec 0 num); [|lia].
    destruct (Nat.ltb_spec (Z.to_nat num) (length cs2)); [|lia].
    simpl.
    destruct (Z.ltb_spec (Z.of_nat (length (procs w2)) + 1) 0); [lia|].
    unfold sys_close, modify, mret, M_ret. reflexivity. }
  wsimpl. rewrite !(run_disk_keeps ctl_fds), !(run_disk_keeps fd_limit),
    !(run_disk_keeps forks_left) by done.
  wsimpl.
  split; [done|]. split; [by rewrite length_insert|].
  split.
  { rewrite map_size_delete_Some
      by (rewrite lookup_delete_ne by done; by eexists).
    rewrite map_size_delete_Some by (by eexists).
    rewrite Hsize2, Hsize1. done. }
  split; [congruence|done].
Qed.

Lemma init_disks_ok n :
  ∀ i w cs,
    controllers w = TLive cs → 0 <= i →
    (Z.to_nat i + n <= length cs)%nat →
    Z.of_nat (size (ctl_fds w)) + 2 * Z.of_nat n + 2 <= fd_limit w →
    (n <= forks_left w)%nat →
    ∃ w', init_disks n i w = Ret 0 w'.
Proof.
  induction n as [|n IH]; intros i w cs Hcs Hi Hlen Hsize Hforks.
  - by exists w.
  - destruct (forks_left w) as [|m] eqn:Hm; [lia|].
    destruct (init_disk_ok i w cs m) as (w1 & cs1 & H1 & Hcs1 & Hlen1 & Hsize1
                                         & Hl1 & Hf1); [done|done|lia|lia|done|].
    destruct (IH (i + 1) w1 cs1) as (w' & H'); [done|lia|lia|lia|lia|].
    exists w'. cbn [init_disks]. unfold mbind, M_bind. rewrite H1. exact H'.
Qed.

(** X14.  [init_all_controllers (num_disks + 1)] returns 0 in a freshly
    started controller that may open [2 * num_disks + 7] descriptors and
    create [num_disks + 1] processes. *)
Theorem init_all_controllers_succeeds (limit : Z) (forks : nat) :
  0 <= num_disks →
  2 * num_disks + 7 <= limit →
  (Z.to_nat (num_disks + 1) <= forks)%nat →
  ∃ w, init_all_controllers (num_disks + 1) (boot limit forks) = Ret 0 w.
Proof.
  intros HD Hlimit Hforks.
  unfold init_all_controllers, mbind, M_bind, sys_malloc_table, modify.
  eapply init_disks_ok; wsimpl.
  - done.
  - done.
  - rewrite length_replicate. lia.
  - unfold boot. cbn [ctl_fds fd_limit].
    rewrite !map_size_insert_None, map_size_empty; [lia|done..].
  - done.
Qed.

End Resources.

(** The scenario: 13 descriptors and 4 processes are enough. *)
Lemma init_all_controllers_succeeds_witness :
  ∃ w, init_all_controllers (cfg := cfg344) (3 + 1) (boot 13 4) = Ret 0 w.
Proof.
  apply (init_all_controllers_succeeds (cfg := cfg344) 13 4).
  - discriminate.
  - discriminate.
  - vm_compute. lia.
Defined.

(** ** How the command loop ends *)

Section LoopEnd.
Context {cfg : raid_config}.

Lemma command_loop_end_bounded n :
  ∀ id eof can_reply inq d st fs0,
    (length inq < n)%nat →
    match dr_end (command_loop id eof can_reply inq d st fs0) with
    | LoopLeft s => eof = true ∧ s = 1
    | Waiting _ st' => eof = false ∧ (st' = st ∨ st' = 1)
    | CmdExit => FCmd CMD_EXIT ∈ inq
    | Undefined => True
    end.
Proof.
  assert (Hstarved : ∀ eof inq d st fs0,
            match dr_end (starved eof inq d st fs0) with
            | LoopLeft s => eof = true ∧ s = 1
            | Waiting _ st' => eof = false ∧ (st' = st ∨ st' = 1)
            | CmdExit => FCmd CMD_EXIT ∈ inq
            | Undefined => True
            end).
  { intros [] ? ? ? ?; simpl; auto. }
  assert (Hlift : ∀ eof (e : disk_end) st0 st (rest inq : list field),
            (∀ f, f ∈ rest → f ∈ inq) →
            st0 = st ∨ st0 = 1 →
            match e with
            | LoopLeft s => eof = true ∧ s = 1
            | Waiting _ st' => eof = false ∧ (st' = st0 ∨ st' = 1)
            | CmdExit => FCmd CMD_EXIT ∈ rest
            | Undefined => True
            end →
            match e with
            | LoopLeft s => eof = true ∧ s = 1
            | Waiting _ st' => eof = false ∧ (st' = st ∨ st' = 1)
            | CmdExit => FCmd CMD_EXIT ∈ inq
            | Undefined => True
            end).
  { intros eof [] st0 st rest inq Hsub Hst0; try done; [|by auto].
    intros [? [?|?]]; split; try done; destruct Hst0; subst; auto. }
  induction n as [|n IH]; intros id eof can_reply inq d st fs0 Hlen; [lia|].
  destruct inq as [|[cmd|?|?] rest]; simpl; try done; try apply Hstarved.
  destruct cmd; simpl in *.
  - destruct rest as [|[?|block_num|?] rest']; simpl in *; try done;
      try apply Hstarved.
    destruct (in_disk d block_num); [|done].
    destruct can_reply; simpl.
    + apply (Hlift eof _ st st rest'); [|by left|apply IH; lia].
      intros f Hf. by do 2 apply list_elem_of_further.
    + apply (Hlift eof _ 1 st rest'); [|by right|apply IH; lia].
      intros f Hf. by do 2 apply list_elem_of_further.
  - destruct rest as [|[?|block_num|?] rest']; simpl in *; try done;
      try apply Hstarved.
    destruct rest' as [|[?|?|block_data] rest'']; simpl in *; try done;
      try apply Hstarved.
    destruct (_ && _); [|done].
    apply (Hlift eof _ st st rest''); [|by left|apply IH; simpl; lia].
    intros f Hf. by do 3 apply list_elem_of_further.
  - apply list_elem_of_here.
  - apply (Hlift eof _ 1 st rest); [|by right|apply IH; lia].
    intros f Hf. by apply list_elem_of_further.
Qed.

(** X15.  How [start_disk] can end, for every state of its descriptor,
    every input, memory and status.  The worker leaves its command loop
    by [break] only when a [read()] of a command fails, because
    [from_parent] cannot be read or because no writer of the pipe is
    left, and its exit status is then 1.  It ends up blocked in [read()]
    only with a descriptor it can read and a writer left, and its status
    flag is then the one it had or 1: the flag does not go back to 0.
    It ends by [CMD_EXIT] only when it can read its descriptor and a
    [CMD_EXIT] is among the fields that arrived.  So the status 1 that
    an unknown command or a failed reply sets is reported only when a
    later [read()] of a command fails.  Of an end in undefined
    behaviour only the readable descriptor is stated. *)
Theorem loop_left_only_on_failed_read (id : Z) (fd_ok eof can_reply : bool)
    (inq : list field) (d : list byte) (st : Z) (fs0 : filesystem) :
  match dr_end (start_disk id fd_ok eof can_reply inq d st fs0) with
  | LoopLeft s => (fd_ok = false ∨ eof = true) ∧ s = 1
  | Waiting _ st' => fd_ok = true ∧ eof = false ∧ (st' = st ∨ st' = 1)
  | CmdExit => fd_ok = true ∧ FCmd CMD_EXIT ∈ inq
  | Undefined => fd_ok = true
  end.
Proof.
  unfold start_disk. destruct fd_ok; [|simpl; auto].
  pose proof (command_loop_end_bounded (S (length inq)) id eof can_reply inq
                d st fs0 ltac:(lia)) as H.
  destruct (dr_end _); intuition.
Qed.

End LoopEnd.

(** ** Shutting down a degraded array *)

Section DegradedShutdown.
Context {cfg : raid_config}.






End DegradedShutdown.






(** ** From the requests to the files *)

Section Session.
Context {cfg : raid_config}.




End Session.

